(** * Email agent: mail store, IMAP search, sync service and listener registry

    A shallow embedding of the TypeScript sources of the email agent
    ([database/database-manager.ts], [database/email-db.ts],
    [database/imap-manager.ts], [database/email-sync.ts] and
    [ccsdk/listeners-manager.ts]) together with the properties of the
    specification that concern them, followed by the listeners that ship
    with the agent ([agent/custom_scripts/listeners]), the endpoint that
    serves their sources ([server/endpoints/listeners.ts]) and further
    properties of all of these.

    Conventions.
    - A JavaScript [string] is a Rocq [string]; its length is counted in
      code units, which is what [String.prototype.substring] counts.
    - A JavaScript [number] that holds an integer is a [Z].
    - An optional property [x?: T] is an [option T]; [undefined] and [null]
      are both [None].
    - A [Date] is the number of milliseconds since the epoch.
    - SQLite tables are lists of rows in insertion order. *)

From Stdlib Require Import ZArith List String Ascii Bool Lia DecimalString.
From Stdlib Require Import Permutation Sorted.
Import ListNotations.
Local Open Scope string_scope.
Local Open Scope list_scope.
Local Open Scope Z_scope.
Set Warnings "-register-all".

(* ================================================================== *)
(** ** JavaScript conventions *)

Module Js.

(** Truthiness of a string: every string but the empty one. *)
Definition truthy_string (s : string) : bool :=
  match s with
  | EmptyString => false
  | String _ _ => true
  end.

(** Truthiness of an optional string property. *)
Definition truthy (o : option string) : bool :=
  match o with
  | Some s => truthy_string s
  | None => false
  end.

(** Truthiness of a number. *)
Definition truthy_num (n : Z) : bool := negb (n =? 0).

Definition truthy_onum (o : option Z) : bool :=
  match o with
  | Some n => truthy_num n
  | None => false
  end.

(** [x || null] on an optional string. *)
Definition or_null (o : option string) : option string :=
  if truthy o then o else None.

(** [x || d] on an optional string. *)
Definition or_else (o : option string) (d : string) : string :=
  match o with
  | Some s => if truthy_string s then s else d
  | None => d
  end.

(** [x || d] on an optional number. *)
Definition num_or (o : option Z) (d : Z) : Z :=
  match o with
  | Some n => if truthy_num n then n else d
  | None => d
  end.

(** [x !== undefined] *)
Definition defined {A : Type} (o : option A) : bool :=
  match o with
  | Some _ => true
  | None => false
  end.

(** The double-quote character, as a string. *)
Definition dquote : string := String (ascii_of_nat 34) EmptyString.

(** [b ? 1 : 0] *)
Definition bit (b : bool) : Z := if b then 1 else 0.

(** [Boolean(n)] on a numeric column. *)
Definition Boolean (n : Z) : bool := truthy_num n.

(** [s.substring(0, n)] for a non-negative [n]. *)
Definition substring0 (n : nat) (s : string) : string := substring 0 n s.

(** [xs.slice(0, n)]: a negative [n] counts from the end. *)
Definition slice0 {A : Type} (n : Z) (xs : list A) : list A :=
  if n <? 0
  then firstn (Z.to_nat (Z.of_nat (List.length xs) + n)) xs
  else firstn (Z.to_nat n) xs.

(** [xs.join(sep)] *)
Fixpoint join (sep : string) (xs : list string) : string :=
  match xs with
  | [] => EmptyString
  | [x] => x
  | x :: rest => (x ++ sep ++ join sep rest)%string
  end.

(** Decimal rendering of an integer, as a template literal prints it. *)
Definition show_int (n : Z) : string := NilZero.string_of_int (Z.to_int n).

(** A thrown [Error]; only its message is observable here. *)
Inductive Error : Type := mkError (message : string).

(** The outcome of evaluating something that may throw. *)
Inductive Outcome (A : Type) : Type :=
| Returned (a : A)
| Thrown (e : Error).
Arguments Returned {A} a.
Arguments Thrown {A} e.

(** The two functions of the runtime's [Date] that the sources use:
    [d.toISOString()] and [new Date(text)]. *)
Record DateApi : Type := {
  toISOString : Z -> string;
  newDate : string -> Z
}.

(** A [Date], in milliseconds since the epoch. *)
Definition Date := Z.

(** [Date | string] *)
Inductive DateOrString : Type :=
| IsDate (d : Date)
| IsString (s : string).

(** [typeof d === 'string' ? d : d.toISOString()] *)
Definition iso (rt : DateApi) (d : DateOrString) : string :=
  match d with
  | IsString s => s
  | IsDate d => toISOString rt d
  end.

(** Truthiness of a [Date | string | undefined]. *)
Definition truthy_date (d : option DateOrString) : bool :=
  match d with
  | Some (IsString s) => truthy_string s
  | Some (IsDate _) => true
  | None => false
  end.

(** [d ? iso(d) : new Date().toISOString()] *)
Definition iso_or_now (rt : DateApi) (now : Date) (d : option DateOrString)
  : string :=
  match d with
  | Some x => if truthy_date d then iso rt x else toISOString rt now
  | None => toISOString rt now
  end.

End Js.
Import Js.

(* ================================================================== *)
(** ** IMAP search expressions ([imap-manager.ts]) *)

Module ImapManager.

(** [string | string[]] *)
Inductive StringOrArray : Type :=
| One (s : string)
| Many (l : list string).

Record DateRange : Type := {
  dr_start : option Date;
  dr_end : option Date
}.

(** [SearchCriteria], as declared in [database-manager.ts]. *)
Record SearchCriteria : Type := {
  query : option string;
  from : option StringOrArray;
  to : option StringOrArray;
  subject : option string;
  dateRange : option DateRange;
  hasAttachments : option bool;
  isUnread : option bool;
  isStarred : option bool;
  folder : option string;
  folders : option (list string);
  labels : option (list string);
  threadId : option string;
  limit : option Z;
  offset : option Z;
  minSize : option Z;
  maxSize : option Z;
  gmailQuery : option string
}.

(** The [any[]] handed to node-imap's [search]. *)
Inductive Term : Type :=
| Str (s : string)
| Num (n : Z)
| DateTerm (d : Date)
| Arr (items : list Term).

(** [if (criteria.from)]: a string is tested for emptiness, an array is
    always truthy. *)
Definition truthy_soa (o : option StringOrArray) : bool :=
  match o with
  | Some (One s) => truthy_string s
  | Some (Many _) => true
  | None => false
  end.

(** [Array.isArray(x) ? x : [x]] *)
Definition as_array (x : StringOrArray) : list string :=
  match x with
  | One s => [s]
  | Many l => l
  end.

(** The FROM / TO clause. *)
Definition address_clause (key : string) (x : StringOrArray) : Term :=
  match as_array x with
  | [a] => Arr [Str key; Str a]
  | addrs => Arr (Str "OR" :: map (fun addr => Arr [Str key; Str addr]) addrs)
  end.

Definition when {A : Type} (b : bool) (l : list A) : list A :=
  if b then l else [].

(** Everything [buildImapSearchCriteria] pushes after the [gmailQuery]
    test, in order. *)
Definition fieldCriteria (c : SearchCriteria) : list Term :=
  when (truthy (query c))
    [Arr [Str "OR";
          Arr [Str "SUBJECT"; Str (or_else (query c) EmptyString)];
          Arr [Str "BODY"; Str (or_else (query c) EmptyString)]]]
  ++ match from c with
     | Some x => when (truthy_soa (from c)) [address_clause "FROM" x]
     | None => []
     end
  ++ match to c with
     | Some x => when (truthy_soa (to c)) [address_clause "TO" x]
     | None => []
     end
  ++ when (truthy (subject c)) [Arr [Str "SUBJECT"; Str (or_else (subject c) EmptyString)]]
  ++ match dateRange c with
     | Some r =>
         match dr_start r with
         | Some d => [Arr [Str "SINCE"; DateTerm d]]
         | None => []
         end
         ++ match dr_end r with
            | Some d => [Arr [Str "BEFORE"; DateTerm d]]
            | None => []
            end
     | None => []
     end
  ++ match hasAttachments c with
     | Some true => [Arr [Str "KEYWORD"; Str "has:attachment"]]
     | _ => []
     end
  ++ match isUnread c with
     | Some true => [Str "UNSEEN"]
     | Some false => [Str "SEEN"]
     | None => []
     end
  ++ match minSize c with
     | Some n => when (truthy_num n) [Arr [Str "LARGER"; Num n]]
     | None => []
     end
  ++ match maxSize c with
     | Some n => when (truthy_num n) [Arr [Str "SMALLER"; Num n]]
     | None => []
     end.

(** [ImapManager.buildImapSearchCriteria] *)
Definition buildImapSearchCriteria (c : SearchCriteria) : list Term :=
  match gmailQuery c with
  | Some q =>
      if truthy_string q
      then [Arr [Str "X-GM-RAW"; Str q]]
      else
        match fieldCriteria c with
        | [] => [Str "ALL"]
        | l => l
        end
  | None =>
      match fieldCriteria c with
      | [] => [Str "ALL"]
      | l => l
      end
  end.

(** A criteria record with every field absent. *)
Definition no_criteria : SearchCriteria :=
  {| query := None; from := None; to := None; subject := None;
     dateRange := None; hasAttachments := None; isUnread := None;
     isStarred := None; folder := None; folders := None; labels := None;
     threadId := None; limit := None; offset := None; minSize := None;
     maxSize := None; gmailQuery := None |}.

End ImapManager.

(* ================================================================== *)
(** ** The SQLite store shared by [EmailDatabase] and [DatabaseManager] *)

Module Store.

(** The [labels] column holds NULL or the JSON text of an array of
    strings.  The text is represented by the array it encodes:
    [JSON.parse (JSON.stringify l) = l] on arrays of strings. *)
Definition JsonLabels := list string.

(** A row of [emails]: the columns that the statements of the two
    classes name, [imap_uid] being the column of the migration
    [add-imap-uid.sql]. *)
Record EmailRow : Type := {
  id : Z;
  message_id : string;
  imap_uid : option Z;
  thread_id : option string;
  in_reply_to : option string;
  email_references : option string;
  date_sent : string;
  date_received : string;
  subject : option string;
  from_address : string;
  from_name : option string;
  to_addresses : option string;
  cc_addresses : option string;
  bcc_addresses : option string;
  reply_to : option string;
  body_text : option string;
  body_html : option string;
  snippet : option string;
  is_read : Z;
  is_starred : Z;
  is_important : Z;
  is_draft : Z;
  is_sent : Z;
  is_trash : Z;
  is_spam : Z;
  size_bytes : Z;
  has_attachments : Z;
  attachment_count : Z;
  folder : string;
  labels : option JsonLabels;
  raw_headers : option string;
  created_at : string;
  updated_at : string
}.

(** A row of [recipients] (the generated [domain] column is a function
    of [address] and is left out). *)
Record RecipientRow : Type := {
  r_id : Z;
  r_email_id : Z;
  r_type : string;
  r_address : string;
  r_name : option string
}.

(** A row of [attachments] (the generated [file_extension] column is a
    function of [filename] and is left out). *)
Record AttachmentRow : Type := {
  a_id : Z;
  a_email_id : Z;
  a_filename : string;
  a_content_type : option string;
  a_size_bytes : Z;
  a_content_id : option string;
  a_is_inline : Z
}.

(** A row of the full-text table [emails_fts]. *)
Record FtsRow : Type := {
  f_message_id : string;
  f_subject : option string;
  f_from_address : option string;
  f_from_name : option string;
  f_body_text : option string;
  f_to_addresses : option string;
  f_cc_addresses : option string;
  f_recipient_addresses : option string;
  f_attachment_names : option string
}.

(** The database file: its tables and the AUTOINCREMENT counters. *)
Record Database : Type := {
  emails : list EmailRow;
  recipients : list RecipientRow;
  attachments : list AttachmentRow;
  emails_fts : list FtsRow;
  seq_emails : Z;
  seq_recipients : Z;
  seq_attachments : Z
}.

Definition empty : Database :=
  {| emails := []; recipients := []; attachments := []; emails_fts := [];
     seq_emails := 0; seq_recipients := 0; seq_attachments := 0 |}.

(** What the store reads from its environment: [Date.now()] and SQLite's
    [CURRENT_TIMESTAMP]. *)
Record Clock : Type := {
  Date_now : Date;
  CURRENT_TIMESTAMP : string
}.

(** [SELECT ... FROM emails WHERE message_id = ?] with [.get]: the first
    matching row. *)
Definition select_by_message_id (m : string) (db : Database) : option EmailRow :=
  find (fun r => String.eqb (message_id r) m) (emails db).

(** [SELECT * FROM attachments WHERE email_id = ?] *)
Definition attachments_of (email_id : Z) (db : Database) : list AttachmentRow :=
  filter (fun a => a_email_id a =? email_id) (attachments db).

(** [SELECT * FROM emails_fts WHERE message_id = ?] *)
Definition fts_of (m : string) (db : Database) : list FtsRow :=
  filter (fun f => String.eqb (f_message_id f) m) (emails_fts db).

End Store.

(* ================================================================== *)
(** ** [DatabaseManager] ([database-manager.ts]) *)

Module DatabaseManager.

(** [interface EmailRecord] *)
Record EmailRecord : Type := {
  id : option Z;
  messageId : string;
  imapUid : option Z;
  threadId : option string;
  inReplyTo : option string;
  emailReferences : option string;
  dateSent : DateOrString;
  dateReceived : option DateOrString;
  subject : option string;
  fromAddress : string;
  fromName : option string;
  toAddresses : option string;
  ccAddresses : option string;
  bccAddresses : option string;
  replyTo : option string;
  bodyText : option string;
  bodyHtml : option string;
  snippet : option string;
  isRead : bool;
  isStarred : bool;
  isImportant : bool;
  isDraft : bool;
  isSent : bool;
  isTrash : bool;
  isSpam : bool;
  sizeBytes : Z;
  hasAttachments : bool;
  attachmentCount : Z;
  folder : string;
  labels : option (list string);
  rawHeaders : option string
}.

(** [interface Attachment] *)
Record Attachment : Type := {
  emailId : option Z;
  filename : string;
  contentType : option string;
  att_sizeBytes : option Z;
  contentId : option string;
  isInline : option bool
}.

(** The argument of [updateEmailFlags]. *)
Record FlagUpdates : Type := {
  u_isRead : option bool;
  u_isStarred : option bool;
  u_isImportant : option bool;
  u_labels : option (list string);
  u_folder : option string
}.

Definition no_updates : FlagUpdates :=
  {| u_isRead := None; u_isStarred := None; u_isImportant := None;
     u_labels := None; u_folder := None |}.

Section WithRuntime.

Context (rt : DateApi).

(** [mapRowToEmailRecord]: the object literal has no [imapUid]
    property, so the record it returns never carries one. *)
Definition mapRowToEmailRecord (row : Store.EmailRow) : EmailRecord :=
  {| id := Some (Store.id row);
     messageId := Store.message_id row;
     imapUid := None;
     threadId := Store.thread_id row;
     inReplyTo := Store.in_reply_to row;
     emailReferences := Store.email_references row;
     dateSent := IsDate (newDate rt (Store.date_sent row));
     dateReceived :=
       if truthy_string (Store.date_received row)
       then Some (IsDate (newDate rt (Store.date_received row)))
       else None;
     subject := Store.subject row;
     fromAddress := Store.from_address row;
     fromName := Store.from_name row;
     toAddresses := Store.to_addresses row;
     ccAddresses := Store.cc_addresses row;
     bccAddresses := Store.bcc_addresses row;
     replyTo := Store.reply_to row;
     bodyText := Store.body_text row;
     bodyHtml := Store.body_html row;
     snippet := Store.snippet row;
     isRead := Boolean (Store.is_read row);
     isStarred := Boolean (Store.is_starred row);
     isImportant := Boolean (Store.is_important row);
     isDraft := Boolean (Store.is_draft row);
     isSent := Boolean (Store.is_sent row);
     isTrash := Boolean (Store.is_trash row);
     isSpam := Boolean (Store.is_spam row);
     sizeBytes := Store.size_bytes row;
     hasAttachments := Boolean (Store.has_attachments row);
     attachmentCount := Store.attachment_count row;
     folder := Store.folder row;
     labels :=
       match Store.labels row with
       | Some l => Some l
       | None => Some []
       end;
     rawHeaders := Store.raw_headers row |}.

(** [getEmailByMessageId] *)
Definition getEmailByMessageId (messageId : string) (db : Store.Database)
  : option EmailRecord :=
  match Store.select_by_message_id messageId db with
  | Some row => Some (mapRowToEmailRecord row)
  | None => None
  end.

(** [getAttachments] *)
Definition getAttachments (emailId : Z) (db : Store.Database)
  : list Store.AttachmentRow :=
  Store.attachments_of emailId db.

(** The trigger [emails_fts_insert] that [initializeDatabase]
    declares: AFTER INSERT ON emails. *)
Definition emails_fts_insert (new : Store.EmailRow) (fts : list Store.FtsRow)
  : list Store.FtsRow :=
  fts ++ [ {| Store.f_message_id := Store.message_id new;
              Store.f_subject := Store.subject new;
              Store.f_from_address := Some (Store.from_address new);
              Store.f_from_name := Store.from_name new;
              Store.f_body_text := Store.body_text new;
              Store.f_to_addresses := Store.to_addresses new;
              Store.f_cc_addresses := Store.cc_addresses new;
              Store.f_recipient_addresses := None;
              Store.f_attachment_names := None |} ].

(** The trigger [emails_fts_update]: AFTER UPDATE ON emails, once per
    updated row. *)
Definition emails_fts_update (new : Store.EmailRow) (fts : list Store.FtsRow)
  : list Store.FtsRow :=
  map (fun f =>
         if String.eqb (Store.f_message_id f) (Store.message_id new)
         then {| Store.f_message_id := Store.f_message_id f;
                 Store.f_subject := Store.subject new;
                 Store.f_from_address := Some (Store.from_address new);
                 Store.f_from_name := Store.from_name new;
                 Store.f_body_text := Store.body_text new;
                 Store.f_to_addresses := Store.to_addresses new;
                 Store.f_cc_addresses := Store.cc_addresses new;
                 Store.f_recipient_addresses := Store.f_recipient_addresses f;
                 Store.f_attachment_names := Store.f_attachment_names f |}
         else f) fts.

(** [UPDATE emails SET ... WHERE message_id = m]: every matching row is
    rewritten by [set] and the update trigger runs for each of them. *)
Definition update_emails_where (m : string)
    (set : Store.EmailRow -> Store.EmailRow) (db : Store.Database)
  : Store.Database :=
  let hit := fun r => String.eqb (Store.message_id r) m in
  let updated := map set (filter hit (Store.emails db)) in
  {| Store.emails := map (fun r => if hit r then set r else r) (Store.emails db);
     Store.recipients := Store.recipients db;
     Store.attachments := Store.attachments db;
     Store.emails_fts :=
       fold_left (fun fts new => emails_fts_update new fts) updated
                 (Store.emails_fts db);
     Store.seq_emails := Store.seq_emails db;
     Store.seq_recipients := Store.seq_recipients db;
     Store.seq_attachments := Store.seq_attachments db |}.

(** The SET list that [updateEmailFlags] assembles, applied to one
    row: a column is assigned when its property is not [undefined];
    [updated_at] is always assigned. *)
Definition set_flags (clk : Store.Clock) (updates : FlagUpdates)
    (r : Store.EmailRow) : Store.EmailRow :=
  {| Store.id := Store.id r;
     Store.message_id := Store.message_id r;
     Store.imap_uid := Store.imap_uid r;
     Store.thread_id := Store.thread_id r;
     Store.in_reply_to := Store.in_reply_to r;
     Store.email_references := Store.email_references r;
     Store.date_sent := Store.date_sent r;
     Store.date_received := Store.date_received r;
     Store.subject := Store.subject r;
     Store.from_address := Store.from_address r;
     Store.from_name := Store.from_name r;
     Store.to_addresses := Store.to_addresses r;
     Store.cc_addresses := Store.cc_addresses r;
     Store.bcc_addresses := Store.bcc_addresses r;
     Store.reply_to := Store.reply_to r;
     Store.body_text := Store.body_text r;
     Store.body_html := Store.body_html r;
     Store.snippet := Store.snippet r;
     Store.is_read :=
       match u_isRead updates with
       | Some b => bit b
       | None => Store.is_read r
       end;
     Store.is_starred :=
       match u_isStarred updates with
       | Some b => bit b
       | None => Store.is_starred r
       end;
     Store.is_important :=
       match u_isImportant updates with
       | Some b => bit b
       | None => Store.is_important r
       end;
     Store.is_draft := Store.is_draft r;
     Store.is_sent := Store.is_sent r;
     Store.is_trash := Store.is_trash r;
     Store.is_spam := Store.is_spam r;
     Store.size_bytes := Store.size_bytes r;
     Store.has_attachments := Store.has_attachments r;
     Store.attachment_count := Store.attachment_count r;
     Store.folder :=
       match u_folder updates with
       | Some f => f
       | None => Store.folder r
       end;
     Store.labels :=
       match u_labels updates with
       | Some l => Some l
       | None => Store.labels r
       end;
     Store.raw_headers := Store.raw_headers r;
     Store.created_at := Store.created_at r;
     Store.updated_at := Store.CURRENT_TIMESTAMP clk |}.

(** The number of entries of [setClauses] before [updated_at] is
    pushed. *)
Definition provided (updates : FlagUpdates) : nat :=
  ((if defined (u_isRead updates) then 1 else 0)
   + (if defined (u_isStarred updates) then 1 else 0)
   + (if defined (u_isImportant updates) then 1 else 0)
   + (if defined (u_labels updates) then 1 else 0)
   + (if defined (u_folder updates) then 1 else 0))%nat.

(** [updateEmailFlags] *)
Definition updateEmailFlags (clk : Store.Clock) (messageId : string)
    (updates : FlagUpdates) (db : Store.Database) : Store.Database :=
  if Nat.eqb (provided updates + 1) 1
  then db
  else update_emails_where messageId (set_flags clk updates) db.

(** [email.snippet || email.bodyText?.substring(0, 200) || null] *)
Definition snippet_param (snippet bodyText : option string) : option string :=
  if truthy snippet then snippet
  else
    match bodyText with
    | Some b => or_null (Some (substring0 200 b))
    | None => None
    end.

(** The values bound to the INSERT of [upsertEmail], as a row.  The
    statement names [$references] while the parameter object supplies
    [$emailReferences]: the placeholder stays unbound, which SQLite
    reads as NULL.  [imap_uid] is not among the inserted columns. *)
Definition excluded_row (clk : Store.Clock) (email : EmailRecord)
    (attachments : list Attachment) (rowid : Z) : Store.EmailRow :=
  {| Store.id := rowid;
     Store.message_id := messageId email;
     Store.imap_uid := None;
     Store.thread_id := or_null (threadId email);
     Store.in_reply_to := or_null (inReplyTo email);
     Store.email_references := None;
     Store.date_sent := iso rt (dateSent email);
     Store.date_received :=
       iso_or_now rt (Store.Date_now clk) (dateReceived email);
     Store.subject := or_null (subject email);
     Store.from_address := fromAddress email;
     Store.from_name := or_null (fromName email);
     Store.to_addresses := or_null (toAddresses email);
     Store.cc_addresses := or_null (ccAddresses email);
     Store.bcc_addresses := or_null (bccAddresses email);
     Store.reply_to := or_null (replyTo email);
     Store.body_text := or_null (bodyText email);
     Store.body_html := or_null (bodyHtml email);
     Store.snippet := snippet_param (snippet email) (bodyText email);
     Store.is_read := bit (isRead email);
     Store.is_starred := bit (isStarred email);
     Store.is_important := bit (isImportant email);
     Store.is_draft := bit (isDraft email);
     Store.is_sent := bit (isSent email);
     Store.is_trash := bit (isTrash email);
     Store.is_spam := bit (isSpam email);
     Store.size_bytes := sizeBytes email;
     Store.has_attachments := bit (0 <? Z.of_nat (List.length attachments));
     Store.attachment_count := Z.of_nat (List.length attachments);
     Store.folder := if truthy_string (folder email) then folder email else "INBOX";
     Store.labels := labels email;
     Store.raw_headers := or_null (rawHeaders email);
     Store.created_at := Store.CURRENT_TIMESTAMP clk;
     Store.updated_at := Store.CURRENT_TIMESTAMP clk |}.

(** [ON CONFLICT(message_id) DO UPDATE SET ...]: every column of the
    list is taken from the excluded row, [updated_at] is set; [id],
    [message_id], [imap_uid] and [created_at] are not in the list. *)
Definition on_conflict_update (excluded old : Store.EmailRow) : Store.EmailRow :=
  {| Store.id := Store.id old;
     Store.message_id := Store.message_id old;
     Store.imap_uid := Store.imap_uid old;
     Store.thread_id := Store.thread_id excluded;
     Store.in_reply_to := Store.in_reply_to excluded;
     Store.email_references := Store.email_references excluded;
     Store.date_sent := Store.date_sent excluded;
     Store.date_received := Store.date_received excluded;
     Store.subject := Store.subject excluded;
     Store.from_address := Store.from_address excluded;
     Store.from_name := Store.from_name excluded;
     Store.to_addresses := Store.to_addresses excluded;
     Store.cc_addresses := Store.cc_addresses excluded;
     Store.bcc_addresses := Store.bcc_addresses excluded;
     Store.reply_to := Store.reply_to excluded;
     Store.body_text := Store.body_text excluded;
     Store.body_html := Store.body_html excluded;
     Store.snippet := Store.snippet excluded;
     Store.is_read := Store.is_read excluded;
     Store.is_starred := Store.is_starred excluded;
     Store.is_important := Store.is_important excluded;
     Store.is_draft := Store.is_draft excluded;
     Store.is_sent := Store.is_sent excluded;
     Store.is_trash := Store.is_trash excluded;
     Store.is_spam := Store.is_spam excluded;
     Store.size_bytes := Store.size_bytes excluded;
     Store.has_attachments := Store.has_attachments excluded;
     Store.attachment_count := Store.attachment_count excluded;
     Store.folder := Store.folder excluded;
     Store.labels := Store.labels excluded;
     Store.raw_headers := Store.raw_headers excluded;
     Store.created_at := Store.created_at old;
     Store.updated_at := Store.updated_at excluded |}.

(** The key that an INSERT into [emails] draws.  SQLite draws it before
    it looks for a conflict, and the AUTOINCREMENT counter keeps it even
    when the statement then updates the stored row instead: a key drawn
    by an upsert that hits a stored message-id is never given out. *)
Definition consume_rowid (db : Store.Database) : Store.Database :=
  {| Store.emails := Store.emails db;
     Store.recipients := Store.recipients db;
     Store.attachments := Store.attachments db;
     Store.emails_fts := Store.emails_fts db;
     Store.seq_emails := Store.seq_emails db + 1;
     Store.seq_recipients := Store.seq_recipients db;
     Store.seq_attachments := Store.seq_attachments db |}.

(** The prepared statement [upsertEmail], INSERT ... ON CONFLICT
    (message_id) DO UPDATE ... RETURNING id, with the trigger it
    fires.  It yields the store and the returned [id].  On a conflict
    the stored row keeps its key, and the key drawn for the insert is
    used up. *)
Definition upsert_statement (clk : Store.Clock) (email : EmailRecord)
    (attachments : list Attachment) (db : Store.Database)
  : Store.Database * Z :=
  match Store.select_by_message_id (messageId email) db with
  | Some old =>
      let excluded := excluded_row clk email attachments (Store.id old) in
      (consume_rowid
         (update_emails_where (messageId email) (on_conflict_update excluded) db),
       Store.id old)
  | None =>
      let rowid := Store.seq_emails db + 1 in
      let new := excluded_row clk email attachments rowid in
      ({| Store.emails := Store.emails db ++ [new];
          Store.recipients := Store.recipients db;
          Store.attachments := Store.attachments db;
          Store.emails_fts := emails_fts_insert new (Store.emails_fts db);
          Store.seq_emails := rowid;
          Store.seq_recipients := Store.seq_recipients db;
          Store.seq_attachments := Store.seq_attachments db |},
       rowid)
  end.

(** [DELETE FROM attachments WHERE email_id = $emailId] *)
Definition deleteAttachments (emailId : Z) (db : Store.Database) : Store.Database :=
  {| Store.emails := Store.emails db;
     Store.recipients := Store.recipients db;
     Store.attachments :=
       filter (fun a => negb (Store.a_email_id a =? emailId)) (Store.attachments db);
     Store.emails_fts := Store.emails_fts db;
     Store.seq_emails := Store.seq_emails db;
     Store.seq_recipients := Store.seq_recipients db;
     Store.seq_attachments := Store.seq_attachments db |}.

(** [INSERT INTO attachments (...)] for one attachment. *)
Definition insertAttachment (emailId : Z) (db : Store.Database)
    (attachment : Attachment) : Store.Database :=
  let rowid := Store.seq_attachments db + 1 in
  {| Store.emails := Store.emails db;
     Store.recipients := Store.recipients db;
     Store.attachments :=
       Store.attachments db
       ++ [ {| Store.a_id := rowid;
               Store.a_email_id := emailId;
               Store.a_filename := filename attachment;
               Store.a_content_type := or_null (contentType attachment);
               Store.a_size_bytes := num_or (att_sizeBytes attachment) 0;
               Store.a_content_id := or_null (contentId attachment);
               Store.a_is_inline :=
                 match isInline attachment with
                 | Some b => bit b
                 | None => 0
                 end |} ];
     Store.emails_fts := Store.emails_fts db;
     Store.seq_emails := Store.seq_emails db;
     Store.seq_recipients := Store.seq_recipients db;
     Store.seq_attachments := rowid |}.

(** [UPDATE emails_fts SET attachment_names = $names
     WHERE message_id = $messageId] *)
Definition set_attachment_names (names m : string) (db : Store.Database)
  : Store.Database :=
  {| Store.emails := Store.emails db;
     Store.recipients := Store.recipients db;
     Store.attachments := Store.attachments db;
     Store.emails_fts :=
       map (fun f =>
              if String.eqb (Store.f_message_id f) m
              then {| Store.f_message_id := Store.f_message_id f;
                      Store.f_subject := Store.f_subject f;
                      Store.f_from_address := Store.f_from_address f;
                      Store.f_from_name := Store.f_from_name f;
                      Store.f_body_text := Store.f_body_text f;
                      Store.f_to_addresses := Store.f_to_addresses f;
                      Store.f_cc_addresses := Store.f_cc_addresses f;
                      Store.f_recipient_addresses := Store.f_recipient_addresses f;
                      Store.f_attachment_names := Some names |}
              else f) (Store.emails_fts db);
     Store.seq_emails := Store.seq_emails db;
     Store.seq_recipients := Store.seq_recipients db;
     Store.seq_attachments := Store.seq_attachments db |}.

(** [upsertEmail].  The body runs inside [db.transaction]: it commits
    when the body returns and rolls back when it throws; none of its
    statements fails on the rows built here, so the transaction is the
    effect of its body. *)
Definition upsertEmail (clk : Store.Clock) (email : EmailRecord)
    (attachments : list Attachment) (db : Store.Database)
  : Store.Database * Z :=
  let (db1, emailId) := upsert_statement clk email attachments db in
  if 0 <? Z.of_nat (List.length attachments)
  then
    let db2 := deleteAttachments emailId db1 in
    let db3 := fold_left (insertAttachment emailId) attachments db2 in
    let attachmentNames := join " " (map filename attachments) in
    (set_attachment_names attachmentNames (messageId email) db3, emailId)
  else (db1, emailId).

(** [batchUpsertEmails] *)
Definition batchUpsertEmails (clk : Store.Clock)
    (emails : list (EmailRecord * option (list Attachment)))
    (db : Store.Database) : Store.Database :=
  fold_left
    (fun db ea =>
       fst (upsertEmail clk (fst ea)
              (match snd ea with Some l => l | None => [] end) db))
    emails db.

End WithRuntime.

End DatabaseManager.

(* ================================================================== *)
(** ** [EmailDatabase] ([email-db.ts]) *)

Module EmailDatabase.

(** [interface EmailRecord] of [email-db.ts] *)
Record EmailRecord : Type := {
  id : option Z;
  message_id : string;
  imap_uid : option Z;
  thread_id : option string;
  in_reply_to : option string;
  email_references : option string;
  date_sent : DateOrString;
  date_received : option DateOrString;
  subject : option string;
  from_address : string;
  from_name : option string;
  reply_to : option string;
  body_text : option string;
  body_html : option string;
  snippet : option string;
  is_read : option bool;
  is_starred : option bool;
  is_important : option bool;
  is_draft : option bool;
  is_sent : option bool;
  is_trash : option bool;
  is_spam : option bool;
  size_bytes : option Z;
  has_attachments : option bool;
  attachment_count : option Z;
  folder : option string;
  labels : option Store.JsonLabels;
  raw_headers : option string
}.

(** ['to' | 'cc' | 'bcc'] *)
Inductive RecipientType : Type := To | Cc | Bcc.

Definition type_text (t : RecipientType) : string :=
  match t with
  | To => "to"
  | Cc => "cc"
  | Bcc => "bcc"
  end.

(** [interface Recipient] *)
Record Recipient : Type := {
  rcp_email_id : Z;
  type : RecipientType;
  address : string;
  name : option string
}.

(** [interface Attachment] *)
Record Attachment : Type := {
  att_email_id : Z;
  filename : string;
  content_type : option string;
  att_size_bytes : option Z;
  content_id : option string;
  is_inline : option bool
}.

(** [b ? 1 : 0] on an optional boolean. *)
Definition obit (b : option bool) : Z :=
  match b with
  | Some true => 1
  | _ => 0
  end.

Section WithRuntime.

Context (rt : DateApi).

(** [email.snippet || email.body_text?.substring(0, 200) || null] *)
Definition snippet_param (snippet body_text : option string) : option string :=
  if truthy snippet then snippet
  else
    match body_text with
    | Some b => or_null (Some (substring0 200 b))
    | None => None
    end.

(** The row that the INSERT of [insertEmail] writes. *)
Definition inserted_row (clk : Store.Clock) (email : EmailRecord)
    (attachments : list Attachment) (rowid : Z) : Store.EmailRow :=
  {| Store.id := rowid;
     Store.message_id := message_id email;
     Store.imap_uid :=
       match imap_uid email with
       | Some n => if truthy_num n then Some n else None
       | None => None
       end;
     Store.thread_id := or_null (thread_id email);
     Store.in_reply_to := or_null (in_reply_to email);
     Store.email_references := or_null (email_references email);
     Store.date_sent := iso rt (date_sent email);
     Store.date_received :=
       iso_or_now rt (Store.Date_now clk) (date_received email);
     Store.subject := or_null (subject email);
     Store.from_address := from_address email;
     Store.from_name := or_null (from_name email);
     Store.to_addresses := None;
     Store.cc_addresses := None;
     Store.bcc_addresses := None;
     Store.reply_to := or_null (reply_to email);
     Store.body_text := or_null (body_text email);
     Store.body_html := or_null (body_html email);
     Store.snippet := snippet_param (snippet email) (body_text email);
     Store.is_read := obit (is_read email);
     Store.is_starred := obit (is_starred email);
     Store.is_important := obit (is_important email);
     Store.is_draft := obit (is_draft email);
     Store.is_sent := obit (is_sent email);
     Store.is_trash := obit (is_trash email);
     Store.is_spam := obit (is_spam email);
     Store.size_bytes := num_or (size_bytes email) 0;
     Store.has_attachments := bit (0 <? Z.of_nat (List.length attachments));
     Store.attachment_count := Z.of_nat (List.length attachments);
     Store.folder := or_else (folder email) "INBOX";
     Store.labels := labels email;
     Store.raw_headers := or_null (raw_headers email);
     Store.created_at := Store.CURRENT_TIMESTAMP clk;
     Store.updated_at := Store.CURRENT_TIMESTAMP clk |}.

(** The trigger [emails_fts_insert] of [email-db.ts]. *)
Definition emails_fts_insert (new : Store.EmailRow) : Store.FtsRow :=
  {| Store.f_message_id := Store.message_id new;
     Store.f_subject := Store.subject new;
     Store.f_from_address := Some (Store.from_address new);
     Store.f_from_name := Store.from_name new;
     Store.f_body_text := Store.body_text new;
     Store.f_to_addresses := None;
     Store.f_cc_addresses := None;
     Store.f_recipient_addresses := None;
     Store.f_attachment_names := None |}.

(** [insertRecipient.run] over the recipients, numbering from [seq]. *)
Fixpoint recipient_rows (emailId seq : Z) (rs : list Recipient)
  : list Store.RecipientRow :=
  match rs with
  | [] => []
  | r :: rest =>
      {| Store.r_id := seq + 1;
         Store.r_email_id := emailId;
         Store.r_type := type_text (type r);
         Store.r_address := address r;
         Store.r_name := or_null (name r) |}
      :: recipient_rows emailId (seq + 1) rest
  end.

(** [insertAttachment.run] over the attachments, numbering from [seq]. *)
Fixpoint attachment_rows (emailId seq : Z) (xs : list Attachment)
  : list Store.AttachmentRow :=
  match xs with
  | [] => []
  | a :: rest =>
      {| Store.a_id := seq + 1;
         Store.a_email_id := emailId;
         Store.a_filename := filename a;
         Store.a_content_type := or_null (content_type a);
         Store.a_size_bytes := num_or (att_size_bytes a) 0;
         Store.a_content_id := or_null (content_id a);
         Store.a_is_inline := obit (is_inline a) |}
      :: attachment_rows emailId (seq + 1) rest
  end.

(** [UPDATE emails_fts SET recipient_addresses = ..., attachment_names
    = ... WHERE message_id = ...] *)
Definition set_fts_names (addresses names m : string) (fts : list Store.FtsRow)
  : list Store.FtsRow :=
  map (fun f =>
         if String.eqb (Store.f_message_id f) m
         then {| Store.f_message_id := Store.f_message_id f;
                 Store.f_subject := Store.f_subject f;
                 Store.f_from_address := Store.f_from_address f;
                 Store.f_from_name := Store.f_from_name f;
                 Store.f_body_text := Store.f_body_text f;
                 Store.f_to_addresses := Store.f_to_addresses f;
                 Store.f_cc_addresses := Store.f_cc_addresses f;
                 Store.f_recipient_addresses := Some addresses;
                 Store.f_attachment_names := Some names |}
         else f) fts.

(** [insertEmail].  The INSERT is a plain one: on a [message_id] that
    is already stored the UNIQUE constraint fails, the call throws and
    the transaction rolls back, leaving the store as it was. *)
Definition insertEmail (clk : Store.Clock) (email : EmailRecord)
    (recipients : list Recipient) (attachments : list Attachment)
    (db : Store.Database) : Outcome Z * Store.Database :=
  match Store.select_by_message_id (message_id email) db with
  | Some _ =>
      (Thrown (mkError "UNIQUE constraint failed: emails.message_id"), db)
  | None =>
      let emailId := Store.seq_emails db + 1 in
      let new := inserted_row clk email attachments emailId in
      let recipientAddresses := join " " (map address recipients) in
      let attachmentNames := join " " (map filename attachments) in
      (Returned emailId,
       {| Store.emails := Store.emails db ++ [new];
          Store.recipients :=
            Store.recipients db
            ++ recipient_rows emailId (Store.seq_recipients db) recipients;
          Store.attachments :=
            Store.attachments db
            ++ attachment_rows emailId (Store.seq_attachments db) attachments;
          Store.emails_fts :=
            set_fts_names recipientAddresses attachmentNames (message_id email)
              (Store.emails_fts db ++ [emails_fts_insert new]);
          Store.seq_emails := emailId;
          Store.seq_recipients :=
            Store.seq_recipients db + Z.of_nat (List.length recipients);
          Store.seq_attachments :=
            Store.seq_attachments db + Z.of_nat (List.length attachments) |})
  end.

End WithRuntime.

End EmailDatabase.

(* ================================================================== *)
(** ** Listener types ([agent/custom_scripts/types.ts]) *)

Module Types.

(** [interface Email] *)
Record Email : Type := {
  messageId : string;
  from : string;
  to : string;
  subject : string;
  body : string;
  date : string;
  isRead : bool;
  hasAttachments : bool;
  labels : option (list string);
  uid : option Z
}.

(** [type EventType] *)
Inductive EventType : Type :=
| email_received
| email_sent
| email_starred
| email_archived
| email_labeled
| scheduled_time.

(** [a === b] on event kinds. *)
Definition event_eqb (a b : EventType) : bool :=
  match a, b with
  | email_received, email_received => true
  | email_sent, email_sent => true
  | email_starred, email_starred => true
  | email_archived, email_archived => true
  | email_labeled, email_labeled => true
  | scheduled_time, scheduled_time => true
  | _, _ => false
  end.

(** [interface ListenerConfig] *)
Record ListenerConfig : Type := {
  id : string;
  name : string;
  description : option string;
  enabled : bool;
  event : EventType
}.

Inductive Priority : Type := low | normal | high.

(** [interface NotifyOptions] *)
Record NotifyOptions : Type := {
  priority : option Priority
}.

Inductive Model : Type := opus | sonnet | haiku.

(** [interface SubagentOptions]; the JSON schema is kept as its text. *)
Record SubagentOptions : Type := {
  prompt : string;
  schema : string;
  model : option Model
}.

(** The object that [notify] hands to the host's callback. *)
Record Notification : Type := {
  n_type : string;
  n_listenerId : string;
  n_listenerName : string;
  n_priority : Priority;
  n_message : string;
  n_timestamp : string
}.

End Types.

(* ================================================================== *)
(** ** [ListenersManager] ([ccsdk/listeners-manager.ts]) *)

Module ListenersManager.

Import Types.

(** The part of [DatabaseManager] that the manager, which receives it
    through its constructor, calls. *)
Class DatabaseManagerApi (DB : Type) : Type := {
  db_getEmailByMessageId : string -> DB -> option DatabaseManager.EmailRecord;
  db_updateEmailFlags : string -> DatabaseManager.FlagUpdates -> DB -> DB
}.

(** The part of [ImapManager] that the manager calls.  Each method
    resolves ([None]) or rejects with an error, and may change the
    remote mailbox. *)
Class ImapManagerApi (Remote : Type) : Type := {
  imap_markAsRead : Z -> string -> Remote -> option Error * Remote;
  imap_markAsUnread : Z -> string -> Remote -> option Error * Remote;
  imap_starEmail : Z -> string -> Remote -> option Error * Remote;
  imap_unstarEmail : Z -> string -> Remote -> option Error * Remote;
  imap_archiveEmail : Z -> string -> Remote -> option Error * Remote;
  imap_addLabel : Z -> string -> string -> Remote -> option Error * Remote;
  imap_removeLabel : Z -> string -> string -> Remote -> option Error * Remote
}.

(** A line of the console: the text of a [console.log] or of a
    [console.error] with the error printed after it.  The check-mark and
    cross glyphs of the source texts are left out. *)
Inductive LogLine : Type :=
| Log (text : string)
| LogError (text : string) (error : option Error).

(** What a listener run can touch: the local store, the remote mailbox,
    the host's notification sink and the console. *)
Record World (DB Remote : Type) : Type := {
  db : DB;
  remote : Remote;
  notifications : list Notification;
  console : list LogLine
}.
Arguments db {DB Remote} w.
Arguments remote {DB Remote} w.
Arguments notifications {DB Remote} w.
Arguments console {DB Remote} w.

(** Asynchronous code that may throw, run to completion: a state and
    error monad over the world.  A throw keeps the effects that came
    before it. *)
Definition M (DB Remote A : Type) : Type :=
  World DB Remote -> Outcome A * World DB Remote.

Section Monad.

Context {DB Remote : Type}.

Definition ret {A : Type} (a : A) : M DB Remote A :=
  fun w => (Returned a, w).

Definition bind {A B : Type} (m : M DB Remote A) (k : A -> M DB Remote B)
  : M DB Remote B :=
  fun w =>
    match m w with
    | (Returned a, w') => k a w'
    | (Thrown e, w') => (Thrown e, w')
    end.

Definition throw {A : Type} (e : Error) : M DB Remote A :=
  fun w => (Thrown e, w).

(** [try { m } catch (error) { h error }] *)
Definition try_catch {A : Type} (m : M DB Remote A)
    (h : Error -> M DB Remote A) : M DB Remote A :=
  fun w =>
    match m w with
    | (Returned a, w') => (Returned a, w')
    | (Thrown e, w') => h e w'
    end.

(** [console.log] and [console.error] *)
Definition console_log (text : string) : M DB Remote unit :=
  fun w =>
    (Returned tt,
     {| db := db w; remote := remote w; notifications := notifications w;
        console := console w ++ [Log text] |}).

Definition console_error (text : string) (error : option Error)
  : M DB Remote unit :=
  fun w =>
    (Returned tt,
     {| db := db w; remote := remote w; notifications := notifications w;
        console := console w ++ [LogError text error] |}).

(** Reading and writing the local store. *)
Definition read_db {A : Type} (f : DB -> A) : M DB Remote A :=
  fun w => (Returned (f (db w)), w).

Definition write_db (f : DB -> DB) : M DB Remote unit :=
  fun w =>
    (Returned tt,
     {| db := f (db w); remote := remote w;
        notifications := notifications w; console := console w |}).

(** Awaiting a call of the IMAP manager: a rejection is a throw. *)
Definition await_imap (call : Remote -> option Error * Remote)
  : M DB Remote unit :=
  fun w =>
    let (r, remote') := call (remote w) in
    let w' := {| db := db w; remote := remote';
                 notifications := notifications w; console := console w |} in
    match r with
    | Some e => (Thrown e, w')
    | None => (Returned tt, w')
    end.

(** Handing a notification to the host. *)
Definition emit (n : Notification) : M DB Remote unit :=
  fun w =>
    (Returned tt,
     {| db := db w; remote := remote w;
        notifications := notifications w ++ [n]; console := console w |}).

End Monad.

Notation "x <- m ;; k" := (bind m (fun x => k))
  (at level 61, m at next level, right associativity).
Notation "m ;;; k" := (bind m (fun _ => k))
  (at level 61, right associativity).

(** [labels.includes(label)] *)
Definition includes (labels : list string) (label : string) : bool :=
  existsb (String.eqb label) labels.

(** [labels.filter(l => l !== label)] *)
Definition without (labels : list string) (label : string) : list string :=
  filter (fun l => negb (String.eqb l label)) labels.

(** An update that sets nothing but the labels. *)
Definition labels_update (l : list string) : DatabaseManager.FlagUpdates :=
  {| DatabaseManager.u_isRead := None;
     DatabaseManager.u_isStarred := None;
     DatabaseManager.u_isImportant := None;
     DatabaseManager.u_labels := Some l;
     DatabaseManager.u_folder := None |}.

Section ContextOperations.

Context {DB Remote : Type}.
Context {dbm : DatabaseManagerApi DB} {imap : ImapManagerApi Remote}.

Local Open Scope string_scope.

(** The opening of every email operation of the context: look the
    email up by message-id, throw when there is none and when
    [!email.imapUid] holds (no UID, or the UID 0). *)
Definition resolve (emailId : string)
  : M DB Remote (DatabaseManager.EmailRecord * Z) :=
  email <- read_db (db_getEmailByMessageId emailId) ;;
  match email with
  | None => throw (mkError ("Email not found: " ++ emailId))
  | Some email =>
      match DatabaseManager.imapUid email with
      | Some uid =>
          if truthy_num uid
          then ret (email, uid)
          else throw (mkError ("Email missing IMAP UID: " ++ emailId))
      | None => throw (mkError ("Email missing IMAP UID: " ++ emailId))
      end
  end.

(** [context.archiveEmail] *)
Definition archiveEmail (emailId : string) : M DB Remote unit :=
  try_catch
    (r <- resolve emailId ;;
     let (email, uid) := r in
     console_log ("[ListenerContext] Archiving email " ++ emailId
                  ++ " (UID: " ++ show_int uid ++ ")") ;;;
     await_imap (imap_archiveEmail uid (DatabaseManager.folder email)) ;;;
     write_db (db_updateEmailFlags emailId
                 {| DatabaseManager.u_isRead := None;
                    DatabaseManager.u_isStarred := None;
                    DatabaseManager.u_isImportant := None;
                    DatabaseManager.u_labels := None;
                    DatabaseManager.u_folder := Some "[Gmail]/All Mail" |}) ;;;
     console_log ("[ListenerContext] Archived email " ++ emailId))
    (fun error =>
       console_error ("[ListenerContext] Failed to archive email " ++ emailId ++ ":")
                     (Some error) ;;;
       throw error).

(** [context.starEmail] *)
Definition starEmail (emailId : string) : M DB Remote unit :=
  try_catch
    (r <- resolve emailId ;;
     let (email, uid) := r in
     console_log ("[ListenerContext] Starring email " ++ emailId
                  ++ " (UID: " ++ show_int uid ++ ")") ;;;
     await_imap (imap_starEmail uid (DatabaseManager.folder email)) ;;;
     write_db (db_updateEmailFlags emailId
                 {| DatabaseManager.u_isRead := None;
                    DatabaseManager.u_isStarred := Some true;
                    DatabaseManager.u_isImportant := None;
                    DatabaseManager.u_labels := None;
                    DatabaseManager.u_folder := None |}) ;;;
     console_log ("[ListenerContext] Starred email " ++ emailId))
    (fun error =>
       console_error ("[ListenerContext] Failed to star email " ++ emailId ++ ":")
                     (Some error) ;;;
       throw error).

(** [context.unstarEmail] *)
Definition unstarEmail (emailId : string) : M DB Remote unit :=
  try_catch
    (r <- resolve emailId ;;
     let (email, uid) := r in
     console_log ("[ListenerContext] Unstarring email " ++ emailId
                  ++ " (UID: " ++ show_int uid ++ ")") ;;;
     await_imap (imap_unstarEmail uid (DatabaseManager.folder email)) ;;;
     write_db (db_updateEmailFlags emailId
                 {| DatabaseManager.u_isRead := None;
                    DatabaseManager.u_isStarred := Some false;
                    DatabaseManager.u_isImportant := None;
                    DatabaseManager.u_labels := None;
                    DatabaseManager.u_folder := None |}) ;;;
     console_log ("[ListenerContext] Unstarred email " ++ emailId))
    (fun error =>
       console_error ("[ListenerContext] Failed to unstar email " ++ emailId ++ ":")
                     (Some error) ;;;
       throw error).

(** [context.markAsRead] *)
Definition markAsRead (emailId : string) : M DB Remote unit :=
  try_catch
    (r <- resolve emailId ;;
     let (email, uid) := r in
     console_log ("[ListenerContext] Marking email " ++ emailId
                  ++ " as read (UID: " ++ show_int uid ++ ")") ;;;
     await_imap (imap_markAsRead uid (DatabaseManager.folder email)) ;;;
     write_db (db_updateEmailFlags emailId
                 {| DatabaseManager.u_isRead := Some true;
                    DatabaseManager.u_isStarred := None;
                    DatabaseManager.u_isImportant := None;
                    DatabaseManager.u_labels := None;
                    DatabaseManager.u_folder := None |}) ;;;
     console_log ("[ListenerContext] Marked email " ++ emailId ++ " as read"))
    (fun error =>
       console_error ("[ListenerContext] Failed to mark email " ++ emailId ++ " as read:")
                     (Some error) ;;;
       throw error).

(** [context.markAsUnread] *)
Definition markAsUnread (emailId : string) : M DB Remote unit :=
  try_catch
    (r <- resolve emailId ;;
     let (email, uid) := r in
     console_log ("[ListenerContext] Marking email " ++ emailId
                  ++ " as unread (UID: " ++ show_int uid ++ ")") ;;;
     await_imap (imap_markAsUnread uid (DatabaseManager.folder email)) ;;;
     write_db (db_updateEmailFlags emailId
                 {| DatabaseManager.u_isRead := Some false;
                    DatabaseManager.u_isStarred := None;
                    DatabaseManager.u_isImportant := None;
                    DatabaseManager.u_labels := None;
                    DatabaseManager.u_folder := None |}) ;;;
     console_log ("[ListenerContext] Marked email " ++ emailId ++ " as unread"))
    (fun error =>
       console_error ("[ListenerContext] Failed to mark email " ++ emailId ++ " as unread:")
                     (Some error) ;;;
       throw error).

(** [context.addLabel] *)
Definition addLabel (emailId label : string) : M DB Remote unit :=
  try_catch
    (r <- resolve emailId ;;
     let (email, uid) := r in
     console_log ("[ListenerContext] Adding label " ++ dquote ++ label
                  ++ dquote ++ " to email " ++ emailId
                  ++ " (UID: " ++ show_int uid ++ ")") ;;;
     await_imap (imap_addLabel uid label (DatabaseManager.folder email)) ;;;
     (let currentLabels :=
        match DatabaseManager.labels email with
        | Some l => l
        | None => []
        end in
      if negb (includes currentLabels label)
      then write_db (db_updateEmailFlags emailId
                       (labels_update (currentLabels ++ [label])%list))
      else ret tt) ;;;
     console_log ("[ListenerContext] Added label " ++ dquote ++ label
                  ++ dquote ++ " to email " ++ emailId))
    (fun error =>
       console_error ("[ListenerContext] Failed to add label " ++ dquote ++ label
                      ++ dquote ++ " to email " ++ emailId ++ ":") (Some error) ;;;
       throw error).

(** [context.removeLabel] *)
Definition removeLabel (emailId label : string) : M DB Remote unit :=
  try_catch
    (r <- resolve emailId ;;
     let (email, uid) := r in
     console_log ("[ListenerContext] Removing label " ++ dquote ++ label
                  ++ dquote ++ " from email " ++ emailId
                  ++ " (UID: " ++ show_int uid ++ ")") ;;;
     await_imap (imap_removeLabel uid label (DatabaseManager.folder email)) ;;;
     (let currentLabels :=
        match DatabaseManager.labels email with
        | Some l => l
        | None => []
        end in
      write_db (db_updateEmailFlags emailId
                  (labels_update (without currentLabels label)))) ;;;
     console_log ("[ListenerContext] Removed label " ++ dquote ++ label
                  ++ dquote ++ " from email " ++ emailId))
    (fun error =>
       console_error ("[ListenerContext] Failed to remove label " ++ dquote ++ label
                      ++ dquote ++ " from email " ++ emailId ++ ":") (Some error) ;;;
       throw error).

End ContextOperations.

(** [s.startsWith(p)] and [s.endsWith(p)] *)
Definition startsWith (s p : string) : bool := String.prefix p s.

Definition endsWith (s p : string) : bool :=
  let n := String.length s in
  let m := String.length p in
  if (m <=? n)%nat then String.eqb (substring (n - m) m s) p else false.

(** The name of an event kind, as template literals print it. *)
Definition event_text (e : EventType) : string :=
  match e with
  | email_received => "email_received"
  | email_sent => "email_sent"
  | email_starred => "email_starred"
  | email_archived => "email_archived"
  | email_labeled => "email_labeled"
  | scheduled_time => "scheduled_time"
  end.

Section Manager.

Context {DB Remote : Type}.
Context {dbm : DatabaseManagerApi DB} {imap : ImapManagerApi Remote}.
Context (rt : DateApi) (clk : Store.Clock).
(** The payload of an event ([any] in the source). *)
Context (Data : Type).

Local Open Scope string_scope.

(** [interface ListenerContext] *)
Record ListenerContext : Type := {
  ctx_notify : string -> option NotifyOptions -> M DB Remote unit;
  ctx_archiveEmail : string -> M DB Remote unit;
  ctx_starEmail : string -> M DB Remote unit;
  ctx_unstarEmail : string -> M DB Remote unit;
  ctx_markAsRead : string -> M DB Remote unit;
  ctx_markAsUnread : string -> M DB Remote unit;
  ctx_addLabel : string -> string -> M DB Remote unit;
  ctx_removeLabel : string -> string -> M DB Remote unit;
  ctx_callAgent : forall T : Type, SubagentOptions -> M DB Remote T
}.

(** [interface ListenerModule] *)
Record ListenerModule : Type := {
  config : ListenerConfig;
  handler : Data -> ListenerContext -> M DB Remote unit
}.

(** [Map<string, ListenerModule>]: the entries in insertion order;
    setting a key that is present replaces its value in place. *)
Definition Registry : Type := list (string * ListenerModule).

Fixpoint map_set (key : string) (value : ListenerModule) (m : Registry)
  : Registry :=
  match m with
  | [] => [(key, value)]
  | (k, v) :: rest =>
      if String.eqb k key
      then (k, value) :: rest
      else (k, v) :: map_set key value rest
  end.

Definition map_get (key : string) (m : Registry) : option ListenerModule :=
  match find (fun kv => String.eqb (fst kv) key) m with
  | Some kv => Some (snd kv)
  | None => None
  end.

Definition map_values (m : Registry) : list ListenerModule := map snd m.

(** The fields of a [ListenersManager]; the notification callback is
    kept as whether the host supplied one, what it receives being
    collected in the world. *)
Record Manager : Type := {
  listeners : Registry;
  notificationCallback : bool;
  watcherActive : bool
}.

(** [options?.priority || "normal"] *)
Definition priority_of (options : option NotifyOptions) : Priority :=
  match options with
  | Some o =>
      match priority o with
      | Some p => p
      | None => normal
      end
  | None => normal
  end.

(** [context.notify] *)
Definition notify (this : Manager) (listenerConfig : ListenerConfig)
    (message : string) (options : option NotifyOptions) : M DB Remote unit :=
  console_log ("[ListenerContext] STUB notify() called by "
               ++ id listenerConfig ++ ":") ;;;
  if notificationCallback this
  then emit {| n_type := "listener_notification";
               n_listenerId := id listenerConfig;
               n_listenerName := name listenerConfig;
               n_priority := priority_of options;
               n_message := message;
               n_timestamp := toISOString rt (Store.Date_now clk) |}
  else ret tt.

(** [context.callAgent]: the stub always throws. *)
Definition callAgent (listenerConfig : ListenerConfig) (T : Type)
    (options : SubagentOptions) : M DB Remote T :=
  console_log ("[ListenerContext] STUB callAgent() called by "
               ++ id listenerConfig ++ ":") ;;;
  throw (mkError "callAgent() not yet implemented").

(** [createContext] *)
Definition createContext (this : Manager) (listenerConfig : ListenerConfig)
  : ListenerContext :=
  {| ctx_notify := notify this listenerConfig;
     ctx_archiveEmail := archiveEmail;
     ctx_starEmail := starEmail;
     ctx_unstarEmail := unstarEmail;
     ctx_markAsRead := markAsRead;
     ctx_markAsUnread := markAsUnread;
     ctx_addLabel := addLabel;
     ctx_removeLabel := removeLabel;
     ctx_callAgent := callAgent listenerConfig |}.

(** [for (const x of xs) { body x }] *)
Fixpoint for_of {A : Type} (xs : list A) (body : A -> M DB Remote unit)
  : M DB Remote unit :=
  match xs with
  | [] => ret tt
  | x :: rest => body x ;;; for_of rest body
  end.

(** The listeners that [checkEvent] selects for an event. *)
Definition matchingListeners (this : Manager) (event : EventType)
  : list ListenerModule :=
  filter (fun listener => event_eqb (Types.event (config listener)) event)
         (map_values (listeners this)).

(** The body of the loop of [checkEvent] for one listener. *)
Definition invoke (this : Manager) (data : Data) (listener : ListenerModule)
  : M DB Remote unit :=
  try_catch
    (let context := createContext this (config listener) in
     handler listener data context ;;;
     console_log ("[ListenersManager] " ++ id (config listener)
                  ++ " executed successfully"))
    (fun error =>
       console_error ("[ListenersManager] " ++ id (config listener)
                      ++ " failed:") (Some error)).

(** [checkEvent] *)
Definition checkEvent (this : Manager) (event : EventType) (data : Data)
  : M DB Remote unit :=
  match matchingListeners this event with
  | [] => ret tt
  | matching =>
      console_log ("[ListenersManager] Triggering "
                   ++ show_int (Z.of_nat (List.length matching))
                   ++ " listener(s) for event: " ++ event_text event) ;;;
      for_of matching (invoke this data)
  end.

(** [getAllListeners] and [getListener] *)
Definition getAllListeners (this : Manager) : list ListenerConfig :=
  map config (map_values (listeners this)).

Definition getListener (this : Manager) (id : string) : option ListenerModule :=
  map_get id (listeners this).

(** What the dynamic import of a listener file yields: the exported
    [config] and [handler], either of which may be missing. *)
Record ModuleExports : Type := {
  exp_config : option ListenerConfig;
  exp_handler : option (Data -> ListenerContext -> M DB Remote unit)
}.

(** The listeners directory as the loader meets it: the outcome of
    [readdir] and, per file name, of the dynamic import. *)
Record Directory : Type := {
  readdir : Outcome (list string);
  import_file : string -> Outcome ModuleExports
}.

Definition with_listeners (m : Registry) (this : Manager) : Manager :=
  {| listeners := m;
     notificationCallback := notificationCallback this;
     watcherActive := watcherActive this |}.

(** A line added to the console. *)
Definition say (out : list LogLine) (line : LogLine) : list LogLine :=
  (out ++ [line])%list.

(** [loadListener]; the loader's state is the manager and the console. *)
Definition loadListener (dir : Directory) (filename : string)
    (st : Manager * list LogLine) : Manager * list LogLine :=
  let (this, out) := st in
  match import_file dir filename with
  | Thrown error =>
      (this,
       say out (LogError ("[ListenersManager] Error loading listener "
                         ++ filename ++ ":") (Some error)))
  | Returned module =>
      match exp_config module, exp_handler module with
      | Some cfg, Some h =>
          if enabled cfg
          then (with_listeners
                  (map_set (id cfg) {| config := cfg; handler := h |}
                           (listeners this)) this,
                say out (Log ("[ListenersManager] Loaded listener: "
                             ++ id cfg ++ " (" ++ name cfg ++ ")")))
          else (this,
                say out (Log ("[ListenersManager] Skipped disabled listener: "
                             ++ id cfg)))
      | _, _ =>
          (this,
           say out (LogError ("[ListenersManager] Invalid listener " ++ filename
                             ++ ": missing config or handler") None))
      end
  end.

(** The test that [loadAllListeners] applies to a file name. *)
Definition is_listener_file (file : string) : bool :=
  endsWith file ".ts" && negb (startsWith file "_")
  && negb (startsWith file ".").

(** [loadAllListeners]: the configs returned, and the loader's state. *)
Definition loadAllListeners (dir : Directory) (st : Manager * list LogLine)
  : list ListenerConfig * (Manager * list LogLine) :=
  let (this0, out) := st in
  let this := with_listeners [] this0 in
  let st' :=
    match readdir dir with
    | Returned files =>
        let (this', out') :=
          fold_left
            (fun st file =>
               if is_listener_file file then loadListener dir file st else st)
            files (this, out) in
        (this',
         say out' (Log ("[ListenersManager] Loaded "
                       ++ show_int (Z.of_nat (List.length (listeners this')))
                       ++ " listener(s)")))
    | Thrown error =>
        (this,
         say out (LogError "[ListenersManager] Error loading listeners:"
                          (Some error)))
    end in
  (map config (map_values (listeners (fst st'))), st').

End Manager.

Arguments ListenerContext DB Remote : clear implicits.
Arguments ListenerModule DB Remote Data : clear implicits.
Arguments Registry DB Remote Data : clear implicits.
Arguments Manager DB Remote Data : clear implicits.
Arguments ModuleExports DB Remote Data : clear implicits.
Arguments Directory DB Remote Data : clear implicits.
Arguments config {DB Remote Data} l.
Arguments handler {DB Remote Data} l data context w.
Arguments listeners {DB Remote Data} m.
Arguments notificationCallback {DB Remote Data} m.
Arguments watcherActive {DB Remote Data} m.
Arguments exp_config {DB Remote Data} m.
Arguments exp_handler {DB Remote Data} m.
Arguments readdir {DB Remote Data} d.
Arguments import_file {DB Remote Data} d filename.
Arguments map_set {DB Remote Data} key value m.
Arguments map_get {DB Remote Data} key m.
Arguments map_values {DB Remote Data} m.
Arguments with_listeners {DB Remote Data} m this.
Arguments notify {DB Remote} rt clk {Data} this listenerConfig message options w.
Arguments callAgent {DB Remote} listenerConfig T options w.
Arguments createContext {DB Remote dbm imap} rt clk {Data} this listenerConfig.
Arguments matchingListeners {DB Remote Data} this event.
Arguments invoke {DB Remote dbm imap} rt clk {Data} this data listener w.
Arguments checkEvent {DB Remote dbm imap} rt clk {Data} this event data w.
Arguments getAllListeners {DB Remote Data} this.
Arguments getListener {DB Remote Data} this id.
Arguments loadListener {DB Remote Data} dir filename st.
Arguments loadAllListeners {DB Remote Data} dir st.

End ListenersManager.

(* ================================================================== *)
(** ** [EmailSyncService] ([database/email-sync.ts]) *)

Module EmailSyncService.

(** [interface SyncOptions] *)
Record SyncOptions : Type := {
  folder : option string;
  since : option Date;
  before : option Date;
  limit : option Z;
  markAsRead : option bool;
  from : option string;
  to : option string;
  subject : option string;
  hasAttachments : option bool;
  unreadOnly : option bool;
  starredOnly : option bool;
  searchText : option string;
  excludeFolders : option (list string);
  sizeMin : option Z;
  sizeMax : option Z
}.

(** [syncEmails()] with no argument: [options = {}]. *)
Definition default_options : SyncOptions :=
  {| folder := None; since := None; before := None; limit := None;
     markAsRead := None; from := None; to := None; subject := None;
     hasAttachments := None; unreadOnly := None; starredOnly := None;
     searchText := None; excludeFolders := None; sizeMin := None;
     sizeMax := None |}.

(** An element of the search criteria that [syncEmails] builds. *)
Inductive Criterion : Type :=
| SINCE (d : Date)
| BEFORE (d : Date)
| FROM (s : string)
| TO (s : string)
| SUBJECT (s : string)
| UNSEEN
| FLAGGED
| TEXT (s : string)
| LARGER (n : Z)
| SMALLER (n : Z).

(** A value that is one item or an array of items. *)
Inductive OneOrMany (A : Type) : Type :=
| Single (a : A)
| Several (l : list A).
Arguments Single {A} a.
Arguments Several {A} l.

(** [Array.isArray(x) ? x : [x]] *)
Definition to_array {A : Type} (x : OneOrMany A) : list A :=
  match x with
  | Single a => [a]
  | Several l => l
  end.

(** An entry of the [value] array of a parsed address header. *)
Record AddressEntry : Type := {
  ae_address : option string;
  ae_name : option string
}.

(** What [extractRecipients] distinguishes in an address header: an
    object, with or without a [value] array, or a string. *)
Inductive AddressItem : Type :=
| AddressObject (value : option (list AddressEntry))
| AddressString (s : string).

(** An attachment of the parsed message. *)
Record RawAttachment : Type := {
  ra_filename : option string;
  ra_contentType : option string;
  ra_size : option Z;
  ra_contentId : option string;
  ra_contentDisposition : option string
}.

(** The parsed message that [fetchEmail] resolves to, field by field as
    [syncEmails] reads it; [headers_json] is [JSON.stringify(headers ||
    {})]. *)
Record RawEmail : Type := {
  raw_messageId : option string;
  raw_threadId : option string;
  raw_references : option (OneOrMany string);
  raw_inReplyTo : option string;
  raw_date : option Date;
  raw_subject : option string;
  raw_from_text : option string;
  raw_replyTo_text : option string;
  raw_text : option string;
  raw_html : option string;
  raw_headers_json : string;
  raw_to : option (OneOrMany AddressItem);
  raw_cc : option (OneOrMany AddressItem);
  raw_bcc : option (OneOrMany AddressItem);
  raw_attachments : option (list RawAttachment)
}.

(** The [EmailSearcher] that the service owns, as the sync run meets it:
    the outcome of each of its calls. *)
Record EmailSearcher : Type := {
  connect : option Error;
  openFolder : string -> option Error;
  openInbox : option Error;
  searchEmails : list Criterion -> Outcome (list Z);
  fetchEmail : Z -> Outcome RawEmail
}.

(** The counters of a run. *)
Record Stats : Type := {
  synced : Z;
  skipped : Z;
  errors : Z
}.

(** The state a run works on: the store, and the [email_received]
    events handed to the listeners manager, oldest first. *)
Record State : Type := {
  database : Store.Database;
  dispatched : list Types.Email
}.

(** [{ address, name? }], an element of what [parseEmailAddress]
    returns. *)
Record ParsedAddress : Type := {
  pa_address : string;
  pa_name : option string
}.

(** [s.split(" ")[0]] *)
Fixpoint first_token (s : string) : string :=
  match s with
  | EmptyString => EmptyString
  | String c rest =>
      if Ascii.eqb c " "%char then EmptyString else String c (first_token rest)
  end.

(** [(rawEmail.attachments?.length || 0)] *)
Definition attachment_total (raw : RawEmail) : Z :=
  match raw_attachments raw with
  | Some l => Z.of_nat (List.length l)
  | None => 0
  end.

Section Service.

Context (rt : DateApi) (clk : Store.Clock).
(** [String.prototype.toLowerCase]. *)
Context (toLowerCase : string -> string).
(** [parseEmailAddress]: it splits its argument on commas and matches
    each part against a regular expression.  Nothing below depends on
    the addresses it finds, so it is left open. *)
Context (parseEmailAddress : string -> list ParsedAddress).
(** [d.setDate(d.getDate() - 30)], in local calendar time. *)
Context (thirtyDaysBefore : Date -> Date).
(** The searcher that the service owns. *)
Context (emailSearcher : EmailSearcher).
(** The optional listeners manager: the effect on the store of
    [await checkEvent('email_received', email)], which does not throw. *)
Context (listenersManager : option (Types.Email -> Store.Database -> Store.Database)).

(** One of the three blocks of [extractRecipients]. *)
Definition recipients_of (t : EmailDatabase.RecipientType) (emailId : Z)
    (field : option (OneOrMany AddressItem)) : list EmailDatabase.Recipient :=
  let truthy_field :=
    match field with
    | Some (Single (AddressString s)) => truthy_string s
    | Some _ => true
    | None => false
    end in
  match field with
  | Some x =>
      if truthy_field
      then
        flat_map
          (fun item =>
             match item with
             | AddressObject (Some value) =>
                 map (fun addr =>
                        {| EmailDatabase.rcp_email_id := emailId;
                           EmailDatabase.type := t;
                           EmailDatabase.address :=
                             or_else (option_map toLowerCase (ae_address addr))
                                     EmptyString;
                           EmailDatabase.name := ae_name addr |})
                     value
             | AddressObject None => []
             | AddressString text =>
                 map (fun addr =>
                        {| EmailDatabase.rcp_email_id := emailId;
                           EmailDatabase.type := t;
                           EmailDatabase.address := pa_address addr;
                           EmailDatabase.name := pa_name addr |})
                     (parseEmailAddress text)
             end)
          (to_array x)
      else []
  | None => []
  end.

(** [extractRecipients] *)
Definition extractRecipients (parsedEmail : RawEmail) (emailId : Z)
  : list EmailDatabase.Recipient :=
  recipients_of EmailDatabase.To emailId (raw_to parsedEmail)
  ++ recipients_of EmailDatabase.Cc emailId (raw_cc parsedEmail)
  ++ recipients_of EmailDatabase.Bcc emailId (raw_bcc parsedEmail).

(** [extractAttachments] *)
Definition extractAttachments (parsedEmail : RawEmail) (emailId : Z)
  : list EmailDatabase.Attachment :=
  match raw_attachments parsedEmail with
  | Some atts =>
      map (fun att =>
             {| EmailDatabase.att_email_id := emailId;
                EmailDatabase.filename := or_else (ra_filename att) "unnamed";
                EmailDatabase.content_type := ra_contentType att;
                EmailDatabase.att_size_bytes := Some (num_or (ra_size att) 0);
                EmailDatabase.content_id := ra_contentId att;
                EmailDatabase.is_inline :=
                  Some (match ra_contentDisposition att with
                        | Some d => String.eqb d "inline"
                        | None => false
                        end) |})
          atts
  | None => []
  end.

(** The search criteria that [syncEmails] assembles from its options. *)
Definition build_criteria (options : SyncOptions) : list Criterion :=
  [ match since options with
    | Some d => SINCE d
    | None => SINCE (thirtyDaysBefore (Store.Date_now clk))
    end ]
  ++ match before options with Some d => [BEFORE d] | None => [] end
  ++ (if truthy (from options) then [FROM (or_else (from options) EmptyString)] else [])
  ++ (if truthy (to options) then [TO (or_else (to options) EmptyString)] else [])
  ++ (if truthy (subject options)
      then [SUBJECT (or_else (subject options) EmptyString)] else [])
  ++ match unreadOnly options with Some true => [UNSEEN] | _ => [] end
  ++ match starredOnly options with Some true => [FLAGGED] | _ => [] end
  ++ (if truthy (searchText options)
      then [TEXT (or_else (searchText options) EmptyString)] else [])
  ++ match sizeMin options with
     | Some n => if truthy_num n then [LARGER n] else []
     | None => []
     end
  ++ match sizeMax options with
     | Some n => if truthy_num n then [SMALLER n] else []
     | None => []
     end.

(** The [emailRecord] literal of [syncEmails]. *)
Definition make_record (options : SyncOptions) (uid : Z) (rawEmail : RawEmail)
  : EmailDatabase.EmailRecord :=
  let fromParsed :=
    parseEmailAddress (or_else (raw_from_text rawEmail) EmptyString) in
  let fromAddress :=
    or_else (option_map pa_address (hd_error fromParsed)) "unknown@unknown.com" in
  let fromName :=
    match hd_error fromParsed with
    | Some a => pa_name a
    | None => None
    end in
  {| EmailDatabase.id := None;
     EmailDatabase.message_id :=
       or_else (raw_messageId rawEmail)
               (show_int uid ++ "-" ++ show_int (Store.Date_now clk))%string;
     EmailDatabase.imap_uid := Some uid;
     EmailDatabase.thread_id :=
       if truthy (raw_threadId rawEmail) then raw_threadId rawEmail
       else
         match raw_references rawEmail with
         | Some (Single text) => Some (first_token text)
         | Some (Several l) => hd_error l
         | None => None
         end;
     EmailDatabase.in_reply_to := raw_inReplyTo rawEmail;
     EmailDatabase.email_references :=
       match raw_references rawEmail with
       | Some (Several l) => Some (join " " l)
       | Some (Single text) => Some text
       | None => None
       end;
     EmailDatabase.date_sent :=
       IsString (match raw_date rawEmail with
                 | Some d => toISOString rt d
                 | None => toISOString rt (Store.Date_now clk)
                 end);
     EmailDatabase.date_received := None;
     EmailDatabase.subject := raw_subject rawEmail;
     EmailDatabase.from_address := fromAddress;
     EmailDatabase.from_name := fromName;
     EmailDatabase.reply_to := raw_replyTo_text rawEmail;
     EmailDatabase.body_text := raw_text rawEmail;
     EmailDatabase.body_html := raw_html rawEmail;
     EmailDatabase.snippet := option_map (substring0 200) (raw_text rawEmail);
     EmailDatabase.is_read :=
       Some (match markAsRead options with Some b => b | None => false end);
     EmailDatabase.is_starred := None;
     EmailDatabase.is_important := None;
     EmailDatabase.is_draft := None;
     EmailDatabase.is_sent := None;
     EmailDatabase.is_trash := None;
     EmailDatabase.is_spam := None;
     EmailDatabase.size_bytes := None;
     EmailDatabase.has_attachments := Some (0 <? attachment_total rawEmail);
     EmailDatabase.attachment_count := Some (attachment_total rawEmail);
     EmailDatabase.folder := Some (or_else (folder options) "INBOX");
     EmailDatabase.labels := None;
     EmailDatabase.raw_headers := Some (raw_headers_json rawEmail) |}.

(** [emailForListener] *)
Definition emailForListener (emailRecord : EmailDatabase.EmailRecord)
    (recipients : list EmailDatabase.Recipient) : Types.Email :=
  {| Types.messageId := EmailDatabase.message_id emailRecord;
     Types.from := EmailDatabase.from_address emailRecord;
     Types.to :=
       join ", "
         (map EmailDatabase.address
            (filter (fun r => match EmailDatabase.type r with
                              | EmailDatabase.To => true
                              | _ => false
                              end) recipients));
     Types.subject := or_else (EmailDatabase.subject emailRecord) EmptyString;
     Types.body := or_else (EmailDatabase.body_text emailRecord) EmptyString;
     Types.date := iso rt (EmailDatabase.date_sent emailRecord);
     Types.isRead :=
       match EmailDatabase.is_read emailRecord with
       | Some b => b
       | None => false
       end;
     Types.hasAttachments :=
       match EmailDatabase.has_attachments emailRecord with
       | Some b => b
       | None => false
       end;
     Types.labels := EmailDatabase.labels emailRecord;
     Types.uid := EmailDatabase.imap_uid emailRecord |}.

(** [SELECT id FROM emails WHERE message_id = ?] bound to
    [rawEmail.messageId]; an absent id is bound as NULL, which no row
    equals. *)
Definition existing (rawEmail : RawEmail) (db : Store.Database)
  : option Store.EmailRow :=
  match raw_messageId rawEmail with
  | Some m => Store.select_by_message_id m db
  | None => None
  end.

(** The post-fetch test on attachments: [true] when the message is to
    be skipped. *)
Definition filtered_out (options : SyncOptions) (rawEmail : RawEmail) : bool :=
  match hasAttachments options with
  | Some wanted => negb (Bool.eqb wanted (0 <? attachment_total rawEmail))
  | None => false
  end.

Definition count_synced (s : Stats) : Stats :=
  {| synced := synced s + 1; skipped := skipped s; errors := errors s |}.

Definition count_skipped (s : Stats) : Stats :=
  {| synced := synced s; skipped := skipped s + 1; errors := errors s |}.

Definition count_error (s : Stats) : Stats :=
  {| synced := synced s; skipped := skipped s; errors := errors s + 1 |}.

(** The body of the loop of [syncEmails] for one UID, with its
    [try]/[catch]. *)
Definition process (options : SyncOptions) (acc : Stats * State) (uid : Z)
  : Stats * State :=
  let (stats, st) := acc in
  match fetchEmail emailSearcher uid with
  | Thrown _ => (count_error stats, st)
  | Returned rawEmail =>
      match existing rawEmail (database st) with
      | Some _ => (count_skipped stats, st)
      | None =>
          if filtered_out options rawEmail
          then (count_skipped stats, st)
          else
            let emailRecord := make_record options uid rawEmail in
            let recipients := extractRecipients rawEmail 0 in
            let attachments := extractAttachments rawEmail 0 in
            match EmailDatabase.insertEmail rt clk emailRecord recipients
                    attachments (database st) with
            | (Thrown _, db') =>
                (count_error stats,
                 {| database := db'; dispatched := dispatched st |})
            | (Returned _, db') =>
                match listenersManager with
                | Some checkEvent =>
                    let email := emailForListener emailRecord recipients in
                    (count_synced stats,
                     {| database := checkEvent email db';
                        dispatched := dispatched st ++ [email] |})
                | None =>
                    (count_synced stats,
                     {| database := db'; dispatched := dispatched st |})
                end
            end
      end
  end.

(** [uids.slice(0, options.limit || uids.length)] *)
Definition uidsToProcess (options : SyncOptions) (uids : list Z) : list Z :=
  slice0 (num_or (limit options) (Z.of_nat (List.length uids))) uids.

(** [syncEmails].  The outer [catch] rethrows; [finally] disconnects,
    which touches neither the store nor the counters. *)
Definition syncEmails (options : SyncOptions) (st : State)
  : Outcome Stats * State :=
  let stats := {| synced := 0; skipped := 0; errors := 0 |} in
  match connect emailSearcher with
  | Some error => (Thrown error, st)
  | None =>
      let opened :=
        match folder options with
        | Some f =>
            if truthy_string f && negb (String.eqb f "INBOX")
            then openFolder emailSearcher f
            else openInbox emailSearcher
        | None => openInbox emailSearcher
        end in
      match opened with
      | Some error => (Thrown error, st)
      | None =>
          match searchEmails emailSearcher (build_criteria options) with
          | Thrown error => (Thrown error, st)
          | Returned uids =>
              let (stats', st') :=
                fold_left (process options) (uidsToProcess options uids)
                          (stats, st) in
              (Returned stats', st')
          end
      end
  end.

End Service.

End EmailSyncService.

(* ================================================================== *)
(** ** The managers as they are wired together, and sample data *)

Module Wiring.

(** The [DatabaseManager] above, seen through the interface that the
    listeners manager calls. *)
Definition databaseManager (rt : DateApi) (clk : Store.Clock)
  : ListenersManager.DatabaseManagerApi Store.Database :=
  {| ListenersManager.db_getEmailByMessageId :=
       DatabaseManager.getEmailByMessageId rt;
     ListenersManager.db_updateEmailFlags :=
       DatabaseManager.updateEmailFlags clk |}.

(** The listeners manager as the sync service meets it: what
    [checkEvent('email_received', email)] does to the store, over the
    shipped database manager and a remote mailbox in a given state. *)
Definition listenersManager {Remote : Type}
    (imap : ListenersManager.ImapManagerApi Remote) (rt : DateApi)
    (clk : Store.Clock)
    (manager : ListenersManager.Manager Store.Database Remote Types.Email)
    (mailbox : Remote) : Types.Email -> Store.Database -> Store.Database :=
  fun email db =>
    ListenersManager.db
      (snd (ListenersManager.checkEvent (dbm := databaseManager rt clk)
              rt clk manager Types.email_received email
              {| ListenersManager.db := db;
                 ListenersManager.remote := mailbox;
                 ListenersManager.notifications := [];
                 ListenersManager.console := [] |})).

End Wiring.

Module Sample.

Definition rt : DateApi :=
  {| toISOString := fun d => ("iso:" ++ show_int d)%string;
     newDate := fun _ => 0 |}.

Definition clk : Store.Clock :=
  {| Store.Date_now := 1000; Store.CURRENT_TIMESTAMP := "2025-01-01 00:00:00" |}.

Definition later : Store.Clock :=
  {| Store.Date_now := 2000; Store.CURRENT_TIMESTAMP := "2025-06-01 00:00:00" |}.

(** [n] copies of a character. *)
Fixpoint copies (n : nat) (c : ascii) : string :=
  match n with
  | O => EmptyString
  | S k => String c (copies k c)
  end.

(** A record for [upsertEmail] with the given message-id, snippet, body
    and labels, and nothing else of note. *)
Definition record (messageId : string) (snippet bodyText : option string)
    (labels : option (list string)) : DatabaseManager.EmailRecord :=
  {| DatabaseManager.id := None;
     DatabaseManager.messageId := messageId;
     DatabaseManager.imapUid := None;
     DatabaseManager.threadId := None;
     DatabaseManager.inReplyTo := None;
     DatabaseManager.emailReferences := None;
     DatabaseManager.dateSent := IsString "2025-01-01T00:00:00.000Z";
     DatabaseManager.dateReceived := None;
     DatabaseManager.subject := Some "hello";
     DatabaseManager.fromAddress := "news@noreply.site";
     DatabaseManager.fromName := None;
     DatabaseManager.toAddresses := Some "me@example.com";
     DatabaseManager.ccAddresses := None;
     DatabaseManager.bccAddresses := None;
     DatabaseManager.replyTo := None;
     DatabaseManager.bodyText := bodyText;
     DatabaseManager.bodyHtml := None;
     DatabaseManager.snippet := snippet;
     DatabaseManager.isRead := false;
     DatabaseManager.isStarred := false;
     DatabaseManager.isImportant := false;
     DatabaseManager.isDraft := false;
     DatabaseManager.isSent := false;
     DatabaseManager.isTrash := false;
     DatabaseManager.isSpam := false;
     DatabaseManager.sizeBytes := 0;
     DatabaseManager.hasAttachments := false;
     DatabaseManager.attachmentCount := 0;
     DatabaseManager.folder := "INBOX";
     DatabaseManager.labels := labels;
     DatabaseManager.rawHeaders := None |}.

Definition pdf : DatabaseManager.Attachment :=
  {| DatabaseManager.emailId := None;
     DatabaseManager.filename := "report.pdf";
     DatabaseManager.contentType := Some "application/pdf";
     DatabaseManager.att_sizeBytes := Some 1024;
     DatabaseManager.contentId := None;
     DatabaseManager.isInline := Some false |}.

(** A store holding the message [<a@x>] with one attachment. *)
Definition with_attachment : Store.Database :=
  fst (DatabaseManager.upsertEmail rt clk
         (record "<a@x>" None (Some "body") None) [pdf] Store.empty).

(** A store holding the message [<a@x>] without attachments. *)
Definition one_message : Store.Database :=
  fst (DatabaseManager.upsertEmail rt clk
         (record "<a@x>" None (Some "body") None) [] Store.empty).

(** Search criteria of the scenario "search precedence". *)
Definition gmail_and_from : ImapManager.SearchCriteria :=
  {| ImapManager.query := None;
     ImapManager.from := Some (ImapManager.One "boss@");
     ImapManager.to := None; ImapManager.subject := None;
     ImapManager.dateRange := None; ImapManager.hasAttachments := None;
     ImapManager.isUnread := None; ImapManager.isStarred := None;
     ImapManager.folder := None; ImapManager.folders := None;
     ImapManager.labels := None; ImapManager.threadId := None;
     ImapManager.limit := None; ImapManager.offset := None;
     ImapManager.minSize := None; ImapManager.maxSize := None;
     ImapManager.gmailQuery := Some "is:unread from:me" |}.

(** The same criteria with an empty [gmailQuery]. *)
Definition empty_gmail_and_from : ImapManager.SearchCriteria :=
  {| ImapManager.query := None;
     ImapManager.from := Some (ImapManager.One "boss@");
     ImapManager.to := None; ImapManager.subject := None;
     ImapManager.dateRange := None; ImapManager.hasAttachments := None;
     ImapManager.isUnread := None; ImapManager.isStarred := None;
     ImapManager.folder := None; ImapManager.folders := None;
     ImapManager.labels := None; ImapManager.threadId := None;
     ImapManager.limit := None; ImapManager.offset := None;
     ImapManager.minSize := None; ImapManager.maxSize := None;
     ImapManager.gmailQuery := Some EmptyString |}.

(** A parsed message with the given Message-ID and text, and nothing
    else of note. *)
Definition raw (messageId text : option string) : EmailSyncService.RawEmail :=
  {| EmailSyncService.raw_messageId := messageId;
     EmailSyncService.raw_threadId := None;
     EmailSyncService.raw_references := None;
     EmailSyncService.raw_inReplyTo := None;
     EmailSyncService.raw_date := Some 500;
     EmailSyncService.raw_subject := Some "hello";
     EmailSyncService.raw_from_text := Some "news@noreply.site";
     EmailSyncService.raw_replyTo_text := None;
     EmailSyncService.raw_text := text;
     EmailSyncService.raw_html := None;
     EmailSyncService.raw_headers_json := "{}";
     EmailSyncService.raw_to := None;
     EmailSyncService.raw_cc := None;
     EmailSyncService.raw_bcc := None;
     EmailSyncService.raw_attachments := None |}.

(** A searcher that connects, finds the given UIDs for every search and
    answers fetches as told. *)
Definition searcher (uids : list Z)
    (fetch : Z -> Outcome EmailSyncService.RawEmail)
  : EmailSyncService.EmailSearcher :=
  {| EmailSyncService.connect := None;
     EmailSyncService.openFolder := fun _ => None;
     EmailSyncService.openInbox := None;
     EmailSyncService.searchEmails := fun _ => Returned uids;
     EmailSyncService.fetchEmail := fetch |}.

(** A mailbox with one message, UID 7, carrying the Message-ID [<a@x>]. *)
Definition one_with_id : EmailSyncService.EmailSearcher :=
  searcher [7]
    (fun uid =>
       if uid =? 7 then Returned (raw (Some "<a@x>") (Some "body"))
       else Thrown (mkError "No email data received")).

(** A mailbox with one message, UID 7, that has no Message-ID header. *)
Definition one_without_id : EmailSyncService.EmailSearcher :=
  searcher [7]
    (fun uid =>
       if uid =? 7 then Returned (raw None (Some "body"))
       else Thrown (mkError "No email data received")).

(** Stand-ins for the runtime's [toLowerCase] and date arithmetic, and an
    address parser that reads the whole text as one address. *)
Definition lower (s : string) : string := s.

Definition parse (s : string) : list EmailSyncService.ParsedAddress :=
  [ {| EmailSyncService.pa_address := s; EmailSyncService.pa_name := None |} ].

Definition thirty_days_before (d : Date) : Date := d - 2592000000.

Definition fresh : EmailSyncService.State :=
  {| EmailSyncService.database := Store.empty;
     EmailSyncService.dispatched := [] |}.

(** [syncEmails] with the stand-ins above and no listeners manager. *)
Definition sync (clk : Store.Clock) (mailbox : EmailSyncService.EmailSearcher)
    (options : EmailSyncService.SyncOptions) (st : EmailSyncService.State)
  : Outcome EmailSyncService.Stats * EmailSyncService.State :=
  EmailSyncService.syncEmails rt clk lower parse thirty_days_before mailbox None
    options st.

(** [{ limit: n }] *)
Definition with_limit (n : option Z) : EmailSyncService.SyncOptions :=
  {| EmailSyncService.folder := None; EmailSyncService.since := None;
     EmailSyncService.before := None; EmailSyncService.limit := n;
     EmailSyncService.markAsRead := None; EmailSyncService.from := None;
     EmailSyncService.to := None; EmailSyncService.subject := None;
     EmailSyncService.hasAttachments := None;
     EmailSyncService.unreadOnly := None;
     EmailSyncService.starredOnly := None;
     EmailSyncService.searchText := None;
     EmailSyncService.excludeFolders := None;
     EmailSyncService.sizeMin := None; EmailSyncService.sizeMax := None |}.

(** A remote mailbox without state that accepts every command. *)
Definition accepting : ListenersManager.ImapManagerApi unit :=
  {| ListenersManager.imap_markAsRead := fun _ _ r => (None, r);
     ListenersManager.imap_markAsUnread := fun _ _ r => (None, r);
     ListenersManager.imap_starEmail := fun _ _ r => (None, r);
     ListenersManager.imap_unstarEmail := fun _ _ r => (None, r);
     ListenersManager.imap_archiveEmail := fun _ _ r => (None, r);
     ListenersManager.imap_addLabel := fun _ _ _ r => (None, r);
     ListenersManager.imap_removeLabel := fun _ _ _ r => (None, r) |}.

(** A record for [insertEmail] with the UID 7 and the given labels. *)
Definition synced_record (messageId : string) (labels : option (list string))
  : EmailDatabase.EmailRecord :=
  {| EmailDatabase.id := None;
     EmailDatabase.message_id := messageId;
     EmailDatabase.imap_uid := Some 7;
     EmailDatabase.thread_id := None;
     EmailDatabase.in_reply_to := None;
     EmailDatabase.email_references := None;
     EmailDatabase.date_sent := IsString "2025-01-01T00:00:00.000Z";
     EmailDatabase.date_received := None;
     EmailDatabase.subject := Some "hello";
     EmailDatabase.from_address := "boss@company.com";
     EmailDatabase.from_name := None;
     EmailDatabase.reply_to := None;
     EmailDatabase.body_text := Some "body";
     EmailDatabase.body_html := None;
     EmailDatabase.snippet := None;
     EmailDatabase.is_read := None;
     EmailDatabase.is_starred := None;
     EmailDatabase.is_important := None;
     EmailDatabase.is_draft := None;
     EmailDatabase.is_sent := None;
     EmailDatabase.is_trash := None;
     EmailDatabase.is_spam := None;
     EmailDatabase.size_bytes := None;
     EmailDatabase.has_attachments := None;
     EmailDatabase.attachment_count := None;
     EmailDatabase.folder := Some "INBOX";
     EmailDatabase.labels := labels;
     EmailDatabase.raw_headers := None |}.

(** A store holding the message [<a@x>], with UID 7 and the given
    labels. *)
Definition labelled (labels : list string) : Store.Database :=
  snd (EmailDatabase.insertEmail rt clk (synced_record "<a@x>" (Some labels))
         [] [] Store.empty).

(** The world of a listener run over a store, with a quiet console. *)
Definition world (db : Store.Database) : ListenersManager.World Store.Database unit :=
  {| ListenersManager.db := db;
     ListenersManager.remote := tt;
     ListenersManager.notifications := [];
     ListenersManager.console := [] |}.

(** Listener modules over the sample world, with emails as payloads. *)
Definition SampleContext : Type := ListenersManager.ListenerContext Store.Database unit.
Definition SampleHandler : Type :=
  Types.Email -> SampleContext -> ListenersManager.M Store.Database unit unit.
Definition SampleModule : Type :=
  ListenersManager.ListenerModule Store.Database unit Types.Email.

Definition cfg (id : string) (enabled : bool) : Types.ListenerConfig :=
  {| Types.id := id; Types.name := id; Types.description := None;
     Types.enabled := enabled; Types.event := Types.email_received |}.

(** A handler that does nothing, one that throws, and one that notifies. *)
Definition quiet : SampleHandler := fun _ _ => ListenersManager.ret tt.

Definition throwing : SampleHandler :=
  fun _ _ => ListenersManager.throw (mkError "boom").

Definition notifying : SampleHandler :=
  fun email context =>
    ListenersManager.ctx_notify context (Types.subject email) None.

Definition exports (c : Types.ListenerConfig) (h : SampleHandler)
  : ListenersManager.ModuleExports Store.Database unit Types.Email :=
  {| ListenersManager.exp_config := Some c;
     ListenersManager.exp_handler := Some h |}.

(** A listeners directory: two good listeners, a draft and a hidden
    file, a note, a file whose import throws, a file without a handler
    and a disabled listener. *)
Definition directory : ListenersManager.Directory Store.Database unit Types.Email :=
  {| ListenersManager.readdir :=
       Returned ["urgent.ts"; "_draft.ts"; ".hidden.ts"; "notes.md";
                 "broken.ts"; "half.ts"; "off.ts"; "archive.ts"];
     ListenersManager.import_file :=
       fun file =>
         if String.eqb file "broken.ts" then Thrown (mkError "SyntaxError")
         else if String.eqb file "half.ts"
         then Returned {| ListenersManager.exp_config := Some (cfg "half" true);
                          ListenersManager.exp_handler := None |}
         else if String.eqb file "off.ts"
         then Returned (exports (cfg "off" false) quiet)
         else if String.eqb file "archive.ts"
         then Returned (exports (cfg "auto_archive_newsletters" true) quiet)
         else Returned (exports (cfg "boss_urgent_watcher" true) notifying) |}.

(** A directory with two listener files that export the same id. *)
Definition twins : ListenersManager.Directory Store.Database unit Types.Email :=
  {| ListenersManager.readdir := Returned ["a.ts"; "b.ts"];
     ListenersManager.import_file :=
       fun file =>
         if String.eqb file "a.ts"
         then Returned (exports (cfg "dup" true) quiet)
         else Returned (exports (cfg "dup" true) notifying) |}.

(** A manager that has loaded nothing yet. *)
Definition idle : ListenersManager.Manager Store.Database unit Types.Email :=
  {| ListenersManager.listeners := [];
     ListenersManager.notificationCallback := true;
     ListenersManager.watcherActive := false |}.

(** A manager with two listeners on [email_received]: the first throws,
    the second notifies. *)
Definition two_listeners : ListenersManager.Manager Store.Database unit Types.Email :=
  {| ListenersManager.listeners :=
       [ ("L1", {| ListenersManager.config := cfg "L1" true;
                   ListenersManager.handler := throwing |});
         ("L2", {| ListenersManager.config := cfg "L2" true;
                   ListenersManager.handler := notifying |}) ];
     ListenersManager.notificationCallback := true;
     ListenersManager.watcherActive := false |}.

Definition message : Types.Email :=
  {| Types.messageId := "<a@x>"; Types.from := "boss@company.com";
     Types.to := "me@example.com"; Types.subject := "outage";
     Types.body := "body"; Types.date := "2025-01-01T00:00:00.000Z";
     Types.isRead := false; Types.hasAttachments := false;
     Types.labels := None; Types.uid := Some 7 |}.

(** A remote mailbox that rejects every command. *)
Definition refusing : ListenersManager.ImapManagerApi unit :=
  {| ListenersManager.imap_markAsRead := fun _ _ r => (Some (mkError "NO"), r);
     ListenersManager.imap_markAsUnread := fun _ _ r => (Some (mkError "NO"), r);
     ListenersManager.imap_starEmail := fun _ _ r => (Some (mkError "NO"), r);
     ListenersManager.imap_unstarEmail := fun _ _ r => (Some (mkError "NO"), r);
     ListenersManager.imap_archiveEmail := fun _ _ r => (Some (mkError "NO"), r);
     ListenersManager.imap_addLabel := fun _ _ _ r => (Some (mkError "NO"), r);
     ListenersManager.imap_removeLabel := fun _ _ _ r => (Some (mkError "NO"), r) |}.

(** A test double for the database manager: it keeps the records
    themselves, UID included, and applies an update to their fields. *)
Definition apply_updates (u : DatabaseManager.FlagUpdates)
    (e : DatabaseManager.EmailRecord) : DatabaseManager.EmailRecord :=
  {| DatabaseManager.id := DatabaseManager.id e;
     DatabaseManager.messageId := DatabaseManager.messageId e;
     DatabaseManager.imapUid := DatabaseManager.imapUid e;
     DatabaseManager.threadId := DatabaseManager.threadId e;
     DatabaseManager.inReplyTo := DatabaseManager.inReplyTo e;
     DatabaseManager.emailReferences := DatabaseManager.emailReferences e;
     DatabaseManager.dateSent := DatabaseManager.dateSent e;
     DatabaseManager.dateReceived := DatabaseManager.dateReceived e;
     DatabaseManager.subject := DatabaseManager.subject e;
     DatabaseManager.fromAddress := DatabaseManager.fromAddress e;
     DatabaseManager.fromName := DatabaseManager.fromName e;
     DatabaseManager.toAddresses := DatabaseManager.toAddresses e;
     DatabaseManager.ccAddresses := DatabaseManager.ccAddresses e;
     DatabaseManager.bccAddresses := DatabaseManager.bccAddresses e;
     DatabaseManager.replyTo := DatabaseManager.replyTo e;
     DatabaseManager.bodyText := DatabaseManager.bodyText e;
     DatabaseManager.bodyHtml := DatabaseManager.bodyHtml e;
     DatabaseManager.snippet := DatabaseManager.snippet e;
     DatabaseManager.isRead :=
       match DatabaseManager.u_isRead u with
       | Some b => b
       | None => DatabaseManager.isRead e
       end;
     DatabaseManager.isStarred :=
       match DatabaseManager.u_isStarred u with
       | Some b => b
       | None => DatabaseManager.isStarred e
       end;
     DatabaseManager.isImportant :=
       match DatabaseManager.u_isImportant u with
       | Some b => b
       | None => DatabaseManager.isImportant e
       end;
     DatabaseManager.isDraft := DatabaseManager.isDraft e;
     DatabaseManager.isSent := DatabaseManager.isSent e;
     DatabaseManager.isTrash := DatabaseManager.isTrash e;
     DatabaseManager.isSpam := DatabaseManager.isSpam e;
     DatabaseManager.sizeBytes := DatabaseManager.sizeBytes e;
     DatabaseManager.hasAttachments := DatabaseManager.hasAttachments e;
     DatabaseManager.attachmentCount := DatabaseManager.attachmentCount e;
     DatabaseManager.folder :=
       match DatabaseManager.u_folder u with
       | Some f => f
       | None => DatabaseManager.folder e
       end;
     DatabaseManager.labels :=
       match DatabaseManager.u_labels u with
       | Some l => Some l
       | None => DatabaseManager.labels e
       end;
     DatabaseManager.rawHeaders := DatabaseManager.rawHeaders e |}.

Definition in_memory
  : ListenersManager.DatabaseManagerApi (list DatabaseManager.EmailRecord) :=
  {| ListenersManager.db_getEmailByMessageId :=
       fun emailId db =>
         find (fun e => String.eqb (DatabaseManager.messageId e) emailId) db;
     ListenersManager.db_updateEmailFlags :=
       fun emailId u db =>
         map (fun e =>
                if String.eqb (DatabaseManager.messageId e) emailId
                then apply_updates u e else e) db |}.

(** The record [<a@x>] with the UID 7 and the given labels, as a store of
    the test double, and the world over it. *)
Definition known (labels : list string) : list DatabaseManager.EmailRecord :=
  [ apply_updates
      {| DatabaseManager.u_isRead := None; DatabaseManager.u_isStarred := None;
         DatabaseManager.u_isImportant := None;
         DatabaseManager.u_labels := Some labels;
         DatabaseManager.u_folder := None |}
      (DatabaseManager.mapRowToEmailRecord rt
         (EmailDatabase.inserted_row rt clk (synced_record "<a@x>" None) [] 1)) ].

Definition with_uid (uid : Z) (e : DatabaseManager.EmailRecord)
  : DatabaseManager.EmailRecord :=
  {| DatabaseManager.id := DatabaseManager.id e;
     DatabaseManager.messageId := DatabaseManager.messageId e;
     DatabaseManager.imapUid := Some uid;
     DatabaseManager.threadId := DatabaseManager.threadId e;
     DatabaseManager.inReplyTo := DatabaseManager.inReplyTo e;
     DatabaseManager.emailReferences := DatabaseManager.emailReferences e;
     DatabaseManager.dateSent := DatabaseManager.dateSent e;
     DatabaseManager.dateReceived := DatabaseManager.dateReceived e;
     DatabaseManager.subject := DatabaseManager.subject e;
     DatabaseManager.fromAddress := DatabaseManager.fromAddress e;
     DatabaseManager.fromName := DatabaseManager.fromName e;
     DatabaseManager.toAddresses := DatabaseManager.toAddresses e;
     DatabaseManager.ccAddresses := DatabaseManager.ccAddresses e;
     DatabaseManager.bccAddresses := DatabaseManager.bccAddresses e;
     DatabaseManager.replyTo := DatabaseManager.replyTo e;
     DatabaseManager.bodyText := DatabaseManager.bodyText e;
     DatabaseManager.bodyHtml := DatabaseManager.bodyHtml e;
     DatabaseManager.snippet := DatabaseManager.snippet e;
     DatabaseManager.isRead := DatabaseManager.isRead e;
     DatabaseManager.isStarred := DatabaseManager.isStarred e;
     DatabaseManager.isImportant := DatabaseManager.isImportant e;
     DatabaseManager.isDraft := DatabaseManager.isDraft e;
     DatabaseManager.isSent := DatabaseManager.isSent e;
     DatabaseManager.isTrash := DatabaseManager.isTrash e;
     DatabaseManager.isSpam := DatabaseManager.isSpam e;
     DatabaseManager.sizeBytes := DatabaseManager.sizeBytes e;
     DatabaseManager.hasAttachments := DatabaseManager.hasAttachments e;
     DatabaseManager.attachmentCount := DatabaseManager.attachmentCount e;
     DatabaseManager.folder := DatabaseManager.folder e;
     DatabaseManager.labels := DatabaseManager.labels e;
     DatabaseManager.rawHeaders := DatabaseManager.rawHeaders e |}.

Definition memory_world (labels : list string)
  : ListenersManager.World (list DatabaseManager.EmailRecord) unit :=
  {| ListenersManager.db := map (with_uid 7) (known labels);
     ListenersManager.remote := tt;
     ListenersManager.notifications := [];
     ListenersManager.console := [] |}.

(** The manager with two listeners, as the sync service meets it. *)
Definition dispatcher : Types.Email -> Store.Database -> Store.Database :=
  Wiring.listenersManager accepting rt later two_listeners tt.

(** [syncEmails] with the stand-ins above and that manager. *)
Definition sync_and_dispatch (clk : Store.Clock)
    (mailbox : EmailSyncService.EmailSearcher)
    (options : EmailSyncService.SyncOptions) (st : EmailSyncService.State)
  : Outcome EmailSyncService.Stats * EmailSyncService.State :=
  EmailSyncService.syncEmails rt clk lower parse thirty_days_before mailbox
    (Some dispatcher) options st.

End Sample.

(* ================================================================== *)
(** ** Predicates used to state the properties *)

Module Spec.

(** The length of a stored snippet; NULL counts as empty. *)
Definition snippet_length (o : option string) : nat :=
  match o with
  | Some text => String.length text
  | None => 0
  end.

(** Every column that [updateEmailFlags] can never assign is the same in
    [r] and [r']. *)
Definition unchanged_outside_flags (r r' : Store.EmailRow) : Prop :=
  Store.id r' = Store.id r
  /\ Store.message_id r' = Store.message_id r
  /\ Store.imap_uid r' = Store.imap_uid r
  /\ Store.thread_id r' = Store.thread_id r
  /\ Store.in_reply_to r' = Store.in_reply_to r
  /\ Store.email_references r' = Store.email_references r
  /\ Store.date_sent r' = Store.date_sent r
  /\ Store.date_received r' = Store.date_received r
  /\ Store.subject r' = Store.subject r
  /\ Store.from_address r' = Store.from_address r
  /\ Store.from_name r' = Store.from_name r
  /\ Store.to_addresses r' = Store.to_addresses r
  /\ Store.cc_addresses r' = Store.cc_addresses r
  /\ Store.bcc_addresses r' = Store.bcc_addresses r
  /\ Store.reply_to r' = Store.reply_to r
  /\ Store.body_text r' = Store.body_text r
  /\ Store.body_html r' = Store.body_html r
  /\ Store.snippet r' = Store.snippet r
  /\ Store.is_draft r' = Store.is_draft r
  /\ Store.is_sent r' = Store.is_sent r
  /\ Store.is_trash r' = Store.is_trash r
  /\ Store.is_spam r' = Store.is_spam r
  /\ Store.size_bytes r' = Store.size_bytes r
  /\ Store.has_attachments r' = Store.has_attachments r
  /\ Store.attachment_count r' = Store.attachment_count r
  /\ Store.raw_headers r' = Store.raw_headers r
  /\ Store.created_at r' = Store.created_at r.

(** A column of [r'] holds the provided value, or what [r] held when
    none was provided. *)
Definition assigned {A B : Type} (provided : option A) (value : A -> B)
    (old new : B) : Prop :=
  match provided with
  | Some a => new = value a
  | None => new = old
  end.

(** The five columns that [updateEmailFlags] can assign hold in [r']
    what the update set provides, and [updated_at] is the current time. *)
Definition flags_applied (clk : Store.Clock)
    (updates : DatabaseManager.FlagUpdates) (r r' : Store.EmailRow) : Prop :=
  assigned (DatabaseManager.u_isRead updates) bit
           (Store.is_read r) (Store.is_read r')
  /\ assigned (DatabaseManager.u_isStarred updates) bit
              (Store.is_starred r) (Store.is_starred r')
  /\ assigned (DatabaseManager.u_isImportant updates) bit
              (Store.is_important r) (Store.is_important r')
  /\ assigned (DatabaseManager.u_labels updates) Some
              (Store.labels r) (Store.labels r')
  /\ assigned (DatabaseManager.u_folder updates) (fun f => f)
              (Store.folder r) (Store.folder r')
  /\ Store.updated_at r' = Store.CURRENT_TIMESTAMP clk.

(** The options with [limit] removed. *)
Definition without_limit (o : EmailSyncService.SyncOptions)
  : EmailSyncService.SyncOptions :=
  {| EmailSyncService.folder := EmailSyncService.folder o;
     EmailSyncService.since := EmailSyncService.since o;
     EmailSyncService.before := EmailSyncService.before o;
     EmailSyncService.limit := None;
     EmailSyncService.markAsRead := EmailSyncService.markAsRead o;
     EmailSyncService.from := EmailSyncService.from o;
     EmailSyncService.to := EmailSyncService.to o;
     EmailSyncService.subject := EmailSyncService.subject o;
     EmailSyncService.hasAttachments := EmailSyncService.hasAttachments o;
     EmailSyncService.unreadOnly := EmailSyncService.unreadOnly o;
     EmailSyncService.starredOnly := EmailSyncService.starredOnly o;
     EmailSyncService.searchText := EmailSyncService.searchText o;
     EmailSyncService.excludeFolders := EmailSyncService.excludeFolders o;
     EmailSyncService.sizeMin := EmailSyncService.sizeMin o;
     EmailSyncService.sizeMax := EmailSyncService.sizeMax o |}.

(** The messages a run has counted. *)
Definition total (s : EmailSyncService.Stats) : Z :=
  EmailSyncService.synced s + EmailSyncService.skipped s
  + EmailSyncService.errors s.

(** Whether the store holds a row with the message-id [m]. *)
Definition stored (m : string) (db : Store.Database) : bool :=
  match Store.select_by_message_id m db with
  | Some _ => true
  | None => false
  end.

(** Whether the fetch of a UID fails. *)
Definition fetch_fails (mailbox : EmailSyncService.EmailSearcher) (uid : Z) : bool :=
  match EmailSyncService.fetchEmail mailbox uid with
  | Thrown _ => true
  | Returned _ => false
  end.

(** A UID is settled in a state when taking it up again cannot store
    anything: its fetch fails, its message-id is stored, or the
    attachment filter rejects it. *)
Definition settled (mailbox : EmailSyncService.EmailSearcher)
    (options : EmailSyncService.SyncOptions) (st : EmailSyncService.State)
    (uid : Z) : Prop :=
  match EmailSyncService.fetchEmail mailbox uid with
  | Thrown _ => True
  | Returned rawEmail =>
      exists m,
        EmailSyncService.raw_messageId rawEmail = Some m
        /\ (stored m (EmailSyncService.database st) = true
            \/ EmailSyncService.filtered_out options rawEmail = true)
  end.

(** The number of UIDs of a list whose fetch fails. *)
Definition failures (mailbox : EmailSyncService.EmailSearcher) (uids : list Z) : Z :=
  Z.of_nat (List.length (filter (fetch_fails mailbox) uids)).

(** Every message-id stored in [st] is stored in [st']. *)
Definition grows (st st' : EmailSyncService.State) : Prop :=
  forall m,
    stored m (EmailSyncService.database st) = true ->
    stored m (EmailSyncService.database st') = true.

End Spec.

(* ================================================================== *)
(** ** The contract of the context and of the dispatcher, for reference *)

Module Contract.

Import Types.
Import ListenersManager.

(** The email operations of the context. *)
Inductive Operation : Type :=
| Archive
| Star
| Unstar
| MarkRead
| MarkUnread
| AddLabel (label : string)
| RemoveLabel (label : string).

(** [email.labels || []] *)
Definition current_labels (email : DatabaseManager.EmailRecord) : list string :=
  match DatabaseManager.labels email with
  | Some l => l
  | None => []
  end.

(** An update that sets one column. *)
Definition folder_update (f : string) : DatabaseManager.FlagUpdates :=
  {| DatabaseManager.u_isRead := None; DatabaseManager.u_isStarred := None;
     DatabaseManager.u_isImportant := None; DatabaseManager.u_labels := None;
     DatabaseManager.u_folder := Some f |}.

Definition starred_update (b : bool) : DatabaseManager.FlagUpdates :=
  {| DatabaseManager.u_isRead := None; DatabaseManager.u_isStarred := Some b;
     DatabaseManager.u_isImportant := None; DatabaseManager.u_labels := None;
     DatabaseManager.u_folder := None |}.

Definition read_update (b : bool) : DatabaseManager.FlagUpdates :=
  {| DatabaseManager.u_isRead := Some b; DatabaseManager.u_isStarred := None;
     DatabaseManager.u_isImportant := None; DatabaseManager.u_labels := None;
     DatabaseManager.u_folder := None |}.

Section Operations.

Context {DB Remote : Type}.
Context {dbm : DatabaseManagerApi DB} {imap : ImapManagerApi Remote}.

(** The closure of the context that carries out an operation. *)
Definition perform (op : Operation) (emailId : string) : M DB Remote unit :=
  match op with
  | Archive => archiveEmail emailId
  | Star => starEmail emailId
  | Unstar => unstarEmail emailId
  | MarkRead => markAsRead emailId
  | MarkUnread => markAsUnread emailId
  | AddLabel label => addLabel emailId label
  | RemoveLabel label => removeLabel emailId label
  end.

(** The remote action of an operation (second column of the table of
    context operations). *)
Definition remote_action (op : Operation) (uid : Z) (folder : string)
  : Remote -> option Error * Remote :=
  match op with
  | Archive => imap_archiveEmail uid folder
  | Star => imap_starEmail uid folder
  | Unstar => imap_unstarEmail uid folder
  | MarkRead => imap_markAsRead uid folder
  | MarkUnread => imap_markAsUnread uid folder
  | AddLabel label => imap_addLabel uid label folder
  | RemoveLabel label => imap_removeLabel uid label folder
  end.

(** The local mutation of an operation (third column of the table), for
    the email that the lookup returned. *)
Definition local_mutation (op : Operation) (email : DatabaseManager.EmailRecord)
    (emailId : string) : DB -> DB :=
  match op with
  | Archive => db_updateEmailFlags emailId (folder_update "[Gmail]/All Mail")
  | Star => db_updateEmailFlags emailId (starred_update true)
  | Unstar => db_updateEmailFlags emailId (starred_update false)
  | MarkRead => db_updateEmailFlags emailId (read_update true)
  | MarkUnread => db_updateEmailFlags emailId (read_update false)
  | AddLabel label =>
      if includes (current_labels email) label
      then fun db => db
      else db_updateEmailFlags emailId
             (labels_update (current_labels email ++ [label]))
  | RemoveLabel label =>
      db_updateEmailFlags emailId
        (labels_update (without (current_labels email) label))
  end.

(** The UID that an operation works with: present and not 0. *)
Definition usable_uid (email : DatabaseManager.EmailRecord) : option Z :=
  match DatabaseManager.imapUid email with
  | Some uid => if truthy_num uid then Some uid else None
  | None => None
  end.

(** The world after [n] calls of [addLabel(emailId, label)], whatever
    each of them returned or threw. *)
Fixpoint after_addLabel (n : nat) (emailId label : string) (w : World DB Remote)
  : World DB Remote :=
  match n with
  | O => w
  | S k => after_addLabel k emailId label (snd (addLabel emailId label w))
  end.

Context (rt : DateApi) (clk : Store.Clock) (Data : Type).

(** What the dispatcher leaves behind for one listener: the world that
    the handler, called with a context made for this listener, left,
    with one more console line that tells whether it threw. *)
Definition after_handler (this : Manager DB Remote Data) (data : Data)
    (listener : ListenerModule DB Remote Data) (w : World DB Remote) : World DB Remote :=
  match handler listener data (createContext rt clk this (config listener)) w with
  | (Returned _, w') =>
      {| db := db w'; remote := remote w'; notifications := notifications w';
         console :=
           console w'
           ++ [Log ("[ListenersManager] " ++ id (config listener)
                    ++ " executed successfully")%string] |}
  | (Thrown error, w') =>
      {| db := db w'; remote := remote w'; notifications := notifications w';
         console :=
           console w'
           ++ [LogError ("[ListenersManager] " ++ id (config listener)
                         ++ " failed:")%string (Some error)] |}
  end.

(** The console line that announces a dispatch; nothing is printed when
    no listener matches. *)
Definition announced (this : Manager DB Remote Data) (event : EventType)
    (w : World DB Remote) : World DB Remote :=
  match matchingListeners this event with
  | [] => w
  | matching =>
      {| db := db w; remote := remote w; notifications := notifications w;
         console :=
           console w
           ++ [Log ("[ListenersManager] Triggering "
                    ++ show_int (Z.of_nat (List.length matching))
                    ++ " listener(s) for event: " ++ event_text event)%string] |}
  end.

(** The modules that a directory listing contributes, in order: one per
    file whose name passes the test, whose import succeeds and exports a
    config and a handler, and whose config is enabled. *)
Definition qualifying (dir : Directory DB Remote Data) (files : list string)
  : list (ListenerModule DB Remote Data) :=
  flat_map
    (fun file =>
       if is_listener_file file
       then
         match import_file dir file with
         | Returned module =>
             match exp_config module, exp_handler module with
             | Some cfg, Some h =>
                 if enabled cfg
                 then [ {| config := cfg; handler := h |} ]
                 else []
             | _, _ => []
             end
         | Thrown _ => []
         end
       else [])
    files.

End Operations.

End Contract.

(* ================================================================== *)
(** ** [EmailSyncService]: [syncNewEmails] and [handleIdleNewEmails] *)

Module SyncEntryPoints.



(** [{ folder, limit: count + 5, since: new Date(Date.now() - 60000) }] *)
Definition idle_options (clk : Store.Clock) (count : Z) (folder : string)
  : EmailSyncService.SyncOptions :=
  {| EmailSyncService.folder := Some folder;
     EmailSyncService.since := Some (Store.Date_now clk - 60000);
     EmailSyncService.before := None;
     EmailSyncService.limit := Some (count + 5);
     EmailSyncService.markAsRead := None; EmailSyncService.from := None;
     EmailSyncService.to := None; EmailSyncService.subject := None;
     EmailSyncService.hasAttachments := None;
     EmailSyncService.unreadOnly := None;
     EmailSyncService.starredOnly := None;
     EmailSyncService.searchText := None;
     EmailSyncService.excludeFolders := None;
     EmailSyncService.sizeMin := None; EmailSyncService.sizeMax := None |}.

Section Service.

Context (rt : DateApi) (clk : Store.Clock).
Context (toLowerCase : string -> string).
Context (parseEmailAddress : string -> list EmailSyncService.ParsedAddress).
Context (thirtyDaysBefore : Date -> Date).
Context (emailSearcher : EmailSyncService.EmailSearcher).
Context (listenersManager : option (Types.Email -> Store.Database -> Store.Database)).



(** [handleIdleNewEmails]: what it prints itself (without the
    pictographs that open the source texts), and the state it leaves.  A
    folder that is not given is INBOX.  The [catch] swallows whatever the
    run throws. *)
Definition handleIdleNewEmails (count : Z) (folder : option string)
    (st : EmailSyncService.State)
  : list ListenersManager.LogLine * EmailSyncService.State :=
  let folder := match folder with Some f => f | None => "INBOX" end in
  let announced :=
    ListenersManager.Log
      ("Handling " ++ show_int count
       ++ " new email(s) from IDLE notification in folder: " ++ folder)%string in
  match EmailSyncService.syncEmails rt clk toLowerCase parseEmailAddress
          thirtyDaysBefore emailSearcher listenersManager
          (idle_options clk count folder) st with
  | (Returned result, st') =>
      ([announced;
        ListenersManager.Log
          ("IDLE sync complete: "
           ++ show_int (EmailSyncService.synced result)
           ++ " new email(s) synced")%string],
       st')
  | (Thrown error, st') =>
      ([announced;
        ListenersManager.LogError "Error syncing emails from IDLE:" (Some error)],
       st')
  end.

End Service.

End SyncEntryPoints.

(* ================================================================== *)
(** ** [ListenersManager]: [getStats] and [watchListeners] *)

Module ListenersWatch.

Import Types.
Import ListenersManager.

(** [Record<string, number>], keyed by the name of an event kind: the
    properties in the order in which they were first assigned. *)
Definition Counts : Type := list (EventType * Z).

(** [acc[event]] *)
Definition count_of (event : EventType) (acc : Counts) : option Z :=
  match find (fun kv => event_eqb (fst kv) event) acc with
  | Some kv => Some (snd kv)
  | None => None
  end.

(** [acc[event] = (acc[event] || 0) + 1] *)
Fixpoint bump (event : EventType) (acc : Counts) : Counts :=
  match acc with
  | [] => [(event, 0 + 1)]
  | (k, n) :: rest =>
      if event_eqb k event
      then (k, num_or (Some n) 0 + 1) :: rest
      else (k, n) :: bump event rest
  end.

(** What [getStats] returns. *)
Record Stats : Type := {
  total : Z;
  byEvent : Counts;
  enabled : Z
}.

(** What [fs.watch] reports for one change. *)
Record FileChange : Type := {
  eventType : string;
  filename : option string
}.

Section Manager.

Context {DB Remote Data : Type}.

(** [getStats] *)
Definition getStats (this : Manager DB Remote Data) : Stats :=
  let listeners := map_values (listeners this) in
  {| total := Z.of_nat (List.length (ListenersManager.listeners this));
     byEvent :=
       fold_left (fun acc listener => bump (event (config listener)) acc)
                 listeners [];
     enabled :=
       Z.of_nat
         (List.length
            (filter (fun l => Types.enabled (config l)) listeners)) |}.

Definition with_watcher (active : bool) (this : Manager DB Remote Data)
  : Manager DB Remote Data :=
  {| listeners := listeners this;
     notificationCallback := notificationCallback this;
     watcherActive := active |}.

(** The state of a watcher run: the manager, the console and the
    arguments of the calls of [onChange] so far. *)
Definition WatchState : Type :=
  (Manager DB Remote Data * list LogLine * list (list ListenerConfig))%type.

(** The body of the loop of [watchListeners] for one change, [dir] being
    the directory as the reload that the change triggers finds it. *)
Definition on_change (dir : Directory DB Remote Data) (change : FileChange)
    (st : WatchState) : WatchState :=
  let '(this, out, calls) := st in
  let out1 :=
    say out (Log ("[ListenersManager] File " ++ eventType change ++ ": "
                  ++ match filename change with
                     | Some name => name
                     | None => "null"
                     end)%string) in
  match filename change with
  | Some name =>
      if endsWith name ".ts"
      then
        let out2 := say out1 (Log "[ListenersManager] Reloading listeners...") in
        let (configs, st') := loadAllListeners dir (this, out2) in
        (fst st', snd st', (calls ++ [configs])%list)
      else (this, out1, calls)
  | None => (this, out1, calls)
  end.

(** [watchListeners], run over the changes that the watcher reports
    until it fails with [failure] or, when there is none, as far as the
    given changes go.  [listenersDir] is the path of the directory. *)
Definition watchListeners (listenersDir : string)
    (changes : list (FileChange * Directory DB Remote Data))
    (failure : option Error) (st : WatchState) : WatchState :=
  let '(this, out, calls) := st in
  if watcherActive this
  then (this, say out (Log "[ListenersManager] File watcher already active"),
        calls)
  else
    let started :=
      (with_watcher true this,
       say out (Log ("[ListenersManager] Watching " ++ listenersDir
                     ++ " for changes...")%string),
       calls) in
    let '(this', out', calls') :=
      fold_left (fun st change => on_change (snd change) (fst change) st)
                changes started in
    match failure with
    | None => (this', out', calls')
    | Some error =>
        (with_watcher false this',
         say out' (LogError "[ListenersManager] Error watching listeners:"
                            (Some error)),
         calls')
    end.

End Manager.

End ListenersWatch.

(* ================================================================== *)
(** ** The queries of [DatabaseManager] and [EmailDatabase] by key,
       by folder and by thread *)

Module Queries.










Section WithRuntime.

Context (rt : DateApi).




End WithRuntime.


End Queries.

(* ================================================================== *)
(** ** [ImapManager]: fetching and searching ([imap-manager.ts]) *)

Module ImapSearch.

(** The parsed message that [fetchEmail] resolves to, field by field as
    [parseEmailToRecord] reads it; [p_headers_json] is
    [JSON.stringify(parsed.headers)]. *)
Record ParsedMail : Type := {
  p_messageId : option string;
  p_threadId : option string;
  p_inReplyTo : option string;
  p_references : option (EmailSyncService.OneOrMany string);
  p_date : option Date;
  p_subject : option string;
  p_from : option (EmailSyncService.OneOrMany EmailSyncService.AddressItem);
  p_to : option (EmailSyncService.OneOrMany EmailSyncService.AddressItem);
  p_cc : option (EmailSyncService.OneOrMany EmailSyncService.AddressItem);
  p_bcc : option (EmailSyncService.OneOrMany EmailSyncService.AddressItem);
  p_replyTo : option (EmailSyncService.OneOrMany EmailSyncService.AddressItem);
  p_text : option string;
  p_html : option string;
  p_attachments : option (list EmailSyncService.RawAttachment);
  p_headers_json : option string
}.

(** The server as a search meets it: the outcome of connecting, of
    opening a mailbox, of a search in the mailbox that is open and of the
    fetch of a UID from it ([true] for headers only). *)
Record Server : Type := {
  ensureConnection : option Error;
  openMailbox : string -> option Error;
  searchMailbox : string -> list ImapManager.Term -> Outcome (list Z);
  fetchEmail : string -> Z -> bool -> Outcome ParsedMail
}.

(** [Map<number, any>]: the entries in insertion order; setting a key
    that is present replaces its value in place. *)
Definition UidMap : Type := list (Z * ParsedMail).

Fixpoint uid_set (key : Z) (value : ParsedMail) (m : UidMap) : UidMap :=
  match m with
  | [] => [(key, value)]
  | (k, v) :: rest =>
      if k =? key then (k, value) :: rest else (k, v) :: uid_set key value rest
  end.

Definition uid_get (key : Z) (m : UidMap) : option ParsedMail :=
  match find (fun kv => fst kv =? key) m with
  | Some kv => Some (snd kv)
  | None => None
  end.

(** [field?.value]: the [value] array of an address header that is one
    address object; an array of objects and a string have none. *)
Definition value_of
    (field : option (EmailSyncService.OneOrMany EmailSyncService.AddressItem))
  : option (list EmailSyncService.AddressEntry) :=
  match field with
  | Some (EmailSyncService.Single (EmailSyncService.AddressObject value)) => value
  | _ => None
  end.

(** [field?.value?.map(addr => addr.address).join(", ") || ""]; [join]
    prints an absent address as the empty text. *)
Definition addresses_of
    (field : option (EmailSyncService.OneOrMany EmailSyncService.AddressItem))
  : string :=
  match value_of field with
  | Some value =>
      join ", "
        (map (fun addr =>
                match EmailSyncService.ae_address addr with
                | Some a => a
                | None => EmptyString
                end) value)
  | None => EmptyString
  end.

(** [field?.value?.[0]] *)
Definition first_of
    (field : option (EmailSyncService.OneOrMany EmailSyncService.AddressItem))
  : option EmailSyncService.AddressEntry :=
  match value_of field with
  | Some value => hd_error value
  | None => None
  end.

(** The attachment literals that [parseEmailToRecord] and [searchEmails]
    build from [parsed.attachments]. *)
Definition attachments_of (parsed : ParsedMail) : list DatabaseManager.Attachment :=
  match p_attachments parsed with
  | Some atts =>
      map (fun att =>
             {| DatabaseManager.emailId := None;
                DatabaseManager.filename :=
                  or_else (EmailSyncService.ra_filename att) "unnamed";
                DatabaseManager.contentType := EmailSyncService.ra_contentType att;
                DatabaseManager.att_sizeBytes := EmailSyncService.ra_size att;
                DatabaseManager.contentId := EmailSyncService.ra_contentId att;
                DatabaseManager.isInline :=
                  Some (match EmailSyncService.ra_contentDisposition att with
                        | Some d => String.eqb d "inline"
                        | None => false
                        end) |})
          atts
  | None => []
  end.

(** [a || b] on optional strings, where [b] may be absent too. *)
Definition or_option (a b : option string) : option string :=
  if truthy a then a else b.

(** [uids.slice(start)]: a negative [start] counts from the end. *)
Definition slice_from {A : Type} (start : Z) (xs : list A) : list A :=
  if start <? 0
  then skipn (Z.to_nat (Z.max 0 (Z.of_nat (List.length xs) + start))) xs
  else skipn (Z.to_nat start) xs.

Section WithRuntime.

Context (clk : Store.Clock).

(** [parseEmailToRecord] *)
Definition parseEmailToRecord (parsed : ParsedMail) (uid : Z) (folder : string)
  : DatabaseManager.EmailRecord :=
  let attachments := attachments_of parsed in
  {| DatabaseManager.id := None;
     DatabaseManager.messageId :=
       or_else (p_messageId parsed)
               (show_int uid ++ "-" ++ show_int (Store.Date_now clk))%string;
     DatabaseManager.imapUid := None;
     DatabaseManager.threadId := or_option (p_threadId parsed) (p_inReplyTo parsed);
     DatabaseManager.inReplyTo := p_inReplyTo parsed;
     DatabaseManager.emailReferences :=
       match p_references parsed with
       | Some (EmailSyncService.Several l) => Some (join " " l)
       | Some (EmailSyncService.Single text) => Some text
       | None => None
       end;
     DatabaseManager.dateSent :=
       IsDate (match p_date parsed with
               | Some d => d
               | None => Store.Date_now clk
               end);
     DatabaseManager.dateReceived := None;
     DatabaseManager.subject := Some (or_else (p_subject parsed) EmptyString);
     DatabaseManager.fromAddress :=
       or_else (match first_of (p_from parsed) with
                | Some addr => EmailSyncService.ae_address addr
                | None => None
                end) EmptyString;
     DatabaseManager.fromName :=
       Some (or_else (match first_of (p_from parsed) with
                      | Some addr => EmailSyncService.ae_name addr
                      | None => None
                      end) EmptyString);
     DatabaseManager.toAddresses := Some (addresses_of (p_to parsed));
     DatabaseManager.ccAddresses := Some (addresses_of (p_cc parsed));
     DatabaseManager.bccAddresses := Some (addresses_of (p_bcc parsed));
     DatabaseManager.replyTo :=
       match first_of (p_replyTo parsed) with
       | Some addr => EmailSyncService.ae_address addr
       | None => None
       end;
     DatabaseManager.bodyText := Some (or_else (p_text parsed) EmptyString);
     DatabaseManager.bodyHtml := Some (or_else (p_html parsed) EmptyString);
     DatabaseManager.snippet :=
       Some (substring0 200 (or_else (p_text parsed) EmptyString));
     DatabaseManager.isRead := false;
     DatabaseManager.isStarred := false;
     DatabaseManager.isImportant := false;
     DatabaseManager.isDraft := false;
     DatabaseManager.isSent :=
       String.eqb folder "Sent" || String.eqb folder "[Gmail]/Sent Mail";
     DatabaseManager.isTrash :=
       String.eqb folder "Trash" || String.eqb folder "[Gmail]/Trash";
     DatabaseManager.isSpam :=
       String.eqb folder "Spam" || String.eqb folder "[Gmail]/Spam";
     DatabaseManager.sizeBytes := 0;
     DatabaseManager.hasAttachments := (0 <? Z.of_nat (List.length attachments));
     DatabaseManager.attachmentCount := Z.of_nat (List.length attachments);
     DatabaseManager.folder := folder;
     DatabaseManager.labels := Some [];
     DatabaseManager.rawHeaders := p_headers_json parsed |}.

Context (server : Server).

(** The body of [batch.map]: the fetch of one UID in the open mailbox,
    with its [catch]. *)
Definition fetch_one (folder : string) (headersOnly : bool) (uid : Z)
  : Z * option ParsedMail :=
  match fetchEmail server folder uid headersOnly with
  | Returned parsed => (uid, Some parsed)
  | Thrown _ => (uid, None)
  end.

(** [if (parsed) results.set(uid, parsed)] *)
Definition collect (results : UidMap) (r : Z * option ParsedMail) : UidMap :=
  match snd r with
  | Some parsed => uid_set (fst r) parsed results
  | None => results
  end.

(** The loop of [fetchEmailsBatch] from index [i] on.  With a positive
    batch size it runs at most [uids.length] times, which is the bound
    [fuel] that [fetchEmailsBatch] gives it. *)
Fixpoint batch_loop (fuel : nat) (folder : string) (headersOnly : bool)
    (size i : nat) (uids : list Z) (results : UidMap) : UidMap :=
  match fuel with
  | O => results
  | S fuel' =>
      if (i <? List.length uids)%nat
      then
        let batch := firstn size (skipn i uids) in
        let batchResults := map (fetch_one folder headersOnly) batch in
        batch_loop fuel' folder headersOnly size (i + size) uids
          (fold_left collect batchResults results)
      else results
  end.

(** [fetchEmailsBatch], for a positive batch size; [folder] is the
    mailbox that is open. *)
Definition fetchEmailsBatch (folder : string) (uids : list Z)
    (headersOnly : bool) (batchSize : nat) : UidMap :=
  let effectiveBatchSize := if headersOnly then 30%nat else batchSize in
  batch_loop (List.length uids) folder headersOnly effectiveBatchSize 0 uids [].

(** An element of what [searchEmails] returns. *)
Definition Found : Type :=
  (DatabaseManager.EmailRecord * list DatabaseManager.Attachment)%type.

(** The loop over the fetched UIDs of one folder, with its [break]. *)
Fixpoint process_uids (folder : string) (headersOnly : bool) (limit : Z)
    (parsedEmails : UidMap) (uids : list Z) (allEmails : list Found)
  : list Found :=
  match uids with
  | [] => allEmails
  | uid :: rest =>
      match uid_get uid parsedEmails with
      | None => process_uids folder headersOnly limit parsedEmails rest allEmails
      | Some parsed =>
          let email := parseEmailToRecord parsed uid folder in
          let attachments :=
            if headersOnly then [] else attachments_of parsed in
          let allEmails' := allEmails ++ [(email, attachments)] in
          if limit <=? Z.of_nat (List.length allEmails')
          then allEmails'
          else process_uids folder headersOnly limit parsedEmails rest allEmails'
      end
  end.

(** The loop over the folders, with its [try]/[catch], [continue] and
    [break]. *)
Fixpoint search_folders (criteria : ImapManager.SearchCriteria)
    (headersOnly : bool) (limit : Z) (folders : list string)
    (allEmails : list Found) : list Found :=
  match folders with
  | [] => allEmails
  | folder :: rest =>
      match openMailbox server folder with
      | Some _ => search_folders criteria headersOnly limit rest allEmails
      | None =>
          match searchMailbox server folder
                  (ImapManager.buildImapSearchCriteria criteria) with
          | Thrown _ => search_folders criteria headersOnly limit rest allEmails
          | Returned [] =>
              search_folders criteria headersOnly limit rest allEmails
          | Returned uids =>
              let limitedUids :=
                rev (slice_from
                       (- Z.min limit (Z.of_nat (List.length uids))) uids) in
              let parsedEmails :=
                fetchEmailsBatch folder limitedUids headersOnly 10 in
              let allEmails' :=
                process_uids folder headersOnly limit parsedEmails limitedUids
                  allEmails in
              if limit <=? Z.of_nat (List.length allEmails')
              then allEmails'
              else search_folders criteria headersOnly limit rest allEmails'
          end
      end
  end.

(** [criteria.folders || [criteria.folder || "INBOX"]] *)
Definition folders_of (criteria : ImapManager.SearchCriteria) : list string :=
  match ImapManager.folders criteria with
  | Some folders => folders
  | None => [or_else (ImapManager.folder criteria) "INBOX"]
  end.

(** [searchEmails] *)
Definition searchEmails (criteria : ImapManager.SearchCriteria)
    (headersOnly : bool) : Outcome (list Found) :=
  match ensureConnection server with
  | Some error => Thrown error
  | None =>
      Returned
        (search_folders criteria headersOnly
           (num_or (ImapManager.limit criteria) 30)
           (folders_of criteria) [])
  end.

(** [searchEmailsHeadersOnly] *)
Definition searchEmailsHeadersOnly (criteria : ImapManager.SearchCriteria)
  : Outcome (list Found) :=
  searchEmails criteria true.

(** [syncEmails]: a search over a date range, with a limit of 1000. *)
Definition syncEmails (dateRange : ImapManager.DateRange)
    (folders : option (list string)) : Outcome (list Found) :=
  searchEmails
    {| ImapManager.query := None; ImapManager.from := None;
       ImapManager.to := None; ImapManager.subject := None;
       ImapManager.dateRange := Some dateRange;
       ImapManager.hasAttachments := None; ImapManager.isUnread := None;
       ImapManager.isStarred := None; ImapManager.folder := None;
       ImapManager.folders :=
         Some match folders with
              | Some l => l
              | None => ["INBOX"; "[Gmail]/Sent Mail"; "[Gmail]/All Mail"]
              end;
       ImapManager.labels := None; ImapManager.threadId := None;
       ImapManager.limit := Some 1000; ImapManager.offset := None;
       ImapManager.minSize := None; ImapManager.maxSize := None;
       ImapManager.gmailQuery := None |}
    false.

End WithRuntime.

End ImapSearch.

(* ================================================================== *)
(** ** The listeners that ship with the agent
       ([agent/custom_scripts/listeners]) *)

Module Listeners.

Import Types.
Import ListenersManager.

(** [s.includes(part)] on strings. *)
Definition includes (s part : string) : bool :=
  match String.index 0 part s with
  | Some _ => true
  | None => false
  end.

(** A line break, and a text between double quotes. *)
Definition nl : string := String (ascii_of_nat 10) EmptyString.

Definition quoted (s : string) : string := (dquote ++ s ++ dquote)%string.

(** [{ priority: p }] *)
Definition with_priority (p : Priority) : option NotifyOptions :=
  Some {| priority := Some p |}.

(** The JSON text of a schema property of type string with an [enum]. *)
Definition enum_property (name : string) (values : list string) : string :=
  (quoted name ++ ":{" ++ quoted "type" ++ ":" ++ quoted "string" ++ ","
   ++ quoted "enum" ++ ":[" ++ join "," (map quoted values) ++ "]}")%string.

Definition typed_property (name type : string) : string :=
  (quoted name ++ ":{" ++ quoted "type" ++ ":" ++ quoted type ++ "}")%string.

(** The JSON text of an object schema. *)
Definition object_schema (properties required : list string) : string :=
  ("{" ++ quoted "type" ++ ":" ++ quoted "object" ++ ","
   ++ quoted "properties" ++ ":{" ++ join "," properties ++ "},"
   ++ quoted "required" ++ ":[" ++ join "," (map quoted required) ++ "]}")%string.

(** [example-listener.ts] *)
Module ExampleListener.

Definition config : ListenerConfig :=
  {| id := "example_listener";
     name := "Example Email Listener";
     description :=
       Some "Demonstrates listener structure - logs info about received emails";
     enabled := true;
     event := email_received |}.

Definition handler {DB Remote : Type} (toLowerCase : string -> string)
    (email : Email) (context : ListenerContext DB Remote) : M DB Remote unit :=
  if negb (includes (from email) "example.com") then ret tt
  else
    let subject := toLowerCase (Types.subject email) in
    (if includes subject "urgent" || includes subject "important"
     then
       ctx_notify context
         ("Important email received: " ++ Types.subject email)%string
         (with_priority high) ;;;
       ctx_starEmail context (messageId email)
     else ret tt) ;;;
    (if includes subject "newsletter"
     then
       ctx_archiveEmail context (messageId email) ;;;
       ctx_markAsRead context (messageId email)
     else ret tt).

End ExampleListener.

(** The template [auto_archive_newsletters] *)
Module AutoArchiveNewsletters.

Definition config : ListenerConfig :=
  {| id := "auto_archive_newsletters";
     name := "Auto-Archive Newsletters";
     description :=
       Some "Automatically archives newsletters and promotional emails";
     enabled := true;
     event := email_received |}.

(** [isNewsletter] *)
Definition isNewsletter (toLowerCase : string -> string) (email : Email) : bool :=
  let from := toLowerCase (Types.from email) in
  let subject := toLowerCase (Types.subject email) in
  includes from "newsletter"
  || includes from "noreply"
  || includes from "no-reply"
  || includes from "notifications"
  || includes subject "unsubscribe"
  || includes subject "newsletter".

Definition handler {DB Remote : Type} (toLowerCase : string -> string)
    (email : Email) (context : ListenerContext DB Remote) : M DB Remote unit :=
  if negb (isNewsletter toLowerCase email) then ret tt
  else
    try_catch
      (ctx_archiveEmail context (messageId email) ;;;
       ctx_markAsRead context (messageId email) ;;;
       ctx_notify context
         ("Auto-archived newsletter: " ++ quoted (Types.subject email))%string
         (with_priority low))
      (fun error => console_error "Failed to archive email:" (Some error)).

End AutoArchiveNewsletters.

(** The template [boss_urgent_watcher] *)
Module BossUrgentWatcher.

Definition config : ListenerConfig :=
  {| id := "boss_urgent_watcher";
     name := "Boss Urgent Email Watcher";
     description := Some "Uses AI to detect urgent emails from boss";
     enabled := true;
     event := email_received |}.

(** [interface UrgencyAnalysis] *)
Record UrgencyAnalysis : Type := {
  isUrgent : bool;
  priority : Priority;
  reason : string;
  requiresImmediateAction : bool
}.

Definition prompt (email : Email) : string :=
  join nl
    [ "Analyze this email for urgency and time-sensitivity:";
      EmptyString;
      ("From: " ++ from email)%string;
      ("Subject: " ++ subject email)%string;
      ("Body: " ++ substring0 1000 (body email))%string;
      EmptyString;
      "Determine:";
      ("1. Is this truly urgent? (Consider context, not just keywords like "
       ++ quoted "urgent" ++ " or " ++ quoted "ASAP" ++ ")")%string;
      "2. What priority level? (high/normal/low)";
      "3. Brief reason for your assessment";
      "4. Does it require immediate action?";
      EmptyString;
      ("Be discerning - not every email with " ++ quoted "important"
       ++ " is actually urgent.")%string ].

Definition schema : string :=
  object_schema
    [ typed_property "isUrgent" "boolean";
      enum_property "priority" ["high"; "normal"; "low"];
      typed_property "reason" "string";
      typed_property "requiresImmediateAction" "boolean" ]
    ["isUrgent"; "priority"; "reason"; "requiresImmediateAction"].

Definition handler {DB Remote : Type}
    (email : Email) (context : ListenerContext DB Remote) : M DB Remote unit :=
  if negb (includes (from email) "boss@company.com") then ret tt
  else
    analysis <- ctx_callAgent context UrgencyAnalysis
                  {| Types.prompt := prompt email;
                     Types.schema := schema;
                     model := Some haiku |} ;;
    if negb (isUrgent analysis) then ret tt
    else
      ctx_notify context
        ("Urgent email from boss: " ++ quoted (subject email) ++ nl
         ++ reason analysis)%string
        (with_priority (priority analysis)) ;;;
      if requiresImmediateAction analysis
      then ctx_starEmail context (messageId email)
      else ret tt.

End BossUrgentWatcher.

(** The template [smart_classifier] *)
Module SmartClassifier.

Definition config : ListenerConfig :=
  {| id := "smart_classifier";
     name := "AI Email Classifier";
     description :=
       Some "Uses Claude to classify and categorize emails intelligently";
     enabled := true;
     event := email_received |}.

Inductive Category : Type := urgent | newsletter | personal | work | spam.

Inductive Action : Type := archive | star | label | none.

(** [interface ClassificationResult] *)
Record ClassificationResult : Type := {
  category : Category;
  priority : Priority;
  suggestedAction : Action;
  reasoning : string;
  suggestedLabels : option (list string)
}.

(** [category.toUpperCase()] *)
Definition category_upper (c : Category) : string :=
  match c with
  | urgent => "URGENT"
  | newsletter => "NEWSLETTER"
  | personal => "PERSONAL"
  | work => "WORK"
  | spam => "SPAM"
  end.

Definition prompt (email : Email) : string :=
  join nl
    [ "Classify this email and suggest actions:";
      EmptyString;
      ("From: " ++ from email)%string;
      ("Subject: " ++ subject email)%string;
      ("Body: " ++ substring0 500 (body email))%string;
      EmptyString;
      "Analyze the email and provide:";
      "1. Category (urgent/newsletter/personal/work/spam)";
      "2. Priority level (high/normal/low)";
      "3. Suggested action (archive/star/label/none)";
      "4. Brief reasoning for your classification";
      "5. Any suggested Gmail labels" ].

Definition schema : string :=
  object_schema
    [ enum_property "category"
        ["urgent"; "newsletter"; "personal"; "work"; "spam"];
      enum_property "priority" ["high"; "normal"; "low"];
      enum_property "suggestedAction" ["archive"; "star"; "label"; "none"];
      typed_property "reasoning" "string";
      (quoted "suggestedLabels" ++ ":{" ++ quoted "type" ++ ":" ++ quoted "array"
       ++ "," ++ quoted "items" ++ ":{" ++ quoted "type" ++ ":"
       ++ quoted "string" ++ "}}")%string ]
    ["category"; "priority"; "suggestedAction"; "reasoning"].

Definition handler {DB Remote : Type}
    (email : Email) (context : ListenerContext DB Remote) : M DB Remote unit :=
  classification <- ctx_callAgent context ClassificationResult
                      {| Types.prompt := prompt email;
                         Types.schema := schema;
                         model := Some haiku |} ;;
  match category classification with
  | spam =>
      ctx_archiveEmail context (messageId email) ;;;
      ctx_addLabel context (messageId email) "spam"
  | _ =>
      (match suggestedAction classification with
       | star => ctx_starEmail context (messageId email)
       | _ => ret tt
       end) ;;;
      (match suggestedAction classification with
       | archive => ctx_archiveEmail context (messageId email)
       | _ => ret tt
       end) ;;;
      (match suggestedLabels classification with
       | Some labels =>
           for_of labels (fun label => ctx_addLabel context (messageId email) label)
       | None => ret tt
       end) ;;;
      (match priority classification with
       | high =>
           ctx_notify context
             (category_upper (category classification) ++ ": " ++ subject email
              ++ nl ++ reasoning classification)%string
             (with_priority high)
       | _ => ret tt
       end)
  end.

End SmartClassifier.

(** The four listeners as modules of a registry of email listeners. *)
Definition shipped {DB Remote : Type} (toLowerCase : string -> string)
  : list (ListenerModule DB Remote Email) :=
  [ {| ListenersManager.config := ExampleListener.config;
       ListenersManager.handler := ExampleListener.handler toLowerCase |};
    {| ListenersManager.config := AutoArchiveNewsletters.config;
       ListenersManager.handler := AutoArchiveNewsletters.handler toLowerCase |};
    {| ListenersManager.config := BossUrgentWatcher.config;
       ListenersManager.handler := BossUrgentWatcher.handler |};
    {| ListenersManager.config := SmartClassifier.config;
       ListenersManager.handler := SmartClassifier.handler |} ].

End Listeners.

(* ================================================================== *)
(** ** The listener details endpoint ([server/endpoints/listeners.ts]) *)

Module ListenersEndpoint.

(** What a failed file-system call or import throws: the [code] of a
    system error, and the [message] when the value is an [Error]. *)
Record Failure : Type := {
  code : option string;
  message : option string
}.

(** What the dynamic import of a listener file yields, as far as the
    endpoint looks at it. *)
Record Exports (Handler : Type) : Type := {
  config : option Types.ListenerConfig;
  handler : option Handler
}.
Arguments config {Handler} e.
Arguments handler {Handler} e.

(** The outcome of a file-system call or of an import. *)
Inductive Result (A : Type) : Type :=
| Resolved (a : A)
| Rejected (failure : Failure).
Arguments Resolved {A} a.
Arguments Rejected {A} failure.

(** The file system and the module loader, by path ([import] is given
    the path followed by a query that defeats the module cache). *)
Record Files (Handler : Type) : Type := {
  readFile : string -> Result string;
  import_path : string -> Result (Exports Handler)
}.
Arguments readFile {Handler} f path.
Arguments import_path {Handler} f path.

(** The JSON value that a response carries. *)
Inductive Body : Type :=
| ErrorBody (error : string) (filename details : option string)
| ListenerData (config : Types.ListenerConfig) (filename code : string).

(** A [Response]: its status and its body (the headers are the same in
    every response and are left out). *)
Record Response : Type := {
  status : Z;
  body : Body
}.

Definition backslash : string := String (ascii_of_nat 92) EmptyString.

(** [filename.endsWith('.ts') ? filename : `${filename}.ts`] *)
Definition with_extension (filename : string) : string :=
  if ListenersManager.endsWith filename ".ts" then filename
  else (filename ++ ".ts")%string.

(** The test against directory traversal. *)
Definition traverses (filename : string) : bool :=
  Listeners.includes filename ".."
  || Listeners.includes filename "/"
  || Listeners.includes filename backslash.

(** [join(listenersDir, filename)] for a file name that is one segment. *)
Definition join_path (listenersDir filename : string) : string :=
  (listenersDir ++ "/" ++ filename)%string.

(** The response of the [catch] block. *)
Definition failed (failure : Failure) (filename : string) : Response :=
  if match code failure with
     | Some c => String.eqb c "ENOENT"
     | None => false
     end
  then {| status := 404;
          body := ErrorBody "Listener file not found" (Some filename) None |}
  else {| status := 500;
          body :=
            ErrorBody "Failed to fetch listener details" None
              (Some match message failure with
                    | Some text => text
                    | None => "Unknown error"
                    end) |}.

(** [handleListenerDetailsEndpoint]: the response, and the paths that
    were read or imported on the way, in order. *)
Definition handleListenerDetailsEndpoint {Handler : Type}
    (files : Files Handler) (listenersDir : string) (filename : string)
  : Response * list string :=
  if negb (truthy_string filename)
  then ({| status := 400;
           body := ErrorBody "Invalid listener filename" None None |}, [])
  else
    let filename := with_extension filename in
    if traverses filename
    then ({| status := 400; body := ErrorBody "Invalid filename" None None |}, [])
    else
      let filePath := join_path listenersDir filename in
      match readFile files filePath with
      | Rejected error => (failed error filename, [filePath])
      | Resolved code =>
          match import_path files filePath with
          | Rejected error => (failed error filename, [filePath; filePath])
          | Resolved module =>
              match config module, handler module with
              | Some cfg, Some _ =>
                  ({| status := 200; body := ListenerData cfg filename code |},
                   [filePath; filePath])
              | _, _ =>
                  ({| status := 400;
                      body :=
                        ErrorBody
                          "Invalid listener file: missing config or handler"
                          None None |},
                   [filePath; filePath])
              end
          end
      end.

End ListenersEndpoint.

(* ================================================================== *)
(** ** Further predicates on the store *)

Module Props.

(** The row that holds the message-id of [email] after
    [upsertEmail email files]: the inserted row when the message-id was
    new, the row that was there with the listed columns overwritten
    otherwise. *)
Definition upserted_row (rt : DateApi) (clk : Store.Clock)
    (email : DatabaseManager.EmailRecord)
    (files : list DatabaseManager.Attachment) (db : Store.Database)
  : Store.EmailRow :=
  match Store.select_by_message_id (DatabaseManager.messageId email) db with
  | Some old =>
      DatabaseManager.on_conflict_update
        (DatabaseManager.excluded_row rt clk email files (Store.id old)) old
  | None =>
      DatabaseManager.excluded_row rt clk email files (Store.seq_emails db + 1)
  end.

(** What SQLite's constraints keep true of the [emails] table: the
    message-ids are unique (UNIQUE), the keys are unique (PRIMARY KEY)
    and none is above the AUTOINCREMENT counter. *)
Definition consistent (db : Store.Database) : Prop :=
  NoDup (map Store.message_id (Store.emails db))
  /\ NoDup (map Store.id (Store.emails db))
  /\ Forall (fun r => Store.id r <= Store.seq_emails db) (Store.emails db).

(** What a sync run with the given options writes into a row for one of
    the given UIDs: the folder of the run, the read flag of the run and
    the UID (the UID 0 being stored as NULL). *)
Definition synced_shape (options : EmailSyncService.SyncOptions)
    (uids : list Z) (r : Store.EmailRow) : Prop :=
  Store.folder r = or_else (EmailSyncService.folder options) "INBOX"
  /\ Store.is_read r
     = bit (match EmailSyncService.markAsRead options with
            | Some b => b
            | None => false
            end)
  /\ exists uid,
       In uid uids
       /\ Store.imap_uid r = (if truthy_num uid then Some uid else None).

(** What the [email_received] event of a sync run carries for one of the
    given UIDs: that UID, a message-id that is not empty, the read flag of
    the run and no labels. *)
Definition dispatched_shape (options : EmailSyncService.SyncOptions)
    (uids : list Z) (email : Types.Email) : Prop :=
  truthy_string (Types.messageId email) = true
  /\ Types.isRead email
     = match EmailSyncService.markAsRead options with
       | Some b => b
       | None => false
       end
  /\ Types.labels email = None
  /\ exists uid, In uid uids /\ Types.uid email = Some uid.

(** A registry in which every entry is keyed by the id of its own
    config, no id occurs twice and every module is enabled. *)
Definition well_keyed {DB Remote Data : Type}
    (m : ListenersManager.Registry DB Remote Data) : Prop :=
  NoDup (map fst m)
  /\ Forall
       (fun kv =>
          fst kv = Types.id (ListenersManager.config (snd kv))
          /\ Types.enabled (ListenersManager.config (snd kv)) = true)
       m.

(** The changes of a watcher run that lead to a reload: those whose file
    name ends in [.ts]. *)
Definition reloading {DB Remote Data : Type}
    (changes : list (ListenersWatch.FileChange
                     * ListenersManager.Directory DB Remote Data))
  : list (ListenersWatch.FileChange * ListenersManager.Directory DB Remote Data) :=
  filter
    (fun change =>
       match ListenersWatch.filename (fst change) with
       | Some name => ListenersManager.endsWith name ".ts"
       | None => false
       end)
    changes.

(** A computation keeps a relation between the world before and the
    world after, whether it returns or throws. *)
Definition preserves {DB Remote A : Type}
    (R : ListenersManager.World DB Remote -> ListenersManager.World DB Remote -> Prop)
    (m : ListenersManager.M DB Remote A) : Prop :=
  forall w, R w (snd (m w)).

(** The local store and the remote mailbox are the same in both worlds. *)
Definition same_mail {DB Remote : Type}
    (w w' : ListenersManager.World DB Remote) : Prop :=
  ListenersManager.db w' = ListenersManager.db w
  /\ ListenersManager.remote w' = ListenersManager.remote w.

(** Store, mailbox and notifications are the same in both worlds. *)
Definition same_mail_and_notifications {DB Remote : Type}
    (w w' : ListenersManager.World DB Remote) : Prop :=
  ListenersManager.db w' = ListenersManager.db w
  /\ ListenersManager.remote w' = ListenersManager.remote w
  /\ ListenersManager.notifications w' = ListenersManager.notifications w.

(** Every method of a context keeps the relation. *)
Definition context_preserves {DB Remote : Type}
    (R : ListenersManager.World DB Remote -> ListenersManager.World DB Remote -> Prop)
    (context : ListenersManager.ListenerContext DB Remote) : Prop :=
  (forall message options,
      preserves R (ListenersManager.ctx_notify context message options))
  /\ (forall emailId, preserves R (ListenersManager.ctx_archiveEmail context emailId))
  /\ (forall emailId, preserves R (ListenersManager.ctx_starEmail context emailId))
  /\ (forall emailId, preserves R (ListenersManager.ctx_unstarEmail context emailId))
  /\ (forall emailId, preserves R (ListenersManager.ctx_markAsRead context emailId))
  /\ (forall emailId, preserves R (ListenersManager.ctx_markAsUnread context emailId))
  /\ (forall emailId label,
        preserves R (ListenersManager.ctx_addLabel context emailId label))
  /\ (forall emailId label,
        preserves R (ListenersManager.ctx_removeLabel context emailId label))
  /\ (forall T options,
        preserves R (ListenersManager.ctx_callAgent context T options)).

(** A manager whose registry holds the four shipped listeners. *)
Definition shipped_manager (toLowerCase : string -> string)
  : ListenersManager.Manager Store.Database unit Types.Email :=
  {| ListenersManager.listeners :=
       map (fun l => (Types.id (ListenersManager.config l), l))
           (Listeners.shipped toLowerCase);
     ListenersManager.notificationCallback := true;
     ListenersManager.watcherActive := false |}.

(** A path names a TypeScript file that sits in the directory itself. *)
Definition inside (listenersDir path : string) : Prop :=
  exists name,
    path = ListenersEndpoint.join_path listenersDir name
    /\ ListenersManager.endsWith name ".ts" = true
    /\ Listeners.includes name "/" = false
    /\ Listeners.includes name ListenersEndpoint.backslash = false
    /\ Listeners.includes name ".." = false.

(** What every element of the result of an IMAP search looks like: a
    message-id that is not empty, a snippet of at most 200 characters,
    one of the searched folders, no UID, and attachments that agree with
    the record's count unless only the headers were fetched, in which
    case there are none. *)
Definition found_shape (folders : list string) (headersOnly : bool)
    (found : ImapSearch.Found) : Prop :=
  truthy_string (DatabaseManager.messageId (fst found)) = true
  /\ (Spec.snippet_length (DatabaseManager.snippet (fst found)) <= 200)%nat
  /\ In (DatabaseManager.folder (fst found)) folders
  /\ DatabaseManager.imapUid (fst found) = None
  /\ (if headersOnly then snd found = []
      else DatabaseManager.attachmentCount (fst found)
           = Z.of_nat (List.length (snd found))).

(** A parsed message with the given text and nothing else, and a server
    with the UIDs 5, 6 and 7 in every mailbox, of which 6 cannot be
    fetched. *)
Definition parsed_sample (text : option string) : ImapSearch.ParsedMail :=
  {| ImapSearch.p_messageId := None; ImapSearch.p_threadId := None;
     ImapSearch.p_inReplyTo := None; ImapSearch.p_references := None;
     ImapSearch.p_date := None; ImapSearch.p_subject := None;
     ImapSearch.p_from := None; ImapSearch.p_to := None;
     ImapSearch.p_cc := None; ImapSearch.p_bcc := None;
     ImapSearch.p_replyTo := None; ImapSearch.p_text := text;
     ImapSearch.p_html := None; ImapSearch.p_attachments := None;
     ImapSearch.p_headers_json := None |}.

Definition server_sample : ImapSearch.Server :=
  {| ImapSearch.ensureConnection := None;
     ImapSearch.openMailbox := fun _ => None;
     ImapSearch.searchMailbox := fun _ _ => Returned [5; 6; 7];
     ImapSearch.fetchEmail :=
       fun _ uid _ =>
         if uid =? 6 then Thrown (mkError "No email data received")
         else Returned (parsed_sample (Some "body")) |}.

(** [attachments || []] *)
Definition or_empty {A : Type} (o : option (list A)) : list A :=
  match o with
  | Some l => l
  | None => []
  end.





End Props.

(* ================================================================== *)
(** * Properties *)

(** ** IMAP search expressions *)

(** C4, as stated, fails on an empty [gmailQuery]: the property is
    present, yet the expression is built from the other fields. *)
Lemma buildImapSearchCriteria_empty_gmailQuery :
  ImapManager.gmailQuery Sample.empty_gmail_and_from = Some EmptyString
  /\ ImapManager.buildImapSearchCriteria Sample.empty_gmail_and_from
     = [ImapManager.Arr [ImapManager.Str "FROM"; ImapManager.Str "boss@"]]
  /\ ImapManager.buildImapSearchCriteria Sample.empty_gmail_and_from
     <> [ImapManager.Arr [ImapManager.Str "X-GM-RAW"; ImapManager.Str EmptyString]].
Proof.
  split; [reflexivity|].
  split; [reflexivity|].
  discriminate.
Qed.

(** C4, amended: for every [SearchCriteria] whose [gmailQuery] is present
    and not empty, the search expression is exactly
    [[["X-GM-RAW", gmailQuery]]]; hence it is the same for any two
    criteria with that [gmailQuery], whatever their other fields hold. *)
Theorem buildImapSearchCriteria_gmailQuery :
  forall (c : ImapManager.SearchCriteria) (q : string),
    ImapManager.gmailQuery c = Some q ->
    q <> EmptyString ->
    ImapManager.buildImapSearchCriteria c
    = [ImapManager.Arr [ImapManager.Str "X-GM-RAW"; ImapManager.Str q]]
    /\ forall c' : ImapManager.SearchCriteria,
         ImapManager.gmailQuery c' = Some q ->
         ImapManager.buildImapSearchCriteria c'
         = ImapManager.buildImapSearchCriteria c.
Proof.
  intros c q Hq Hne.
  assert (Hbuild : forall d, ImapManager.gmailQuery d = Some q ->
            ImapManager.buildImapSearchCriteria d
            = [ImapManager.Arr [ImapManager.Str "X-GM-RAW"; ImapManager.Str q]]).
  { intros d Hd. unfold ImapManager.buildImapSearchCriteria. rewrite Hd.
    destruct q as [|ch rest]; [contradiction|reflexivity]. }
  split.
  - apply Hbuild; assumption.
  - intros c' Hc'. rewrite (Hbuild c Hq). apply Hbuild; assumption.
Qed.

Lemma buildImapSearchCriteria_gmailQuery_witness :
  ImapManager.gmailQuery Sample.gmail_and_from = Some "is:unread from:me"
  /\ "is:unread from:me" <> EmptyString
  /\ ImapManager.buildImapSearchCriteria Sample.gmail_and_from
     = [ImapManager.Arr
          [ImapManager.Str "X-GM-RAW"; ImapManager.Str "is:unread from:me"]].
Proof.
  split; [reflexivity|].
  split; [discriminate|].
  assert (Hq : ImapManager.gmailQuery Sample.gmail_and_from
               = Some "is:unread from:me") by reflexivity.
  assert (Hne : "is:unread from:me" <> EmptyString) by discriminate.
  exact (proj1 (buildImapSearchCriteria_gmailQuery Sample.gmail_and_from
                  "is:unread from:me" Hq Hne)).
Defined.


(** ** The mail store: [updateEmailFlags] *)

Lemma set_flags_applied :
  forall clk updates r,
    Spec.flags_applied clk updates r (DatabaseManager.set_flags clk updates r)
    /\ Spec.unchanged_outside_flags r (DatabaseManager.set_flags clk updates r).
Proof.
  intros clk [rd st im lb fo] r.
  unfold Spec.flags_applied, Spec.unchanged_outside_flags, Spec.assigned.
  destruct rd, st, im, lb, fo; cbn; repeat split; reflexivity.
Qed.

Lemma updateEmailFlags_nothing_provided :
  forall clk messageId updates db,
    DatabaseManager.provided updates = 0%nat ->
    DatabaseManager.updateEmailFlags clk messageId updates db = db.
Proof.
  intros clk messageId updates db H.
  unfold DatabaseManager.updateEmailFlags. rewrite H. reflexivity.
Qed.

Lemma updateEmailFlags_something_provided :
  forall clk messageId updates db,
    DatabaseManager.provided updates <> 0%nat ->
    DatabaseManager.updateEmailFlags clk messageId updates db
    = DatabaseManager.update_emails_where messageId
        (DatabaseManager.set_flags clk updates) db.
Proof.
  intros clk messageId updates db H.
  unfold DatabaseManager.updateEmailFlags.
  destruct (DatabaseManager.provided updates) as [|n]; [contradiction|].
  replace (S n + 1)%nat with (S (S n)) by lia. reflexivity.
Qed.

(** C8, as stated, fails on the empty update set: the call returns before
    the UPDATE, so [updated_at] keeps its old value. *)
Lemma updateEmailFlags_empty_keeps_updated_at :
  DatabaseManager.updateEmailFlags Sample.later "<a@x>"
    DatabaseManager.no_updates Sample.one_message
  = Sample.one_message
  /\ map Store.updated_at (Store.emails Sample.one_message)
     = ["2025-01-01 00:00:00"]
  /\ Store.CURRENT_TIMESTAMP Sample.later = "2025-06-01 00:00:00"
  /\ map Store.updated_at
       (Store.emails
          (DatabaseManager.updateEmailFlags Sample.later "<a@x>"
             DatabaseManager.no_updates Sample.one_message))
     <> [Store.CURRENT_TIMESTAMP Sample.later].
Proof.
  repeat split; try reflexivity.
  vm_compute. discriminate.
Qed.

(** C8, amended: for every message-id and every update set that provides
    at least one of [isRead], [isStarred], [isImportant], [labels],
    [folder], [updateEmailFlags] rewrites the rows with that message-id
    and no other: in such a row the provided columns take the provided
    values, [updated_at] takes the current time, and every other column
    keeps its value; the other rows, the recipients, the attachments and
    the row counters are as before. *)
Theorem updateEmailFlags_frame :
  forall (clk : Store.Clock) (messageId : string)
         (updates : DatabaseManager.FlagUpdates) (db : Store.Database),
    DatabaseManager.provided updates <> 0%nat ->
    Forall2
      (fun r r' =>
         if String.eqb (Store.message_id r) messageId
         then Spec.flags_applied clk updates r r'
              /\ Spec.unchanged_outside_flags r r'
         else r' = r)
      (Store.emails db)
      (Store.emails (DatabaseManager.updateEmailFlags clk messageId updates db))
    /\ Store.recipients (DatabaseManager.updateEmailFlags clk messageId updates db)
       = Store.recipients db
    /\ Store.attachments (DatabaseManager.updateEmailFlags clk messageId updates db)
       = Store.attachments db
    /\ Store.seq_emails (DatabaseManager.updateEmailFlags clk messageId updates db)
       = Store.seq_emails db.
Proof.
  intros clk messageId updates db Hp.
  rewrite (updateEmailFlags_something_provided clk messageId updates db Hp).
  unfold DatabaseManager.update_emails_where; cbn.
  repeat split.
  induction (Store.emails db) as [|r rows IH]; cbn.
  - constructor.
  - constructor; [|exact IH].
    destruct (String.eqb (Store.message_id r) messageId).
    + apply set_flags_applied.
    + reflexivity.
Qed.

Lemma updateEmailFlags_frame_witness :
  DatabaseManager.provided
    (ListenersManager.labels_update ["work"]) <> 0%nat
  /\ map Store.labels
       (Store.emails
          (DatabaseManager.updateEmailFlags Sample.later "<a@x>"
             (ListenersManager.labels_update ["work"]) Sample.one_message))
     = [Some ["work"]]
  /\ Store.attachments
       (DatabaseManager.updateEmailFlags Sample.later "<a@x>"
          (ListenersManager.labels_update ["work"]) Sample.one_message)
     = Store.attachments Sample.one_message.
Proof.
  assert (Hp : DatabaseManager.provided
                 (ListenersManager.labels_update ["work"]) <> 0%nat)
    by (vm_compute; discriminate).
  split; [exact Hp|].
  split; [reflexivity|].
  exact (proj1 (proj2 (proj2
           (updateEmailFlags_frame Sample.later "<a@x>"
              (ListenersManager.labels_update ["work"]) Sample.one_message Hp)))).
Defined.


(** ** The mail store: snippets *)

Lemma substring0_length :
  forall (n : nat) (s : string), (String.length (substring0 n s) <= n)%nat.
Proof.
  unfold substring0.
  induction n as [|n IH]; intros [|c s]; cbn; try lia.
  specialize (IH s). lia.
Qed.

Lemma or_null_length :
  forall (o : option string) (n : nat),
    (Spec.snippet_length o <= n)%nat -> (Spec.snippet_length (or_null o) <= n)%nat.
Proof.
  intros o n H. unfold or_null. destruct (truthy o); cbn; [exact H|lia].
Qed.

(** What [snippet || body?.substring(0, 200) || null] stores is as short
    as the supplied snippet allows. *)
Lemma snippet_param_length :
  forall snippet body : option string,
    (Spec.snippet_length snippet <= 200)%nat ->
    (Spec.snippet_length (DatabaseManager.snippet_param snippet body) <= 200)%nat.
Proof.
  intros snippet body H. unfold DatabaseManager.snippet_param.
  destruct (truthy snippet); [exact H|].
  destruct body as [b|]; cbn; [|lia].
  apply or_null_length. cbn. apply substring0_length.
Qed.

Lemma insert_snippet_param_length :
  forall snippet body : option string,
    (Spec.snippet_length snippet <= 200)%nat ->
    (Spec.snippet_length (EmailDatabase.snippet_param snippet body) <= 200)%nat.
Proof.
  intros snippet body H. unfold EmailDatabase.snippet_param.
  destruct (truthy snippet); [exact H|].
  destruct body as [b|]; cbn; [|lia].
  apply or_null_length. cbn. apply substring0_length.
Qed.

(** The rows of [emails] after [upsert_statement]: a row with the
    record's message-id is the excluded row merged over an old one, or
    the excluded row itself. *)
Lemma upsert_statement_rows :
  forall rt clk email attachments db r,
    In r (Store.emails (fst (DatabaseManager.upsert_statement rt clk email attachments db))) ->
    Store.message_id r = DatabaseManager.messageId email ->
    exists rowid,
      Store.snippet r
      = Store.snippet (DatabaseManager.excluded_row rt clk email attachments rowid).
Proof.
  intros rt clk email attachments db r.
  unfold DatabaseManager.upsert_statement.
  destruct (Store.select_by_message_id (DatabaseManager.messageId email) db)
    as [old|] eqn:Hsel; cbn.
  - intros Hin Hid. apply in_map_iff in Hin. destruct Hin as [r0 [Hr0 _]].
    destruct (String.eqb (Store.message_id r0) (DatabaseManager.messageId email)) eqn:E.
    + exists (Store.id old). subst r. reflexivity.
    + subst r0. apply String.eqb_neq in E. contradiction.
  - intros Hin Hid. apply in_app_or in Hin. destruct Hin as [Hin|Hin].
    + exfalso. unfold Store.select_by_message_id in Hsel.
      apply (find_none _ _ Hsel) in Hin. cbn in Hin.
      apply String.eqb_neq in Hin. contradiction.
    + destruct Hin as [Hin|[]]. subst r. exists (Store.seq_emails db + 1). reflexivity.
Qed.

Lemma fold_insertAttachment_emails :
  forall emailId attachments db,
    Store.emails (fold_left (DatabaseManager.insertAttachment emailId) attachments db)
    = Store.emails db.
Proof.
  intros emailId attachments. induction attachments as [|a rest IH]; intro db; cbn.
  - reflexivity.
  - rewrite IH. reflexivity.
Qed.

(** [upsertEmail] leaves in [emails] what its statement left there. *)
Lemma upsertEmail_emails :
  forall rt clk email attachments db,
    Store.emails (fst (DatabaseManager.upsertEmail rt clk email attachments db))
    = Store.emails (fst (DatabaseManager.upsert_statement rt clk email attachments db)).
Proof.
  intros rt clk email attachments db. unfold DatabaseManager.upsertEmail.
  destruct (DatabaseManager.upsert_statement rt clk email attachments db) as [db1 emailId].
  destruct (0 <? Z.of_nat (List.length attachments)); cbn; [|reflexivity].
  rewrite fold_insertAttachment_emails. reflexivity.
Qed.

(** The row that the sync run hands to [insertEmail] carries a snippet of
    at most 200 characters. *)
Lemma make_record_snippet :
  forall rt clk parse options uid rawEmail,
    (Spec.snippet_length
       (EmailDatabase.snippet
          (EmailSyncService.make_record rt clk parse options uid rawEmail))
     <= 200)%nat.
Proof.
  intros. cbn. destruct (EmailSyncService.raw_text rawEmail) as [text|]; cbn.
  - apply substring0_length.
  - lia.
Qed.

(** C9, as stated, fails on the upsert path: a snippet that the caller
    supplies is stored as it is, here with 201 characters. *)
Lemma upsertEmail_stores_long_snippet :
  map (fun r => Spec.snippet_length (Store.snippet r))
      (Store.emails
         (fst (DatabaseManager.upsertEmail Sample.rt Sample.clk
                 (Sample.record "<b@x>" (Some (Sample.copies 201 "s"))
                    (Some "body") None)
                 [] Store.empty)))
  = [201%nat]
  /\ ~ (201 <= 200)%nat.
Proof.
  split; [vm_compute; reflexivity|lia].
Qed.

(** C9, amended: the row that a sync run inserts has a snippet of at most
    200 characters; [upsertEmail] stores a supplied, non-empty snippet
    as it is and the first 200 characters of the body text otherwise, so
    the rows it writes for a record whose snippet is absent, empty or at
    most 200 characters long have a snippet of at most 200 characters. *)
Theorem stored_snippet_bound :
  forall (rt : DateApi) (clk : Store.Clock)
         (parse : string -> list EmailSyncService.ParsedAddress)
         (options : EmailSyncService.SyncOptions) (uid : Z)
         (rawEmail : EmailSyncService.RawEmail)
         (recipients : list EmailDatabase.Recipient)
         (attachments : list EmailDatabase.Attachment)
         (email : DatabaseManager.EmailRecord)
         (files : list DatabaseManager.Attachment)
         (db : Store.Database),
    (Spec.snippet_length (DatabaseManager.snippet email) <= 200)%nat ->
    (forall emailId db',
        EmailDatabase.insertEmail rt clk
          (EmailSyncService.make_record rt clk parse options uid rawEmail)
          recipients attachments db = (Returned emailId, db') ->
        exists row,
          Store.emails db' = Store.emails db ++ [row]
          /\ (Spec.snippet_length (Store.snippet row) <= 200)%nat)
    /\ (forall r,
          In r (Store.emails
                  (fst (DatabaseManager.upsertEmail rt clk email files db))) ->
          Store.message_id r = DatabaseManager.messageId email ->
          (Spec.snippet_length (Store.snippet r) <= 200)%nat).
Proof.
  intros rt clk parse options uid rawEmail recipients attachments email files db
         Hshort.
  split.
  - intros emailId db'. unfold EmailDatabase.insertEmail.
    destruct (Store.select_by_message_id _ db); [discriminate|].
    intro H. injection H as _ Hdb. subst db'. cbn [Store.emails].
    eexists. split; [reflexivity|].
    cbn [Store.snippet EmailDatabase.inserted_row].
    apply insert_snippet_param_length. apply make_record_snippet.
  - intros r Hin Hid. rewrite upsertEmail_emails in Hin.
    destruct (upsert_statement_rows rt clk email files db r Hin Hid) as [rowid Hr].
    rewrite Hr. cbn. apply snippet_param_length. exact Hshort.
Qed.

Lemma stored_snippet_bound_witness :
  (Spec.snippet_length
     (DatabaseManager.snippet
        (Sample.record "<a@x>" None (Some (Sample.copies 300 "b")) None))
   <= 200)%nat
  /\ forall r,
       In r (Store.emails
               (fst (DatabaseManager.upsertEmail Sample.rt Sample.clk
                       (Sample.record "<a@x>" None
                          (Some (Sample.copies 300 "b")) None)
                       [] Store.empty))) ->
       Store.message_id r = "<a@x>" ->
       (Spec.snippet_length (Store.snippet r) <= 200)%nat.
Proof.
  assert (Hshort : (Spec.snippet_length
                      (DatabaseManager.snippet
                         (Sample.record "<a@x>" None
                            (Some (Sample.copies 300 "b")) None))
                    <= 200)%nat) by (cbn; lia).
  split; [exact Hshort|].
  exact (proj2 (stored_snippet_bound Sample.rt Sample.clk Sample.parse
                  (Sample.with_limit None) 7
                  (Sample.raw (Some "<a@x>") (Some "body")) [] []
                  (Sample.record "<a@x>" None (Some (Sample.copies 300 "b")) None)
                  [] Store.empty Hshort)).
Defined.

(** ** The mail store: [upsertEmail] *)

(** The statement of [upsertEmail] never touches [attachments]. *)
Lemma upsert_statement_attachments :
  forall rt clk email files db,
    Store.attachments (fst (DatabaseManager.upsert_statement rt clk email files db))
    = Store.attachments db.
Proof.
  intros rt clk email files db. unfold DatabaseManager.upsert_statement.
  destruct (Store.select_by_message_id _ db); reflexivity.
Qed.

(** With an empty attachment list, [upsertEmail] leaves the whole of
    [attachments] as it found it. *)
Lemma upsertEmail_no_attachments :
  forall rt clk email db,
    Store.attachments (fst (DatabaseManager.upsertEmail rt clk email [] db))
    = Store.attachments db.
Proof.
  intros rt clk email db. unfold DatabaseManager.upsertEmail.
  pose proof (upsert_statement_attachments rt clk email [] db) as H.
  destruct (DatabaseManager.upsert_statement rt clk email [] db) as [db1 emailId].
  cbn in *. exact H.
Qed.

(** C5 at the failing input: the message [<a@x>] is stored with one
    attachment and is upserted again with an empty list.  The call
    returns the key of the row and sets its [attachment_count] to 0, yet
    the old attachment row and the attachment names of the full-text row
    are still there. *)
Lemma upsertEmail_empty_list_keeps_old_attachments :
  snd (DatabaseManager.upsertEmail Sample.rt Sample.later
         (Sample.record "<a@x>" None (Some "body") None) [] Sample.with_attachment)
  = 1
  /\ map Store.attachment_count
       (Store.emails
          (fst (DatabaseManager.upsertEmail Sample.rt Sample.later
                  (Sample.record "<a@x>" None (Some "body") None) []
                  Sample.with_attachment)))
     = [0]
  /\ map Store.a_filename
       (DatabaseManager.getAttachments 1
          (fst (DatabaseManager.upsertEmail Sample.rt Sample.later
                  (Sample.record "<a@x>" None (Some "body") None) []
                  Sample.with_attachment)))
     = ["report.pdf"]
  /\ map Store.f_attachment_names
       (Store.emails_fts
          (fst (DatabaseManager.upsertEmail Sample.rt Sample.later
                  (Sample.record "<a@x>" None (Some "body") None) []
                  Sample.with_attachment)))
     = [Some "report.pdf"].
Proof.
  repeat split; vm_compute; reflexivity.
Qed.

(** ** The sync service: the limit *)

Lemma slice0_length :
  forall (A : Type) (xs : list A), slice0 (Z.of_nat (List.length xs)) xs = xs.
Proof.
  intros A xs. unfold slice0.
  destruct (Z.of_nat (List.length xs) <? 0) eqn:E.
  - apply Z.ltb_lt in E. lia.
  - rewrite Nat2Z.id. apply firstn_all.
Qed.

(** A limit of 0 is falsy: [options.limit || uids.length] is the number
    of UIDs found. *)
Lemma uidsToProcess_limit_zero :
  forall options uids,
    EmailSyncService.limit options = Some 0 ->
    EmailSyncService.uidsToProcess options uids = uids.
Proof.
  intros options uids H. unfold EmailSyncService.uidsToProcess.
  rewrite H. cbn. apply slice0_length.
Qed.

Lemma uidsToProcess_no_limit :
  forall options uids,
    EmailSyncService.limit options = None ->
    EmailSyncService.uidsToProcess options uids = uids.
Proof.
  intros options uids H. unfold EmailSyncService.uidsToProcess.
  rewrite H. cbn. apply slice0_length.
Qed.

(** Each UID that the loop takes up moves exactly one counter by one. *)
Lemma process_total :
  forall rt clk lower parse mailbox listeners options acc uid,
    Spec.total
      (fst (EmailSyncService.process rt clk lower parse mailbox listeners
              options acc uid))
    = Spec.total (fst acc) + 1.
Proof.
  intros rt clk lower parse mailbox listeners options [stats st] uid.
  unfold EmailSyncService.process.
  destruct (EmailSyncService.fetchEmail mailbox uid) as [rawEmail|e].
  2: { unfold Spec.total; cbn; lia. }
  destruct (EmailSyncService.existing rawEmail (EmailSyncService.database st)).
  { unfold Spec.total; cbn; lia. }
  destruct (EmailSyncService.filtered_out options rawEmail).
  { unfold Spec.total; cbn; lia. }
  destruct (EmailDatabase.insertEmail _ _ _ _ _ _) as [[emailId|e] db'].
  - destruct listeners; unfold Spec.total; cbn; lia.
  - unfold Spec.total; cbn; lia.
Qed.

Lemma fold_process_total :
  forall rt clk lower parse mailbox listeners options uids acc,
    Spec.total
      (fst (fold_left
              (EmailSyncService.process rt clk lower parse mailbox listeners options)
              uids acc))
    = Spec.total (fst acc) + Z.of_nat (List.length uids).
Proof.
  intros rt clk lower parse mailbox listeners options uids.
  induction uids as [|uid rest IH]; intro acc.
  - cbn. lia.
  - cbn [fold_left List.length]. rewrite IH, process_total. lia.
Qed.

Section SyncRun.

Context (rt : DateApi) (clk : Store.Clock).
Context (lower : string -> string).
Context (parse : string -> list EmailSyncService.ParsedAddress).
Context (thirty : Date -> Date).
Context (mailbox : EmailSyncService.EmailSearcher).
Context (listeners : option (Types.Email -> Store.Database -> Store.Database)).

(** A run that returns has found some UIDs and has counted each of the
    UIDs it took up once. *)
Lemma syncEmails_counts :
  forall options st stats st',
    EmailSyncService.syncEmails rt clk lower parse thirty mailbox listeners
      options st = (Returned stats, st') ->
    exists uids,
      EmailSyncService.searchEmails mailbox
        (EmailSyncService.build_criteria clk thirty options) = Returned uids
      /\ Spec.total stats
         = Z.of_nat (List.length (EmailSyncService.uidsToProcess options uids)).
Proof.
  intros options st stats st'. unfold EmailSyncService.syncEmails.
  destruct (EmailSyncService.connect mailbox); [discriminate|].
  match goal with
  | |- context [match ?o with Some _ => (Thrown _, _) | None => _ end] =>
      destruct o
  end; [discriminate|].
  destruct (EmailSyncService.searchEmails mailbox _) as [uids|e]; [|discriminate].
  pose proof (fold_process_total rt clk lower parse mailbox listeners options
                (EmailSyncService.uidsToProcess options uids)
                ({| EmailSyncService.synced := 0; EmailSyncService.skipped := 0;
                    EmailSyncService.errors := 0 |}, st)) as Htotal.
  destruct (fold_left _ _ _) as [stats0 st0].
  intro H. injection H as Hs Hst. subst stats0 st0.
  exists uids. split; [reflexivity|].
  cbn [fst] in Htotal. rewrite Htotal. unfold Spec.total. cbn. lia.
Qed.

(** A run depends on its limit only through the UIDs it takes up. *)
Lemma syncEmails_without_limit :
  forall options st,
    (forall uids, EmailSyncService.uidsToProcess options uids = uids) ->
    EmailSyncService.syncEmails rt clk lower parse thirty mailbox listeners
      options st
    = EmailSyncService.syncEmails rt clk lower parse thirty mailbox listeners
        (Spec.without_limit options) st.
Proof.
  intros options st Hall. unfold EmailSyncService.syncEmails.
  change (EmailSyncService.folder (Spec.without_limit options))
    with (EmailSyncService.folder options).
  change (EmailSyncService.build_criteria clk thirty (Spec.without_limit options))
    with (EmailSyncService.build_criteria clk thirty options).
  destruct (EmailSyncService.connect mailbox); [reflexivity|].
  match goal with
  | |- context [match ?o with Some _ => (Thrown _, _) | None => _ end] =>
      destruct o
  end; [reflexivity|].
  destruct (EmailSyncService.searchEmails mailbox _) as [uids|e]; [|reflexivity].
  rewrite Hall.
  rewrite (uidsToProcess_no_limit (Spec.without_limit options) uids eq_refl).
  reflexivity.
Qed.

End SyncRun.

(** C7: a run with [limit = 0] is to process nothing, and the code
    slices the UIDs with [uids.slice(0, limit)] to that end; but
    [options.limit || uids.length] has taken the 0 for an absent limit
    before.  With [limit = 0] and one message in the mailbox, the run
    fetches the message, stores it and counts it as synced. *)
Lemma syncEmails_limit_zero_syncs :
  fst (Sample.sync Sample.clk Sample.one_with_id (Sample.with_limit (Some 0))
         Sample.fresh)
  = Returned {| EmailSyncService.synced := 1; EmailSyncService.skipped := 0;
                EmailSyncService.errors := 0 |}
  /\ map Store.message_id
       (Store.emails
          (EmailSyncService.database
             (snd (Sample.sync Sample.clk Sample.one_with_id
                     (Sample.with_limit (Some 0)) Sample.fresh))))
     = ["<a@x>"].
Proof.
  split; vm_compute; reflexivity.
Qed.

(** The extent of the slip: at every input a run invoked with
    [limit = 0] takes up every UID that the search returned, does what
    the run without a limit does, and when it returns has counted each of
    these UIDs once (as synced, skipped or failed). *)
Theorem syncEmails_limit_zero_unbounded :
  forall (rt : DateApi) (clk : Store.Clock) (lower : string -> string)
         (parse : string -> list EmailSyncService.ParsedAddress)
         (thirty : Date -> Date) (mailbox : EmailSyncService.EmailSearcher)
         (listeners : option (Types.Email -> Store.Database -> Store.Database))
         (options : EmailSyncService.SyncOptions) (st : EmailSyncService.State),
    EmailSyncService.limit options = Some 0 ->
    (forall uids, EmailSyncService.uidsToProcess options uids = uids)
    /\ EmailSyncService.syncEmails rt clk lower parse thirty mailbox listeners
         options st
       = EmailSyncService.syncEmails rt clk lower parse thirty mailbox listeners
           (Spec.without_limit options) st
    /\ (forall stats st',
          EmailSyncService.syncEmails rt clk lower parse thirty mailbox listeners
            options st = (Returned stats, st') ->
          exists uids,
            EmailSyncService.searchEmails mailbox
              (EmailSyncService.build_criteria clk thirty options) = Returned uids
            /\ Spec.total stats = Z.of_nat (List.length uids)).
Proof.
  intros rt clk lower parse thirty mailbox listeners options st Hzero.
  assert (Hall : forall uids, EmailSyncService.uidsToProcess options uids = uids)
    by (intro uids; apply uidsToProcess_limit_zero; exact Hzero).
  split; [exact Hall|].
  split; [apply syncEmails_without_limit; exact Hall|].
  intros stats st' Hrun.
  destruct (syncEmails_counts rt clk lower parse thirty mailbox listeners
              options st stats st' Hrun) as [uids [Hsearch Htotal]].
  exists uids. split; [exact Hsearch|].
  rewrite Htotal, Hall. reflexivity.
Qed.

Lemma syncEmails_limit_zero_unbounded_witness :
  EmailSyncService.limit (Sample.with_limit (Some 0)) = Some 0
  /\ Sample.sync Sample.clk Sample.one_with_id (Sample.with_limit (Some 0))
       Sample.fresh
     = Sample.sync Sample.clk Sample.one_with_id
         (Spec.without_limit (Sample.with_limit (Some 0))) Sample.fresh.
Proof.
  assert (Hzero : EmailSyncService.limit (Sample.with_limit (Some 0)) = Some 0)
    by reflexivity.
  split; [exact Hzero|].
  exact (proj1 (proj2
           (syncEmails_limit_zero_unbounded Sample.rt Sample.clk Sample.lower
              Sample.parse Sample.thirty_days_before Sample.one_with_id None
              (Sample.with_limit (Some 0)) Sample.fresh Hzero))).
Defined.

(** ** The sync service: messages that are already stored *)

Lemma find_app_found :
  forall (A : Type) (f : A -> bool) (l l' : list A) (x : A),
    find f l = Some x -> find f (l ++ l') = Some x.
Proof.
  intros A f l l' x. induction l as [|a l IH]; cbn; [discriminate|].
  destruct (f a); [trivial|exact IH].
Qed.

Lemma find_app_last :
  forall (A : Type) (f : A -> bool) (l : list A) (x : A),
    f x = true -> exists y, find f (l ++ [x]) = Some y.
Proof.
  intros A f l x Hx. induction l as [|a l IH]; cbn.
  - rewrite Hx. eauto.
  - destruct (f a); eauto.
Qed.

(** [insertEmail] removes no message-id from the store. *)
Lemma insertEmail_keeps_stored :
  forall rt clk email recipients attachments db m,
    Spec.stored m db = true ->
    Spec.stored m
      (snd (EmailDatabase.insertEmail rt clk email recipients attachments db))
    = true.
Proof.
  intros rt clk email recipients attachments db m.
  unfold EmailDatabase.insertEmail, Spec.stored, Store.select_by_message_id.
  destruct (find _ (Store.emails db)) as [row|] eqn:Hrow; [intros _|discriminate].
  destruct (find (fun r => String.eqb (Store.message_id r) (EmailDatabase.message_id email))
                 (Store.emails db)); cbn.
  - rewrite Hrow. trivial.
  - rewrite (find_app_found _ _ _ _ _ Hrow). trivial.
Qed.

(** [insertEmail] succeeds on a message-id that is not stored, and then
    the message-id is stored. *)
Lemma insertEmail_new :
  forall rt clk email recipients attachments db,
    Spec.stored (EmailDatabase.message_id email) db = false ->
    exists emailId db',
      EmailDatabase.insertEmail rt clk email recipients attachments db
      = (Returned emailId, db')
      /\ Spec.stored (EmailDatabase.message_id email) db' = true.
Proof.
  intros rt clk email recipients attachments db.
  unfold EmailDatabase.insertEmail, Spec.stored, Store.select_by_message_id.
  destruct (find _ (Store.emails db)) eqn:Hnone; [discriminate|intros _].
  do 2 eexists. split; [reflexivity|]. cbn [Store.emails].
  destruct (find_app_last _
              (fun r => String.eqb (Store.message_id r) (EmailDatabase.message_id email))
              (Store.emails db)
              (EmailDatabase.inserted_row rt clk email attachments
                 (Store.seq_emails db + 1)))
    as [y Hy].
  - cbn. apply String.eqb_refl.
  - rewrite Hy. reflexivity.
Qed.

(** A message with a non-empty Message-ID is stored under it. *)
Lemma make_record_message_id :
  forall rt clk parse options uid rawEmail m,
    EmailSyncService.raw_messageId rawEmail = Some m ->
    truthy_string m = true ->
    EmailDatabase.message_id
      (EmailSyncService.make_record rt clk parse options uid rawEmail) = m.
Proof.
  intros rt clk parse options uid rawEmail m Hm Ht. cbn. rewrite Hm. cbn.
  rewrite Ht. reflexivity.
Qed.

Lemma truthy_some :
  forall o : option string,
    truthy o = true -> exists m, o = Some m /\ truthy_string m = true.
Proof.
  intros [m|]; cbn; [eauto|discriminate].
Qed.

Lemma stats_eq :
  forall a b : EmailSyncService.Stats,
    EmailSyncService.synced a = EmailSyncService.synced b ->
    EmailSyncService.skipped a = EmailSyncService.skipped b ->
    EmailSyncService.errors a = EmailSyncService.errors b ->
    a = b.
Proof.
  intros [] []; cbn; intros; subst; reflexivity.
Qed.

Section SyncTwice.

Context (rt : DateApi) (first second : Store.Clock).
Context (lower : string -> string).
Context (parse : string -> list EmailSyncService.ParsedAddress).
Context (thirty : Date -> Date).
Context (mailbox : EmailSyncService.EmailSearcher).
Context (listeners : option (Types.Email -> Store.Database -> Store.Database)).
Context (options : EmailSyncService.SyncOptions).

(** Every message that can be fetched carries a Message-ID. *)
Hypothesis fetched_have_ids :
  forall uid rawEmail,
    EmailSyncService.fetchEmail mailbox uid = Returned rawEmail ->
    truthy (EmailSyncService.raw_messageId rawEmail) = true.

(** The listeners remove no message from the store. *)
Hypothesis listeners_keep_messages :
  forall checkEvent,
    listeners = Some checkEvent ->
    forall email db m,
      Spec.stored m db = true -> Spec.stored m (checkEvent email db) = true.

Local Abbreviation settled := (Spec.settled mailbox options).
Local Abbreviation failures := (Spec.failures mailbox).
Local Abbreviation grows := Spec.grows.

Lemma settled_grows :
  forall st st' uid, grows st st' -> settled st uid -> settled st' uid.
Proof.
  intros st st' uid Hg. unfold Spec.settled.
  destruct (EmailSyncService.fetchEmail mailbox uid) as [rawEmail|e]; [|trivial].
  intros [m [Hm [Hs|Hf]]]; exists m; split; auto.
Qed.

(** The first run, one UID: the store only grows, the UID ends up
    settled, and the error counter moves only when the fetch fails. *)
Lemma process_first :
  forall stats st uid,
    grows st
      (snd (EmailSyncService.process rt first lower parse mailbox listeners
              options (stats, st) uid))
    /\ settled
         (snd (EmailSyncService.process rt first lower parse mailbox listeners
                 options (stats, st) uid)) uid
    /\ EmailSyncService.errors
         (fst (EmailSyncService.process rt first lower parse mailbox listeners
                 options (stats, st) uid))
       = EmailSyncService.errors stats
         + (if Spec.fetch_fails mailbox uid then 1 else 0).
Proof.
  intros stats st uid.
  unfold EmailSyncService.process, Spec.settled, Spec.fetch_fails.
  destruct (EmailSyncService.fetchEmail mailbox uid) as [rawEmail|e] eqn:Hfetch.
  2: { cbn. split; [intros m H; exact H|]. split; [exact I|lia]. }
  destruct (truthy_some _ (fetched_have_ids uid rawEmail Hfetch)) as [m [Hm Ht]].
  unfold EmailSyncService.existing. rewrite Hm.
  destruct (Store.select_by_message_id m (EmailSyncService.database st))
    as [row|] eqn:Hsel.
  { cbn. split; [intros k H; exact H|]. split; [|lia].
    exists m. split; [reflexivity|]. left. unfold Spec.stored. rewrite Hsel.
    reflexivity. }
  destruct (EmailSyncService.filtered_out options rawEmail) eqn:Hfilter.
  { cbn. split; [intros k H; exact H|]. split; [|lia].
    exists m. split; [reflexivity|]. right. reflexivity. }
  pose proof (make_record_message_id rt first parse options uid rawEmail m Hm Ht)
    as Hid.
  assert (Hnew : Spec.stored
                   (EmailDatabase.message_id
                      (EmailSyncService.make_record rt first parse options uid rawEmail))
                   (EmailSyncService.database st) = false).
  { rewrite Hid. unfold Spec.stored. rewrite Hsel. reflexivity. }
  destruct (insertEmail_new rt first _
              (EmailSyncService.extractRecipients lower parse rawEmail 0)
              (EmailSyncService.extractAttachments rawEmail 0) _ Hnew)
    as [emailId [db' [Hins Hstored]]].
  pose proof (insertEmail_keeps_stored rt first
                (EmailSyncService.make_record rt first parse options uid rawEmail)
                (EmailSyncService.extractRecipients lower parse rawEmail 0)
                (EmailSyncService.extractAttachments rawEmail 0)
                (EmailSyncService.database st)) as Hkeep.
  rewrite Hins in *. cbn [snd] in Hkeep. rewrite Hid in Hstored.
  destruct listeners as [checkEvent|] eqn:Hl; cbn.
  - split; [|split]; [| |lia].
    + intros k Hk. apply (listeners_keep_messages checkEvent eq_refl).
      apply Hkeep. exact Hk.
    + exists m. split; [reflexivity|]. left.
      apply (listeners_keep_messages checkEvent eq_refl). exact Hstored.
  - split; [|split]; [| |lia].
    + intros k Hk. apply Hkeep. exact Hk.
    + exists m. split; [reflexivity|]. left. exact Hstored.
Qed.

Lemma fold_process_first :
  forall uids stats st,
    grows st
      (snd (fold_left
              (EmailSyncService.process rt first lower parse mailbox listeners options)
              uids (stats, st)))
    /\ Forall
         (settled
            (snd (fold_left
                    (EmailSyncService.process rt first lower parse mailbox
                       listeners options)
                    uids (stats, st))))
         uids
    /\ EmailSyncService.errors
         (fst (fold_left
                 (EmailSyncService.process rt first lower parse mailbox listeners
                    options)
                 uids (stats, st)))
       = EmailSyncService.errors stats + failures uids.
Proof.
  induction uids as [|uid rest IH]; intros stats st.
  - cbn. split; [intros m H; exact H|]. split; [constructor|].
    unfold Spec.failures. cbn. lia.
  - cbn [fold_left].
    destruct (process_first stats st uid) as [Hg [Hs He]].
    destruct (EmailSyncService.process rt first lower parse mailbox listeners
                options (stats, st) uid) as [stats1 st1].
    cbn [fst snd] in Hg, Hs, He.
    destruct (IH stats1 st1) as [Hg' [Hs' He']].
    split; [intros m H; apply Hg', Hg, H|].
    split.
    + constructor; [|exact Hs'].
      apply (settled_grows st1 _ uid Hg' Hs).
    + rewrite He', He. unfold Spec.failures. cbn [filter].
      destruct (Spec.fetch_fails mailbox uid); cbn [List.length]; lia.
Qed.

(** The second run, one settled UID: the state is left as it is, and the
    UID is counted as failed when its fetch fails and as skipped
    otherwise. *)
Lemma process_second :
  forall stats st uid,
    settled st uid ->
    EmailSyncService.process rt second lower parse mailbox listeners options
      (stats, st) uid
    = (if Spec.fetch_fails mailbox uid
       then EmailSyncService.count_error stats
       else EmailSyncService.count_skipped stats, st).
Proof.
  intros stats st uid. unfold Spec.settled, EmailSyncService.process, Spec.fetch_fails.
  destruct (EmailSyncService.fetchEmail mailbox uid) as [rawEmail|e]; [|reflexivity].
  intros [m [Hm Hcase]]. unfold EmailSyncService.existing. rewrite Hm.
  unfold Spec.stored in Hcase.
  destruct (Store.select_by_message_id m (EmailSyncService.database st)); [reflexivity|].
  destruct Hcase as [H|H]; [discriminate|]. rewrite H. reflexivity.
Qed.

Lemma fold_process_second :
  forall uids stats st,
    Forall (settled st) uids ->
    fold_left
      (EmailSyncService.process rt second lower parse mailbox listeners options)
      uids (stats, st)
    = ({| EmailSyncService.synced := EmailSyncService.synced stats;
          EmailSyncService.skipped :=
            EmailSyncService.skipped stats
            + (Z.of_nat (List.length uids) - failures uids);
          EmailSyncService.errors := EmailSyncService.errors stats + failures uids |},
       st).
Proof.
  induction uids as [|uid rest IH]; intros stats st Hall.
  - unfold Spec.failures. cbn. f_equal. apply stats_eq; cbn; lia.
  - inversion Hall as [|u r Hu Hr]; subst.
    cbn [fold_left]. rewrite (process_second stats st uid Hu), (IH _ st Hr).
    unfold Spec.failures. cbn [filter].
    destruct (Spec.fetch_fails mailbox uid); f_equal; apply stats_eq;
      cbn [EmailSyncService.synced EmailSyncService.skipped EmailSyncService.errors
           EmailSyncService.count_error EmailSyncService.count_skipped List.length];
      lia.
Qed.

End SyncTwice.

(** A fetched message whose message-id is stored is skipped: the skipped
    counter moves by one, the store is as before and nothing is
    dispatched. *)
Lemma process_stored_message :
  forall rt clk lower parse mailbox listeners options stats st uid rawEmail m,
    EmailSyncService.fetchEmail mailbox uid = Returned rawEmail ->
    EmailSyncService.raw_messageId rawEmail = Some m ->
    Spec.stored m (EmailSyncService.database st) = true ->
    EmailSyncService.process rt clk lower parse mailbox listeners options
      (stats, st) uid
    = (EmailSyncService.count_skipped stats, st).
Proof.
  intros rt clk lower parse mailbox listeners options stats st uid rawEmail m
         Hfetch Hm Hstored.
  unfold EmailSyncService.process, EmailSyncService.existing.
  rewrite Hfetch, Hm. unfold Spec.stored in Hstored.
  destruct (Store.select_by_message_id m (EmailSyncService.database st));
    [reflexivity|discriminate].
Qed.

(** C2, as stated, fails for a message without a Message-ID header: the
    first run stores it under an id made of its UID and the time, the
    second run finds no stored row for it and stores it again. *)
Lemma second_sync_stores_message_without_id_again :
  fst (Sample.sync Sample.clk Sample.one_without_id (Sample.with_limit None)
         Sample.fresh)
  = Returned {| EmailSyncService.synced := 1; EmailSyncService.skipped := 0;
                EmailSyncService.errors := 0 |}
  /\ fst (Sample.sync Sample.later Sample.one_without_id (Sample.with_limit None)
            (snd (Sample.sync Sample.clk Sample.one_without_id
                    (Sample.with_limit None) Sample.fresh)))
     = Returned {| EmailSyncService.synced := 1; EmailSyncService.skipped := 0;
                   EmailSyncService.errors := 0 |}
  /\ map Store.message_id
       (Store.emails
          (EmailSyncService.database
             (snd (Sample.sync Sample.clk Sample.one_without_id
                     (Sample.with_limit None) Sample.fresh))))
     = ["7-1000"]
  /\ map Store.message_id
       (Store.emails
          (EmailSyncService.database
             (snd (Sample.sync Sample.later Sample.one_without_id
                     (Sample.with_limit None)
                     (snd (Sample.sync Sample.clk Sample.one_without_id
                             (Sample.with_limit None) Sample.fresh))))))
     = ["7-1000"; "7-2000"].
Proof.
  repeat split; vm_compute; reflexivity.
Qed.

(** C2, amended: for every sync run and every fetched message whose
    message-id already exists in the store, [syncEmails] increments the
    skipped counter, inserts and modifies no row and dispatches no
    [email_received] event for it; hence, when every message that can be
    fetched carries a Message-ID (and the listeners delete nothing and
    the search returns the same UIDs), running the same sync a second
    time yields synced = 0, skips what the first run synced or skipped,
    fails where the first run failed, and leaves the store unchanged. *)
Theorem second_sync_skips_stored :
  forall (rt : DateApi) (first second : Store.Clock) (lower : string -> string)
         (parse : string -> list EmailSyncService.ParsedAddress)
         (thirty : Date -> Date) (mailbox : EmailSyncService.EmailSearcher)
         (listeners : option (Types.Email -> Store.Database -> Store.Database))
         (options : EmailSyncService.SyncOptions)
         (st0 st1 : EmailSyncService.State) (stats1 : EmailSyncService.Stats),
    (forall uid rawEmail,
        EmailSyncService.fetchEmail mailbox uid = Returned rawEmail ->
        truthy (EmailSyncService.raw_messageId rawEmail) = true) ->
    (forall checkEvent,
        listeners = Some checkEvent ->
        forall email db m,
          Spec.stored m db = true -> Spec.stored m (checkEvent email db) = true) ->
    EmailSyncService.searchEmails mailbox
      (EmailSyncService.build_criteria second thirty options)
    = EmailSyncService.searchEmails mailbox
        (EmailSyncService.build_criteria first thirty options) ->
    EmailSyncService.syncEmails rt first lower parse thirty mailbox listeners
      options st0 = (Returned stats1, st1) ->
    (forall clk stats st uid rawEmail m,
        EmailSyncService.fetchEmail mailbox uid = Returned rawEmail ->
        EmailSyncService.raw_messageId rawEmail = Some m ->
        Spec.stored m (EmailSyncService.database st) = true ->
        EmailSyncService.process rt clk lower parse mailbox listeners options
          (stats, st) uid
        = (EmailSyncService.count_skipped stats, st))
    /\ EmailSyncService.syncEmails rt second lower parse thirty mailbox listeners
         options st1
       = (Returned
            {| EmailSyncService.synced := 0;
               EmailSyncService.skipped :=
                 EmailSyncService.synced stats1 + EmailSyncService.skipped stats1;
               EmailSyncService.errors := EmailSyncService.errors stats1 |},
          st1).
Proof.
  intros rt first second lower parse thirty mailbox listeners options st0 st1
         stats1 Hids Hkeep Hsearch Hrun.
  split.
  { intros clk stats st uid rawEmail m. apply process_stored_message. }
  revert Hrun. unfold EmailSyncService.syncEmails. rewrite Hsearch.
  destruct (EmailSyncService.connect mailbox); [discriminate|].
  match goal with
  | |- context [match ?o with Some _ => (Thrown _, _) | None => _ end] =>
      destruct o
  end; [discriminate|].
  clear Hsearch.
  destruct (EmailSyncService.searchEmails mailbox _) as [uids|e];
    [|intro H; discriminate H].
  set (zero := {| EmailSyncService.synced := 0; EmailSyncService.skipped := 0;
                  EmailSyncService.errors := 0 |}).
  pose proof (fold_process_first rt first lower parse mailbox listeners options
                Hids Hkeep (EmailSyncService.uidsToProcess options uids) zero st0)
    as [_ [Hsettled Herrors]].
  pose proof (fold_process_total rt first lower parse mailbox listeners options
                (EmailSyncService.uidsToProcess options uids) (zero, st0))
    as Htotal.
  destruct (fold_left _ _ (zero, st0)) as [stats st].
  cbn [fst snd] in Hsettled, Herrors, Htotal.
  intro H. injection H as Hs Hst. subst stats st.
  rewrite (fold_process_second rt second lower parse mailbox listeners options
             _ zero st1 Hsettled).
  f_equal. f_equal. apply stats_eq; cbn; unfold Spec.total in Htotal;
    cbn in Htotal, Herrors; lia.
Qed.

Lemma second_sync_skips_stored_witness :
  (forall uid rawEmail,
      EmailSyncService.fetchEmail Sample.one_with_id uid = Returned rawEmail ->
      truthy (EmailSyncService.raw_messageId rawEmail) = true)
  /\ fst (Sample.sync_and_dispatch Sample.clk Sample.one_with_id
            (Sample.with_limit None) Sample.fresh)
     = Returned {| EmailSyncService.synced := 1; EmailSyncService.skipped := 0;
                   EmailSyncService.errors := 0 |}
  /\ Sample.sync_and_dispatch Sample.later Sample.one_with_id
       (Sample.with_limit None)
       (snd (Sample.sync_and_dispatch Sample.clk Sample.one_with_id
               (Sample.with_limit None) Sample.fresh))
     = (Returned {| EmailSyncService.synced := 0; EmailSyncService.skipped := 1;
                    EmailSyncService.errors := 0 |},
        snd (Sample.sync_and_dispatch Sample.clk Sample.one_with_id
               (Sample.with_limit None) Sample.fresh)).
Proof.
  assert (Hids : forall uid rawEmail,
             EmailSyncService.fetchEmail Sample.one_with_id uid = Returned rawEmail ->
             truthy (EmailSyncService.raw_messageId rawEmail) = true).
  { intros uid rawEmail. cbn. destruct (uid =? 7); intro H.
    - injection H as H. subst rawEmail. reflexivity.
    - discriminate H. }
  assert (Hkeep : forall checkEvent,
             Some Sample.dispatcher = Some checkEvent ->
             forall (email : Types.Email) (db : Store.Database) (m : string),
               Spec.stored m db = true -> Spec.stored m (checkEvent email db) = true).
  { intros checkEvent H email db m Hm. injection H as H. subst checkEvent.
    exact Hm. }
  assert (Hrun : EmailSyncService.syncEmails Sample.rt Sample.clk Sample.lower
                   Sample.parse Sample.thirty_days_before Sample.one_with_id
                   (Some Sample.dispatcher)
                   (Sample.with_limit None) Sample.fresh
                 = (Returned {| EmailSyncService.synced := 1;
                                EmailSyncService.skipped := 0;
                                EmailSyncService.errors := 0 |},
                    snd (Sample.sync_and_dispatch Sample.clk Sample.one_with_id
                           (Sample.with_limit None) Sample.fresh))).
  { vm_compute. reflexivity. }
  split; [exact Hids|].
  split; [vm_compute; reflexivity|].
  exact (proj2 (second_sync_skips_stored Sample.rt Sample.clk Sample.later
                  Sample.lower Sample.parse Sample.thirty_days_before
                  Sample.one_with_id (Some Sample.dispatcher)
                  (Sample.with_limit None) Sample.fresh
                  _ _ Hids Hkeep eq_refl Hrun)).
Defined.

(** ** The context: coherence of the local mirror and the remote mailbox *)

Section ContextFacts.

Import ListenersManager.
Import Contract.

Context {DB Remote : Type}.
Context {dbm : DatabaseManagerApi DB} {imap : ImapManagerApi Remote}.

Ltac run_context_op :=
  unfold archiveEmail, starEmail, unstarEmail, markAsRead, markAsUnread,
    addLabel, removeLabel, try_catch, bind, resolve, read_db, ret, throw,
    console_log, console_error, await_imap, write_db, usable_uid;
  cbn.

(** What an email operation of the context does, case by case on the
    lookup, the UID and the outcome of the remote action. *)
Lemma perform_cases :
  forall (op : Operation) (emailId : string) (w : World DB Remote),
    match db_getEmailByMessageId emailId (db w) with
    | Some email =>
        match usable_uid email with
        | Some uid =>
            match remote_action op uid (DatabaseManager.folder email) (remote w) with
            | (Some error, remote') =>
                fst (perform op emailId w) = Thrown error
                /\ db (snd (perform op emailId w)) = db w
                /\ remote (snd (perform op emailId w)) = remote'
            | (None, remote') =>
                fst (perform op emailId w) = Returned tt
                /\ db (snd (perform op emailId w))
                   = local_mutation op email emailId (db w)
                /\ remote (snd (perform op emailId w)) = remote'
            end
        | None =>
            (exists error, fst (perform op emailId w) = Thrown error)
            /\ db (snd (perform op emailId w)) = db w
            /\ remote (snd (perform op emailId w)) = remote w
        end
    | None =>
        (exists error, fst (perform op emailId w) = Thrown error)
        /\ db (snd (perform op emailId w)) = db w
        /\ remote (snd (perform op emailId w)) = remote w
    end.
Proof.
  intros op emailId w.
  destruct op; cbn [perform remote_action local_mutation]; run_context_op;
    (destruct (db_getEmailByMessageId emailId (db w)) as [email|];
     [|cbn; repeat split; eauto]);
    (destruct (DatabaseManager.imapUid email) as [uid|];
     [|cbn; repeat split; eauto]);
    (destruct (truthy_num uid); [|cbn; repeat split; eauto]);
    cbn;
    match goal with
    | |- context [?call (remote w)] =>
        destruct (call (remote w)) as [[error|] remote']
    end;
    cbn; try (repeat split; reflexivity).
  all: unfold current_labels;
    destruct (includes _ _); cbn; repeat split; reflexivity.
Qed.

End ContextFacts.

(** C1: for every email operation of the context and every message-id,
    the operation throws and leaves the store (and the remote mailbox)
    as they are when no stored email has the message-id or the stored
    email has no usable UID; otherwise the remote action runs first: if
    it fails, its error is thrown to the caller and the store is as
    before, and only if it succeeds is the local mutation applied, through
    [updateEmailFlags]. *)
Theorem context_operation_coherent :
  forall (DB Remote : Type)
         (dbm : ListenersManager.DatabaseManagerApi DB)
         (imap : ListenersManager.ImapManagerApi Remote)
         (op : Contract.Operation) (emailId : string)
         (w : ListenersManager.World DB Remote),
    ((ListenersManager.db_getEmailByMessageId emailId (ListenersManager.db w) = None
      \/ exists email,
           ListenersManager.db_getEmailByMessageId emailId (ListenersManager.db w)
           = Some email
           /\ Contract.usable_uid email = None) ->
     (exists error, fst (Contract.perform op emailId w) = Thrown error)
     /\ ListenersManager.db (snd (Contract.perform op emailId w))
        = ListenersManager.db w
     /\ ListenersManager.remote (snd (Contract.perform op emailId w))
        = ListenersManager.remote w)
    /\ (forall email uid error remote',
          ListenersManager.db_getEmailByMessageId emailId (ListenersManager.db w)
          = Some email ->
          Contract.usable_uid email = Some uid ->
          Contract.remote_action op uid (DatabaseManager.folder email)
            (ListenersManager.remote w) = (Some error, remote') ->
          fst (Contract.perform op emailId w) = Thrown error
          /\ ListenersManager.db (snd (Contract.perform op emailId w))
             = ListenersManager.db w
          /\ ListenersManager.remote (snd (Contract.perform op emailId w)) = remote')
    /\ (forall email uid remote',
          ListenersManager.db_getEmailByMessageId emailId (ListenersManager.db w)
          = Some email ->
          Contract.usable_uid email = Some uid ->
          Contract.remote_action op uid (DatabaseManager.folder email)
            (ListenersManager.remote w) = (None, remote') ->
          fst (Contract.perform op emailId w) = Returned tt
          /\ ListenersManager.db (snd (Contract.perform op emailId w))
             = Contract.local_mutation op email emailId (ListenersManager.db w)
          /\ ListenersManager.remote (snd (Contract.perform op emailId w)) = remote').
Proof.
  intros DB Remote dbm imap op emailId w.
  pose proof (perform_cases op emailId w) as H.
  split; [|split].
  - intros [Hnone|[email [Hsome Huid]]].
    + rewrite Hnone in H. exact H.
    + rewrite Hsome, Huid in H. exact H.
  - intros email uid error remote' Hsome Huid Hremote.
    rewrite Hsome, Huid, Hremote in H. exact H.
  - intros email uid remote' Hsome Huid Hremote.
    rewrite Hsome, Huid, Hremote in H. exact H.
Qed.

(** ** The context: [addLabel] *)

Lemma includes_false :
  forall (labels : list string) (label : string),
    ListenersManager.includes labels label = false -> ~ In label labels.
Proof.
  intros labels label H Hin. unfold ListenersManager.includes in H.
  assert (Htrue : existsb (String.eqb label) labels = true).
  { apply existsb_exists. exists label. split; [exact Hin|apply String.eqb_refl]. }
  rewrite Htrue in H. discriminate H.
Qed.

Lemma NoDup_snoc :
  forall (labels : list string) (label : string),
    NoDup labels -> ~ In label labels -> NoDup (labels ++ [label]).
Proof.
  intros labels label Hnd Hnin. induction Hnd as [|x l Hx Hl IH]; cbn.
  - constructor; [intros []|constructor].
  - constructor.
    + intro Hin. apply in_app_or in Hin. destruct Hin as [Hin|[Heq|[]]].
      * contradiction.
      * subst x. apply Hnin. left. reflexivity.
    + apply IH. intro Hin. apply Hnin. right. exact Hin.
Qed.

(** One call of [addLabel]: the store is as before, or it is the store
    with the stored labels followed by the label, which they did not
    hold. *)
Lemma addLabel_step :
  forall (DB Remote : Type)
         (dbm : ListenersManager.DatabaseManagerApi DB)
         (imap : ListenersManager.ImapManagerApi Remote)
         (emailId label : string) (w : ListenersManager.World DB Remote)
         (email : DatabaseManager.EmailRecord),
    ListenersManager.db_getEmailByMessageId emailId (ListenersManager.db w)
    = Some email ->
    ListenersManager.db (snd (ListenersManager.addLabel emailId label w))
    = ListenersManager.db w
    \/ (ListenersManager.includes (Contract.current_labels email) label = false
        /\ ListenersManager.db (snd (ListenersManager.addLabel emailId label w))
           = ListenersManager.db_updateEmailFlags emailId
               (ListenersManager.labels_update
                  (Contract.current_labels email ++ [label]))
               (ListenersManager.db w)).
Proof.
  intros DB Remote dbm imap emailId label w email Hsome.
  pose proof (perform_cases (Contract.AddLabel label) emailId w) as H.
  cbn [Contract.perform] in H. rewrite Hsome in H.
  destruct (Contract.usable_uid email) as [uid|]; [|left; apply H].
  destruct (Contract.remote_action _ _ _ _) as [[error|] remote']; [left; apply H|].
  destruct H as [_ [H _]]. cbn [Contract.local_mutation] in H.
  destruct (ListenersManager.includes (Contract.current_labels email) label) eqn:E.
  - left. exact H.
  - right. split; [reflexivity|exact H].
Qed.

Lemma find_map_same_test :
  forall (A : Type) (p : A -> bool) (f : A -> A) (l : list A),
    (forall a, p (f a) = p a) ->
    find p (map f l) = option_map f (find p l).
Proof.
  intros A p f l Hp. induction l as [|a l IH]; cbn; [reflexivity|].
  rewrite Hp. destruct (p a); [reflexivity|exact IH].
Qed.

(** The shipped [DatabaseManager] returns the labels that
    [updateEmailFlags] wrote. *)
Lemma databaseManager_returns_written_labels :
  forall rt clk emailId (l : list string) db email,
    DatabaseManager.getEmailByMessageId rt emailId db = Some email ->
    exists email',
      DatabaseManager.getEmailByMessageId rt emailId
        (DatabaseManager.updateEmailFlags clk emailId
           (ListenersManager.labels_update l) db) = Some email'
      /\ Contract.current_labels email' = l.
Proof.
  intros rt clk emailId l db email.
  unfold DatabaseManager.getEmailByMessageId, Store.select_by_message_id.
  rewrite updateEmailFlags_something_provided by (cbn; discriminate).
  unfold DatabaseManager.update_emails_where; cbn [Store.emails].
  rewrite find_map_same_test.
  2: { intro r. destruct (String.eqb (Store.message_id r) emailId) eqn:E; cbn;
         rewrite E; reflexivity. }
  destruct (find _ (Store.emails db)) as [row|] eqn:Hfind; [intros _|discriminate].
  apply find_some in Hfind. destruct Hfind as [_ Hhit]. cbn in Hhit.
  cbn. rewrite Hhit. eexists. split; [reflexivity|]. reflexivity.
Qed.

(** The shipped [mapRowToEmailRecord] copies no UID: a record that
    [getEmailByMessageId] returns has none, whatever the row holds. *)
Lemma getEmailByMessageId_returns_no_uid :
  forall rt emailId db email,
    DatabaseManager.getEmailByMessageId rt emailId db = Some email ->
    Contract.usable_uid email = None.
Proof.
  intros rt emailId db email. unfold DatabaseManager.getEmailByMessageId.
  destruct (Store.select_by_message_id emailId db); [|discriminate].
  intro H. injection H as H. subst email. reflexivity.
Qed.

(** The test double returns the labels that it was given. *)
Lemma in_memory_returns_written_labels :
  forall emailId l db email,
    ListenersManager.db_getEmailByMessageId (DatabaseManagerApi := Sample.in_memory)
      emailId db = Some email ->
    exists email',
      ListenersManager.db_getEmailByMessageId (DatabaseManagerApi := Sample.in_memory)
        emailId
        (ListenersManager.db_updateEmailFlags (DatabaseManagerApi := Sample.in_memory)
           emailId (ListenersManager.labels_update l) db) = Some email'
      /\ Contract.current_labels email' = l.
Proof.
  intros emailId l db email Hget. cbn in *.
  rewrite find_map_same_test.
  2: { intro e. destruct (String.eqb (DatabaseManager.messageId e) emailId) eqn:E;
         cbn; rewrite E; reflexivity. }
  rewrite Hget. cbn [option_map].
  pose proof (find_some _ _ Hget) as [_ Hhit]. cbn in Hhit. rewrite Hhit.
  eexists. split; [reflexivity|]. reflexivity.
Qed.

(** C10, as stated, fails: a stored email with a UID whose labels hold
    the label twice still holds it twice after three calls of
    [addLabel].  This is so over the shipped database manager, and also
    over one whose records carry their UID, where the first call returns.
    And a label that the mailbox refuses is never stored, however often
    [addLabel] is called. *)
Lemma addLabel_keeps_stored_duplicates :
  map Store.imap_uid (Store.emails (Sample.labelled ["x"; "x"])) = [Some 7]
  /\ map Store.labels
       (Store.emails
          (ListenersManager.db
             (Contract.after_addLabel
                (dbm := Wiring.databaseManager Sample.rt Sample.later)
                (imap := Sample.accepting)
                3 "<a@x>" "x" (Sample.world (Sample.labelled ["x"; "x"])))))
     = [Some ["x"; "x"]]
  /\ count_occ string_dec ["x"; "x"] "x" = 2%nat
  /\ fst (ListenersManager.addLabel (dbm := Sample.in_memory)
            (imap := Sample.accepting) "<a@x>" "x"
            (Sample.memory_world ["x"; "x"]))
     = Returned tt
  /\ map DatabaseManager.labels
       (ListenersManager.db
          (Contract.after_addLabel (dbm := Sample.in_memory)
             (imap := Sample.accepting) 3 "<a@x>" "x"
             (Sample.memory_world ["x"; "x"])))
     = [Some ["x"; "x"]]
  /\ map DatabaseManager.labels
       (ListenersManager.db
          (Contract.after_addLabel (dbm := Sample.in_memory)
             (imap := Sample.refusing) 3 "<a@x>" "urgent"
             (Sample.memory_world ["work"])))
     = [Some ["work"]].
Proof.
  repeat split; vm_compute; reflexivity.
Qed.

(** Whatever the calls of [addLabel] return or throw, stored labels
    without duplicates stay without duplicates, and labels that hold the
    label are not written again. *)
Lemma after_addLabel_keeps_distinct :
  forall (DB Remote : Type)
         (dbm : ListenersManager.DatabaseManagerApi DB)
         (imap : ListenersManager.ImapManagerApi Remote),
    (forall emailId l db email,
        ListenersManager.db_getEmailByMessageId emailId db = Some email ->
        exists email',
          ListenersManager.db_getEmailByMessageId emailId
            (ListenersManager.db_updateEmailFlags emailId
               (ListenersManager.labels_update l) db) = Some email'
          /\ Contract.current_labels email' = l) ->
    forall (n : nat) (emailId label : string)
           (w : ListenersManager.World DB Remote)
           (email : DatabaseManager.EmailRecord),
      ListenersManager.db_getEmailByMessageId emailId (ListenersManager.db w)
      = Some email ->
      NoDup (Contract.current_labels email) ->
      exists email',
        ListenersManager.db_getEmailByMessageId emailId
          (ListenersManager.db (Contract.after_addLabel n emailId label w))
        = Some email'
        /\ NoDup (Contract.current_labels email')
        /\ (count_occ string_dec (Contract.current_labels email') label <= 1)%nat
        /\ (ListenersManager.includes (Contract.current_labels email) label = true ->
            ListenersManager.db (Contract.after_addLabel n emailId label w)
            = ListenersManager.db w).
Proof.
  intros DB Remote dbm imap Hlaw n emailId label.
  induction n as [|n IH]; intros w email Hsome Hnd.
  - cbn. exists email. split; [exact Hsome|]. split; [exact Hnd|].
    split; [|reflexivity].
    apply (proj1 (NoDup_count_occ string_dec _) Hnd).
  - cbn [Contract.after_addLabel].
    destruct (addLabel_step DB Remote dbm imap emailId label w email Hsome)
      as [Hsame|[Habsent Hwritten]].
    + rewrite <- Hsame in Hsome.
      destruct (IH _ email Hsome Hnd) as [email' [H1 [H2 [H3 H4]]]].
      exists email'. repeat split; try assumption.
      intro Hinc. rewrite (H4 Hinc). exact Hsame.
    + destruct (Hlaw emailId (Contract.current_labels email ++ [label])
                  (ListenersManager.db w) email Hsome) as [email1 [Hget Hlabels]].
      rewrite <- Hwritten in Hget.
      assert (Hnd1 : NoDup (Contract.current_labels email1)).
      { rewrite Hlabels. apply NoDup_snoc; [exact Hnd|].
        apply includes_false. exact Habsent. }
      destruct (IH _ email1 Hget Hnd1) as [email' [H1 [H2 [H3 _]]]].
      exists email'. repeat split; try assumption.
      intro Hinc. rewrite Hinc in Habsent. discriminate Habsent.
Qed.

Lemma includes_snoc :
  forall (labels : list string) (label : string),
    ListenersManager.includes (labels ++ [label]) label = true.
Proof.
  intros labels label. unfold ListenersManager.includes.
  rewrite existsb_app. cbn. rewrite String.eqb_refl.
  rewrite orb_false_r. apply orb_true_r.
Qed.

Lemma includes_In :
  forall (labels : list string) (label : string),
    ListenersManager.includes labels label = true -> In label labels.
Proof.
  intros labels label H. unfold ListenersManager.includes in H.
  apply existsb_exists in H. destruct H as [l [Hin Heq]].
  apply String.eqb_eq in Heq. subst l. exact Hin.
Qed.

(** A call of [addLabel] that the mailbox accepts, for an email whose
    lookup gives a usable UID: it returns, and the labels read back are
    the stored ones when they hold the label and the stored ones followed
    by the label otherwise. *)
Lemma addLabel_accepted :
  forall (DB Remote : Type)
         (dbm : ListenersManager.DatabaseManagerApi DB)
         (imap : ListenersManager.ImapManagerApi Remote),
    (forall emailId l db email,
        ListenersManager.db_getEmailByMessageId emailId db = Some email ->
        exists email',
          ListenersManager.db_getEmailByMessageId emailId
            (ListenersManager.db_updateEmailFlags emailId
               (ListenersManager.labels_update l) db) = Some email'
          /\ Contract.current_labels email' = l) ->
    forall (emailId label : string) (w : ListenersManager.World DB Remote)
           (email : DatabaseManager.EmailRecord) (uid : Z) (remote' : Remote),
      ListenersManager.db_getEmailByMessageId emailId (ListenersManager.db w)
      = Some email ->
      Contract.usable_uid email = Some uid ->
      ListenersManager.imap_addLabel uid label (DatabaseManager.folder email)
        (ListenersManager.remote w) = (None, remote') ->
      fst (ListenersManager.addLabel emailId label w) = Returned tt
      /\ exists email1,
           ListenersManager.db_getEmailByMessageId emailId
             (ListenersManager.db (snd (ListenersManager.addLabel emailId label w)))
           = Some email1
           /\ Contract.current_labels email1
              = (if ListenersManager.includes (Contract.current_labels email) label
                 then Contract.current_labels email
                 else Contract.current_labels email ++ [label]).
Proof.
  intros DB Remote dbm imap Hlaw emailId label w email uid remote'
         Hsome Huid Hremote.
  pose proof (perform_cases (Contract.AddLabel label) emailId w) as H.
  cbn [Contract.perform Contract.remote_action] in H.
  rewrite Hsome, Huid, Hremote in H. destruct H as [Hret [Hdb _]].
  split; [exact Hret|]. rewrite Hdb. cbn [Contract.local_mutation].
  destruct (ListenersManager.includes (Contract.current_labels email) label).
  - exists email. split; [exact Hsome|reflexivity].
  - destruct (Hlaw emailId (Contract.current_labels email ++ [label])
                (ListenersManager.db w) email Hsome) as [email1 [Hget Hlabels]].
    exists email1. split; [exact Hget|exact Hlabels].
Qed.

(** C10, amended: for every stored email and every label L, a call of
    [addLabel] leaves the stored labels as they are when they hold L
    already ([updateEmailFlags] is not called), and otherwise writes
    them followed by L, once the remote action has succeeded.  Hence,
    over a database manager that returns the labels it wrote and for
    stored labels without duplicates: after any number of
    [addLabel(id, L)] calls, whatever they returned, the labels are
    without duplicates, and the store is as it was when they held L
    before; and after one or more calls, the first of which found a
    usable UID and was accepted by the mailbox, the labels are the
    former ones, followed by L unless they held it, and hold L exactly
    once. *)
Theorem addLabel_adds_no_duplicate :
  forall (DB Remote : Type)
         (dbm : ListenersManager.DatabaseManagerApi DB)
         (imap : ListenersManager.ImapManagerApi Remote),
    (forall emailId l db email,
        ListenersManager.db_getEmailByMessageId emailId db = Some email ->
        exists email',
          ListenersManager.db_getEmailByMessageId emailId
            (ListenersManager.db_updateEmailFlags emailId
               (ListenersManager.labels_update l) db) = Some email'
          /\ Contract.current_labels email' = l) ->
    forall (n : nat) (emailId label : string)
           (w : ListenersManager.World DB Remote)
           (email : DatabaseManager.EmailRecord),
      ListenersManager.db_getEmailByMessageId emailId (ListenersManager.db w)
      = Some email ->
      NoDup (Contract.current_labels email) ->
      (exists email',
         ListenersManager.db_getEmailByMessageId emailId
           (ListenersManager.db (Contract.after_addLabel n emailId label w))
         = Some email'
         /\ NoDup (Contract.current_labels email')
         /\ (count_occ string_dec (Contract.current_labels email') label <= 1)%nat
         /\ (ListenersManager.includes (Contract.current_labels email) label = true ->
             ListenersManager.db (Contract.after_addLabel n emailId label w)
             = ListenersManager.db w))
      /\ (forall (uid : Z) (remote' : Remote),
            Contract.usable_uid email = Some uid ->
            ListenersManager.imap_addLabel uid label (DatabaseManager.folder email)
              (ListenersManager.remote w) = (None, remote') ->
            fst (ListenersManager.addLabel emailId label w) = Returned tt
            /\ exists email',
                 ListenersManager.db_getEmailByMessageId emailId
                   (ListenersManager.db
                      (Contract.after_addLabel (S n) emailId label w))
                 = Some email'
                 /\ Contract.current_labels email'
                    = (if ListenersManager.includes
                            (Contract.current_labels email) label
                       then Contract.current_labels email
                       else Contract.current_labels email ++ [label])
                 /\ NoDup (Contract.current_labels email')
                 /\ count_occ string_dec (Contract.current_labels email') label
                    = 1%nat).
Proof.
  intros DB Remote dbm imap Hlaw n emailId label w email Hsome Hnd.
  split.
  { apply (after_addLabel_keeps_distinct DB Remote dbm imap Hlaw); assumption. }
  intros uid remote' Huid Hremote.
  destruct (addLabel_accepted DB Remote dbm imap Hlaw emailId label w email uid
              remote' Hsome Huid Hremote) as [Hret [email1 [Hget1 Hlabels1]]].
  split; [exact Hret|].
  assert (Hinc1 : ListenersManager.includes (Contract.current_labels email1) label
                  = true).
  { rewrite Hlabels1.
    destruct (ListenersManager.includes (Contract.current_labels email) label)
      eqn:E; [exact E|apply includes_snoc]. }
  assert (Hnd1 : NoDup (Contract.current_labels email1)).
  { rewrite Hlabels1.
    destruct (ListenersManager.includes (Contract.current_labels email) label)
      eqn:E; [exact Hnd|].
    apply NoDup_snoc; [exact Hnd|apply includes_false; exact E]. }
  cbn [Contract.after_addLabel].
  destruct (after_addLabel_keeps_distinct DB Remote dbm imap Hlaw n emailId label
              (snd (ListenersManager.addLabel emailId label w)) email1 Hget1 Hnd1)
    as [email' [Hget' [_ [_ Hsame]]]].
  rewrite (Hsame Hinc1) in Hget'. rewrite Hget1 in Hget'.
  injection Hget' as Heq. subst email'.
  exists email1. rewrite (Hsame Hinc1).
  split; [exact Hget1|]. split; [exact Hlabels1|]. split; [exact Hnd1|].
  pose proof (proj1 (NoDup_count_occ string_dec _) Hnd1 label) as Hle.
  pose proof (proj1 (count_occ_In string_dec _ label)
                (includes_In _ _ Hinc1)) as Hpos.
  lia.
Qed.

Lemma addLabel_adds_no_duplicate_witness :
  NoDup ["work"]
  /\ fst (ListenersManager.addLabel (dbm := Sample.in_memory)
            (imap := Sample.accepting) "<a@x>" "urgent"
            (Sample.memory_world ["work"]))
     = Returned tt
  /\ exists email',
       ListenersManager.db_getEmailByMessageId
         (DatabaseManagerApi := Sample.in_memory) "<a@x>"
         (ListenersManager.db
            (Contract.after_addLabel (dbm := Sample.in_memory)
               (imap := Sample.accepting) 3 "<a@x>" "urgent"
               (Sample.memory_world ["work"])))
       = Some email'
       /\ Contract.current_labels email' = ["work"; "urgent"]
       /\ count_occ string_dec (Contract.current_labels email') "urgent" = 1%nat.
Proof.
  assert (Hnd : NoDup ["work"]).
  { constructor; [intros []|constructor]. }
  split; [exact Hnd|].
  destruct (addLabel_adds_no_duplicate
              (list DatabaseManager.EmailRecord) unit Sample.in_memory
              Sample.accepting in_memory_returns_written_labels
              2 "<a@x>" "urgent" (Sample.memory_world ["work"])
              (Sample.with_uid 7
                 (Sample.apply_updates
                    (ListenersManager.labels_update ["work"])
                    (DatabaseManager.mapRowToEmailRecord Sample.rt
                       (EmailDatabase.inserted_row Sample.rt Sample.clk
                          (Sample.synced_record "<a@x>" None) [] 1))))
              eq_refl Hnd)
    as [_ Hwritten].
  destruct (Hwritten 7 tt eq_refl eq_refl) as [Hret [email' [H1 [H2 [_ H4]]]]].
  split; [exact Hret|].
  exists email'. split; [exact H1|]. split; [exact H2|exact H4].
Defined.

(** ** The dispatcher *)

Section DispatcherFacts.

Import ListenersManager.

Context {DB Remote : Type}.
Context {dbm : DatabaseManagerApi DB} {imap : ImapManagerApi Remote}.
Context (rt : DateApi) (clk : Store.Clock) (Data : Type).
Context (this : Manager DB Remote Data) (data : Data).

(** The body of the loop never throws: it returns, having run the
    handler and printed one line. *)
Lemma invoke_returns :
  forall (listener : ListenerModule DB Remote Data) (w : World DB Remote),
    invoke rt clk this data listener w
    = (Returned tt, Contract.after_handler rt clk Data this data listener w).
Proof.
  intros listener w.
  unfold invoke, Contract.after_handler, try_catch, bind, console_log,
    console_error.
  destruct (handler listener data (createContext rt clk this (config listener)) w)
    as [[[]|error] w']; reflexivity.
Qed.

(** The loop runs the body for every listener of the list, in order,
    each on the world that the one before left. *)
Lemma for_of_invoke :
  forall (matching : list (ListenerModule DB Remote Data)) (w : World DB Remote),
    for_of matching (invoke rt clk this data) w
    = (Returned tt,
       fold_left
         (fun w listener => Contract.after_handler rt clk Data this data listener w)
         matching w).
Proof.
  induction matching as [|listener rest IH]; intro w.
  - reflexivity.
  - cbn [for_of fold_left]. unfold bind at 1. rewrite invoke_returns. apply IH.
Qed.

End DispatcherFacts.

(** C3: for every event kind and payload, [checkEvent] returns and never
    throws; the world it leaves is the one obtained by running, for each
    matching listener in turn, its handler with a context made for that
    listener on the world that the previous handler left behind,
    whether that one returned or threw, a throw being logged. *)
Theorem checkEvent_never_raises :
  forall (DB Remote : Type)
         (dbm : ListenersManager.DatabaseManagerApi DB)
         (imap : ListenersManager.ImapManagerApi Remote)
         (rt : DateApi) (clk : Store.Clock) (Data : Type)
         (this : ListenersManager.Manager DB Remote Data)
         (event : Types.EventType) (data : Data)
         (w : ListenersManager.World DB Remote),
    fst (ListenersManager.checkEvent rt clk this event data w) = Returned tt
    /\ snd (ListenersManager.checkEvent rt clk this event data w)
       = fold_left
           (fun w listener =>
              Contract.after_handler rt clk Data this data listener w)
           (ListenersManager.matchingListeners this event)
           (Contract.announced Data this event w).
Proof.
  intros DB Remote dbm imap rt clk Data this event data w.
  unfold ListenersManager.checkEvent, Contract.announced.
  destruct (ListenersManager.matchingListeners this event) as [|listener rest].
  - split; reflexivity.
  - unfold ListenersManager.bind, ListenersManager.console_log.
    cbv beta iota. rewrite for_of_invoke. split; reflexivity.
Qed.

(** The scenario "failure isolation": of two listeners on
    [email_received] the first throws; its failure is printed, and the
    second still runs and its notification reaches the host. *)
Example checkEvent_isolates_failure :
  fst (ListenersManager.checkEvent
         (dbm := Wiring.databaseManager Sample.rt Sample.later)
         (imap := Sample.accepting)
         Sample.rt Sample.clk Sample.two_listeners Types.email_received
         Sample.message (Sample.world Store.empty))
  = Returned tt
  /\ map Types.n_listenerId
       (ListenersManager.notifications
          (snd (ListenersManager.checkEvent
                  (dbm := Wiring.databaseManager Sample.rt Sample.later)
                  (imap := Sample.accepting)
                  Sample.rt Sample.clk Sample.two_listeners Types.email_received
                  Sample.message (Sample.world Store.empty))))
     = ["L2"]
  /\ In (ListenersManager.LogError "[ListenersManager] L1 failed:"
           (Some (mkError "boom")))
        (ListenersManager.console
           (snd (ListenersManager.checkEvent
                   (dbm := Wiring.databaseManager Sample.rt Sample.later)
                   (imap := Sample.accepting)
                   Sample.rt Sample.clk Sample.two_listeners Types.email_received
                   Sample.message (Sample.world Store.empty)))).
Proof.
  split; [vm_compute; reflexivity|].
  split; [vm_compute; reflexivity|].
  vm_compute. right. left. reflexivity.
Qed.

(** ** The listener registry *)

Section RegistryFacts.

Import ListenersManager.

Context {DB Remote : Type} (Data : Type).

Local Abbreviation Module_ := (ListenerModule DB Remote Data).

(** Registering a module under its id. *)
Local Abbreviation register :=
  (fun (m : Registry DB Remote Data) (l : Module_) =>
     map_set (Types.id (config l)) l m).

Lemma map_set_new :
  forall (key : string) (value : Module_) (m : Registry DB Remote Data),
    ~ In key (map fst m) -> map_set key value m = m ++ [(key, value)].
Proof.
  intros key value m. induction m as [|[k v] rest IH]; cbn; intro Hnew.
  - reflexivity.
  - destruct (String.eqb k key) eqn:E.
    + apply String.eqb_eq in E. exfalso. apply Hnew. left. exact E.
    + rewrite IH; [reflexivity|]. intro Hin. apply Hnew. right. exact Hin.
Qed.

Lemma register_all_new :
  forall (ms : list Module_) (m : Registry DB Remote Data),
    NoDup (map fst m ++ map (fun l => Types.id (config l)) ms) ->
    fold_left register ms m
    = m ++ map (fun l => (Types.id (config l), l)) ms.
Proof.
  induction ms as [|l rest IH]; intros m Hnd; cbn.
  - rewrite app_nil_r. reflexivity.
  - cbn in Hnd. rewrite map_set_new.
    + rewrite IH.
      * rewrite <- app_assoc. reflexivity.
      * rewrite map_app. cbn. rewrite <- app_assoc. exact Hnd.
    + apply NoDup_remove_2 in Hnd. intro Hin. apply Hnd.
      apply in_or_app. left. exact Hin.
Qed.

Lemma qualifying_cons :
  forall (dir : Directory DB Remote Data) (file : string) (rest : list string),
    Contract.qualifying Data dir (file :: rest)
    = Contract.qualifying Data dir [file] ++ Contract.qualifying Data dir rest.
Proof.
  intros dir file rest. unfold Contract.qualifying. cbn [flat_map].
  rewrite app_nil_r. reflexivity.
Qed.

(** One file of the listing registers what it contributes. *)
Lemma loader_step :
  forall (dir : Directory DB Remote Data) (file : string)
         (st : Manager DB Remote Data * list LogLine),
    listeners
      (fst (if is_listener_file file then loadListener dir file st else st))
    = fold_left register (Contract.qualifying Data dir [file]) (listeners (fst st)).
Proof.
  intros dir file [this out]. unfold Contract.qualifying. cbn [flat_map].
  rewrite app_nil_r. unfold loadListener.
  destruct (is_listener_file file); [|reflexivity].
  destruct (import_file dir file) as [module|error]; [|reflexivity].
  destruct (exp_config module) as [cfg|]; [|reflexivity].
  destruct (exp_handler module) as [h|]; [|reflexivity].
  destruct (Types.enabled cfg); reflexivity.
Qed.

Lemma loader_fold :
  forall (dir : Directory DB Remote Data) (files : list string)
         (st : Manager DB Remote Data * list LogLine),
    listeners
      (fst (fold_left
              (fun st file =>
                 if is_listener_file file then loadListener dir file st else st)
              files st))
    = fold_left register (Contract.qualifying Data dir files) (listeners (fst st)).
Proof.
  intros dir files. induction files as [|file rest IH]; intro st.
  - reflexivity.
  - cbn [fold_left].
    rewrite (qualifying_cons dir file rest), fold_left_app, IH, loader_step.
    reflexivity.
Qed.

(** After [loadAllListeners] over a readable directory, the registry is
    what the listing registers into an empty one. *)
Lemma loadAllListeners_registry :
  forall (dir : Directory DB Remote Data)
         (st : Manager DB Remote Data * list LogLine) (files : list string),
    readdir dir = Returned files ->
    listeners (fst (snd (loadAllListeners dir st)))
    = fold_left register (Contract.qualifying Data dir files) []
    /\ fst (loadAllListeners dir st)
       = map config (map_values (listeners (fst (snd (loadAllListeners dir st))))).
Proof.
  intros dir [this0 out] files Hread. unfold loadAllListeners. rewrite Hread.
  pose proof (loader_fold dir files (with_listeners [] this0, out)) as H.
  destruct (fold_left _ files _) as [this' out']. cbn in *.
  split; [exact H|reflexivity].
Qed.

End RegistryFacts.

(** C6, as stated, fails: two files that pass every test and export the
    same id leave one module in the registry, not one per file. *)
Lemma loadAllListeners_same_id_one_module :
  map (fun l => Types.id (ListenersManager.config l))
      (Contract.qualifying Types.Email Sample.twins ["a.ts"; "b.ts"])
  = ["dup"; "dup"]
  /\ map fst
       (ListenersManager.listeners
          (fst (snd (ListenersManager.loadAllListeners Sample.twins
                       (Sample.idle, [])))))
     = ["dup"]
  /\ List.length
       (fst (ListenersManager.loadAllListeners Sample.twins (Sample.idle, [])))
     = 1%nat.
Proof.
  repeat split; vm_compute; reflexivity.
Qed.

(** C6, amended: after every [loadAllListeners] run over a readable
    directory whose qualifying files (the [.ts] extension, a name that
    starts with neither [.] nor [_], an import that succeeds and exports
    both a config and a handler, [config.enabled] true) export pairwise
    distinct ids, the registry holds exactly one module per qualifying
    file, under its id and in the order of the listing; the other files
    contribute nothing, a file whose import throws among them, and the
    configs returned are those of the registry. *)
Theorem loadAllListeners_registers_qualifying :
  forall (DB Remote Data : Type)
         (dir : ListenersManager.Directory DB Remote Data)
         (st : ListenersManager.Manager DB Remote Data
               * list ListenersManager.LogLine)
         (files : list string),
    ListenersManager.readdir dir = Returned files ->
    NoDup (map (fun l => Types.id (ListenersManager.config l))
               (Contract.qualifying Data dir files)) ->
    ListenersManager.listeners
      (fst (snd (ListenersManager.loadAllListeners dir st)))
    = map (fun l => (Types.id (ListenersManager.config l), l))
          (Contract.qualifying Data dir files)
    /\ ListenersManager.map_values
         (ListenersManager.listeners
            (fst (snd (ListenersManager.loadAllListeners dir st))))
       = Contract.qualifying Data dir files
    /\ fst (ListenersManager.loadAllListeners dir st)
       = map (fun l => ListenersManager.config l)
             (Contract.qualifying Data dir files).
Proof.
  intros DB Remote Data dir st files Hread Hnd.
  destruct (loadAllListeners_registry Data dir st files Hread) as [Hreg Hconfigs].
  rewrite register_all_new in Hreg by exact Hnd. cbn [app] in Hreg.
  assert (Hvalues : ListenersManager.map_values
                      (ListenersManager.listeners
                         (fst (snd (ListenersManager.loadAllListeners dir st))))
                    = Contract.qualifying Data dir files).
  { rewrite Hreg. unfold ListenersManager.map_values. rewrite map_map. cbn.
    apply map_id. }
  split; [exact Hreg|]. split; [exact Hvalues|].
  rewrite Hconfigs, Hvalues. reflexivity.
Qed.

Lemma loadAllListeners_registers_qualifying_witness :
  NoDup ["boss_urgent_watcher"; "auto_archive_newsletters"]
  /\ map Types.id
       (fst (ListenersManager.loadAllListeners Sample.directory (Sample.idle, [])))
     = ["boss_urgent_watcher"; "auto_archive_newsletters"]
  /\ ListenersManager.map_values
       (ListenersManager.listeners
          (fst (snd (ListenersManager.loadAllListeners Sample.directory
                       (Sample.idle, [])))))
     = Contract.qualifying Types.Email Sample.directory
         ["urgent.ts"; "_draft.ts"; ".hidden.ts"; "notes.md";
          "broken.ts"; "half.ts"; "off.ts"; "archive.ts"].
Proof.
  assert (Hnd : NoDup ["boss_urgent_watcher"; "auto_archive_newsletters"]).
  { constructor.
    - intros [H|[]]. discriminate H.
    - constructor; [intros []|constructor]. }
  split; [exact Hnd|].
  split; [vm_compute; reflexivity|].
  exact (proj1 (proj2
           (loadAllListeners_registers_qualifying Store.Database unit Types.Email
              Sample.directory (Sample.idle, [])
              ["urgent.ts"; "_draft.ts"; ".hidden.ts"; "notes.md";
               "broken.ts"; "half.ts"; "off.ts"; "archive.ts"]
              eq_refl Hnd))).
Defined.

(** ** The mail store: the key that [upsertEmail] returns *)

Lemma find_app_none :
  forall (A : Type) (f : A -> bool) (l l' : list A),
    find f l = None -> find f (l ++ l') = find f l'.
Proof.
  intros A f l l'. induction l as [|a l IH]; cbn; [reflexivity|].
  destruct (f a); [discriminate|exact IH].
Qed.

(** [upsertEmail] returns the key of the row that holds the record's
    message-id afterwards: the key of the row that was there, or the
    next key of the table. *)
Lemma upsertEmail_returns_key :
  forall rt clk email files db,
    exists row,
      Store.select_by_message_id (DatabaseManager.messageId email)
        (fst (DatabaseManager.upsertEmail rt clk email files db)) = Some row
      /\ Store.id row = snd (DatabaseManager.upsertEmail rt clk email files db)
      /\ (forall old,
            Store.select_by_message_id (DatabaseManager.messageId email) db
            = Some old ->
            Store.id row = Store.id old)
      /\ (Store.select_by_message_id (DatabaseManager.messageId email) db = None ->
          Store.id row = Store.seq_emails db + 1).
Proof.
  intros rt clk email files db.
  unfold Store.select_by_message_id at 1.
  rewrite upsertEmail_emails.
  assert (Hkey : snd (DatabaseManager.upsertEmail rt clk email files db)
                 = snd (DatabaseManager.upsert_statement rt clk email files db)).
  { unfold DatabaseManager.upsertEmail.
    destruct (DatabaseManager.upsert_statement rt clk email files db) as [db1 k].
    destruct (0 <? Z.of_nat (List.length files)); reflexivity. }
  rewrite Hkey. unfold DatabaseManager.upsert_statement.
  destruct (Store.select_by_message_id (DatabaseManager.messageId email) db)
    as [old|] eqn:Hsel;
    cbn [fst snd Store.emails DatabaseManager.update_emails_where
         DatabaseManager.consume_rowid].
  - unfold Store.select_by_message_id in Hsel.
    rewrite find_map_same_test.
    2: { intro r.
         destruct (String.eqb (Store.message_id r) (DatabaseManager.messageId email))
           eqn:E; cbn; rewrite E; reflexivity. }
    rewrite Hsel. cbn [option_map].
    pose proof (find_some _ _ Hsel) as [_ Hhit]. cbn in Hhit. rewrite Hhit.
    eexists. split; [reflexivity|]. split; [reflexivity|].
    split; [|discriminate].
    intros old' H. injection H as H. subst old'. reflexivity.
  - unfold Store.select_by_message_id in Hsel.
    rewrite (find_app_none _ _ _ _ Hsel). cbn [find].
    cbn [Store.message_id DatabaseManager.excluded_row].
    rewrite String.eqb_refl.
    eexists. split; [reflexivity|]. split; [reflexivity|].
    split; [discriminate|]. intros _. reflexivity.
Qed.

(** ** The context over the shipped database manager *)

(** X30: over the shipped [DatabaseManager] no email operation of the
    context gets as far as the remote action: the record it looks up
    carries no UID, so for every operation, message-id and world the
    operation throws and store and mailbox stay as they are. *)
Lemma shipped_context_operation_throws :
  forall (rt : DateApi) (clk : Store.Clock) (Remote : Type)
         (imap : ListenersManager.ImapManagerApi Remote)
         (op : Contract.Operation) (emailId : string)
         (w : ListenersManager.World Store.Database Remote),
    (exists error,
        fst (Contract.perform (dbm := Wiring.databaseManager rt clk) op emailId w)
        = Thrown error)
    /\ ListenersManager.db
         (snd (Contract.perform (dbm := Wiring.databaseManager rt clk) op emailId w))
       = ListenersManager.db w
    /\ ListenersManager.remote
         (snd (Contract.perform (dbm := Wiring.databaseManager rt clk) op emailId w))
       = ListenersManager.remote w.
Proof.
  intros rt clk Remote imap op emailId w.
  pose proof (perform_cases (dbm := Wiring.databaseManager rt clk) op emailId w) as H.
  cbn [ListenersManager.db_getEmailByMessageId Wiring.databaseManager] in H.
  destruct (DatabaseManager.getEmailByMessageId rt emailId (ListenersManager.db w))
    as [email|] eqn:Hget; [|exact H].
  rewrite (getEmailByMessageId_returns_no_uid rt emailId _ email Hget) in H.
  exact H.
Qed.

(** ** The context object and the unreadable directory *)

(** The email operations of a context made by [createContext] are the
    closures of which the properties above speak, for whichever listener
    it is made. *)
Lemma createContext_operations :
  forall (DB Remote : Type)
         (dbm : ListenersManager.DatabaseManagerApi DB)
         (imap : ListenersManager.ImapManagerApi Remote)
         (rt : DateApi) (clk : Store.Clock) (Data : Type)
         (this : ListenersManager.Manager DB Remote Data)
         (listenerConfig : Types.ListenerConfig)
         (op : Contract.Operation) (emailId : string),
    Contract.perform op emailId
    = match op with
      | Contract.Archive =>
          ListenersManager.ctx_archiveEmail
            (ListenersManager.createContext rt clk this listenerConfig) emailId
      | Contract.Star =>
          ListenersManager.ctx_starEmail
            (ListenersManager.createContext rt clk this listenerConfig) emailId
      | Contract.Unstar =>
          ListenersManager.ctx_unstarEmail
            (ListenersManager.createContext rt clk this listenerConfig) emailId
      | Contract.MarkRead =>
          ListenersManager.ctx_markAsRead
            (ListenersManager.createContext rt clk this listenerConfig) emailId
      | Contract.MarkUnread =>
          ListenersManager.ctx_markAsUnread
            (ListenersManager.createContext rt clk this listenerConfig) emailId
      | Contract.AddLabel label =>
          ListenersManager.ctx_addLabel
            (ListenersManager.createContext rt clk this listenerConfig) emailId label
      | Contract.RemoveLabel label =>
          ListenersManager.ctx_removeLabel
            (ListenersManager.createContext rt clk this listenerConfig) emailId label
      end.
Proof.
  intros. destruct op; reflexivity.
Qed.

(** When the directory cannot be read, [loadAllListeners] leaves the
    registry empty and returns no config. *)
Lemma loadAllListeners_unreadable :
  forall (DB Remote Data : Type)
         (dir : ListenersManager.Directory DB Remote Data)
         (st : ListenersManager.Manager DB Remote Data
               * list ListenersManager.LogLine)
         (error : Error),
    ListenersManager.readdir dir = Thrown error ->
    ListenersManager.listeners
      (fst (snd (ListenersManager.loadAllListeners dir st))) = []
    /\ fst (ListenersManager.loadAllListeners dir st) = [].
Proof.
  intros DB Remote Data dir [this out] error Hread.
  unfold ListenersManager.loadAllListeners. rewrite Hread. split; reflexivity.
Qed.

(** ** The context over a database manager that returns the UID *)

(** Over the test double, whose records carry their UID, [starEmail]
    stars the stored email when the mailbox accepts the command, and
    throws the mailbox's error and leaves the email as it was when the
    mailbox rejects it. *)
Example starEmail_accepted_and_rejected :
  fst (ListenersManager.starEmail (dbm := Sample.in_memory)
         (imap := Sample.accepting) "<a@x>" (Sample.memory_world []))
  = Returned tt
  /\ map DatabaseManager.isStarred
       (ListenersManager.db
          (snd (ListenersManager.starEmail (dbm := Sample.in_memory)
                  (imap := Sample.accepting) "<a@x>" (Sample.memory_world []))))
     = [true]
  /\ fst (ListenersManager.starEmail (dbm := Sample.in_memory)
            (imap := Sample.refusing) "<a@x>" (Sample.memory_world []))
     = Thrown (mkError "NO")
  /\ map DatabaseManager.isStarred
       (ListenersManager.db
          (snd (ListenersManager.starEmail (dbm := Sample.in_memory)
                  (imap := Sample.refusing) "<a@x>" (Sample.memory_world []))))
     = [false].
Proof.
  repeat split; vm_compute; reflexivity.
Qed.

(** Over the test double, three calls of [addLabel] with the same label
    add it once when the mailbox accepts the command and not at all when
    it rejects it. *)
Example addLabel_three_times :
  map DatabaseManager.labels
      (ListenersManager.db
         (Contract.after_addLabel (dbm := Sample.in_memory)
            (imap := Sample.accepting) 3 "<a@x>" "urgent"
            (Sample.memory_world ["work"])))
  = [Some ["work"; "urgent"]]
  /\ map DatabaseManager.labels
       (ListenersManager.db
          (Contract.after_addLabel (dbm := Sample.in_memory)
             (imap := Sample.refusing) 3 "<a@x>" "urgent"
             (Sample.memory_world ["work"])))
     = [Some ["work"]].
Proof.
  split; vm_compute; reflexivity.
Qed.

(* ================================================================== *)
(** * Further properties of the code *)

(** ** IMAP search expressions: the default *)

Lemma address_clause_not_ALL :
  forall (key : string) (x : ImapManager.StringOrArray),
    ImapManager.address_clause key x <> ImapManager.Str "ALL".
Proof.
  intros key x. unfold ImapManager.address_clause.
  destruct (ImapManager.as_array x) as [|a [|b l]]; discriminate.
Qed.

Lemma fieldCriteria_no_ALL :
  forall c : ImapManager.SearchCriteria,
    ~ In (ImapManager.Str "ALL") (ImapManager.fieldCriteria c).
Proof.
  intros c H. unfold ImapManager.fieldCriteria in H.
  repeat (apply in_app_or in H; destruct H as [H|H]).
  - destruct (truthy (ImapManager.query c)); cbn in H;
      [destruct H as [H|[]]; discriminate H|exact H].
  - destruct (ImapManager.from c) as [x|]; [|exact H].
    destruct (ImapManager.truthy_soa (Some x)); cbn in H; [|exact H].
    destruct H as [H|[]]. exact (address_clause_not_ALL _ _ H).
  - destruct (ImapManager.to c) as [x|]; [|exact H].
    destruct (ImapManager.truthy_soa (Some x)); cbn in H; [|exact H].
    destruct H as [H|[]]. exact (address_clause_not_ALL _ _ H).
  - destruct (truthy (ImapManager.subject c)); cbn in H;
      [destruct H as [H|[]]; discriminate H|exact H].
  - destruct (ImapManager.dateRange c) as [r|]; [|exact H].
    apply in_app_or in H. destruct H as [H|H].
    + destruct (ImapManager.dr_start r); cbn in H;
        [destruct H as [H|[]]; discriminate H|exact H].
    + destruct (ImapManager.dr_end r); cbn in H;
        [destruct H as [H|[]]; discriminate H|exact H].
  - destruct (ImapManager.hasAttachments c) as [[|]|]; cbn in H;
      [destruct H as [H|[]]; discriminate H|exact H|exact H].
  - destruct (ImapManager.isUnread c) as [[|]|]; cbn in H;
      [destruct H as [H|[]]; discriminate H
      |destruct H as [H|[]]; discriminate H|exact H].
  - destruct (ImapManager.minSize c) as [n|]; [|exact H].
    destruct (truthy_num n); cbn in H;
      [destruct H as [H|[]]; discriminate H|exact H].
  - destruct (ImapManager.maxSize c) as [n|]; [|exact H].
    destruct (truthy_num n); cbn in H;
      [destruct H as [H|[]]; discriminate H|exact H].
Qed.

(** X1: whatever the criteria, [buildImapSearchCriteria] hands node-imap
    at least one search term, and the term [ALL] is only ever the whole
    expression: it stands for "no criterion applied" and is never mixed
    with another term. *)
Theorem buildImapSearchCriteria_never_empty :
  forall c : ImapManager.SearchCriteria,
    ImapManager.buildImapSearchCriteria c <> []
    /\ (In (ImapManager.Str "ALL") (ImapManager.buildImapSearchCriteria c) <->
        ImapManager.buildImapSearchCriteria c = [ImapManager.Str "ALL"])
    /\ (ImapManager.buildImapSearchCriteria c = [ImapManager.Str "ALL"] <->
        truthy (ImapManager.gmailQuery c) = false
        /\ ImapManager.fieldCriteria c = []).
Proof.
  intro c. pose proof (fieldCriteria_no_ALL c) as Hno.
  unfold ImapManager.buildImapSearchCriteria.
  destruct (ImapManager.gmailQuery c) as [q|]; cbn [truthy].
  - destruct (truthy_string q) eqn:Hq.
    + split; [discriminate|]. split; split.
      * intros [H|[]]. discriminate H.
      * discriminate.
      * discriminate.
      * intros [H _]. discriminate H.
    + destruct (ImapManager.fieldCriteria c) as [|t l] eqn:Hf.
      * split; [discriminate|]. split; split; auto.
        intros _. left. reflexivity.
      * split; [discriminate|]. split; split.
        -- intro H. contradiction.
        -- intro H. exfalso. apply Hno. rewrite H. left. reflexivity.
        -- intro H. exfalso. apply Hno. rewrite H. left. reflexivity.
        -- intros [_ H]. discriminate H.
  - destruct (ImapManager.fieldCriteria c) as [|t l] eqn:Hf.
    + split; [discriminate|]. split; split; auto.
      intros _. left. reflexivity.
    + split; [discriminate|]. split; split.
      * intro H. contradiction.
      * intro H. exfalso. apply Hno. rewrite H. left. reflexivity.
      * intro H. exfalso. apply Hno. rewrite H. left. reflexivity.
      * intros [_ H]. discriminate H.
Qed.

(** ** The mail store: what [upsertEmail] leaves behind *)

Lemma upsertEmail_key :
  forall rt clk email files db,
    snd (DatabaseManager.upsertEmail rt clk email files db)
    = snd (DatabaseManager.upsert_statement rt clk email files db).
Proof.
  intros. unfold DatabaseManager.upsertEmail.
  destruct (DatabaseManager.upsert_statement rt clk email files db) as [db1 k].
  destruct (0 <? Z.of_nat (List.length files)); reflexivity.
Qed.

Lemma find_map_fixed :
  forall (A : Type) (p : A -> bool) (f : A -> A) (l : list A),
    (forall a, p a = true -> f a = a) ->
    (forall a, p (f a) = p a) ->
    find p (map f l) = find p l.
Proof.
  intros A p f l Hfix Hsame. induction l as [|a l IH]; cbn; [reflexivity|].
  rewrite Hsame. destruct (p a) eqn:Hp; [|exact IH].
  rewrite (Hfix a Hp). reflexivity.
Qed.

Lemma on_conflict_update_hit :
  forall excluded m r,
    String.eqb
      (Store.message_id
         (if String.eqb (Store.message_id r) m
          then DatabaseManager.on_conflict_update excluded r else r)) m
    = String.eqb (Store.message_id r) m.
Proof.
  intros excluded m r.
  destruct (String.eqb (Store.message_id r) m) eqn:E; cbn; rewrite E; reflexivity.
Qed.

(** The row that carries the record's message-id after an upsert. *)
Lemma upsertEmail_selects :
  forall rt clk email files db,
    Store.select_by_message_id (DatabaseManager.messageId email)
      (fst (DatabaseManager.upsertEmail rt clk email files db))
    = Some (Props.upserted_row rt clk email files db).
Proof.
  intros rt clk email files db.
  unfold Store.select_by_message_id at 1. rewrite upsertEmail_emails.
  unfold Props.upserted_row, DatabaseManager.upsert_statement.
  destruct (Store.select_by_message_id (DatabaseManager.messageId email) db)
    as [old|] eqn:Hsel;
      cbn [fst Store.emails DatabaseManager.update_emails_where
           DatabaseManager.consume_rowid].
  - unfold Store.select_by_message_id in Hsel.
    rewrite find_map_same_test by (intro r; apply on_conflict_update_hit).
    rewrite Hsel. cbn [option_map].
    pose proof (find_some _ _ Hsel) as [_ Hhit]. cbn in Hhit. rewrite Hhit.
    reflexivity.
  - unfold Store.select_by_message_id in Hsel.
    rewrite (find_app_none _ _ _ _ Hsel). cbn [find].
    cbn [Store.message_id DatabaseManager.excluded_row].
    rewrite String.eqb_refl. reflexivity.
Qed.

Lemma Boolean_bit : forall b : bool, Boolean (bit b) = b.
Proof. intros [|]; reflexivity. Qed.

(** X2: an upsert can be read back.  After [upsertEmail email files],
    [getEmailByMessageId] finds a record under the message-id of [email]
    whose key is the key that the call returned and whose flags, folder,
    labels and texts are those of [email] as the statement binds them
    (an empty text as NULL, an empty folder as INBOX, absent labels as
    the empty array), with the attachment count taken from [files]; the
    record carries no UID. *)
Theorem upsertEmail_then_getEmailByMessageId :
  forall (rt : DateApi) (clk : Store.Clock)
         (email : DatabaseManager.EmailRecord)
         (files : list DatabaseManager.Attachment) (db : Store.Database),
    exists stored,
      DatabaseManager.getEmailByMessageId rt (DatabaseManager.messageId email)
        (fst (DatabaseManager.upsertEmail rt clk email files db)) = Some stored
      /\ DatabaseManager.messageId stored = DatabaseManager.messageId email
      /\ DatabaseManager.id stored
         = Some (snd (DatabaseManager.upsertEmail rt clk email files db))
      /\ DatabaseManager.subject stored = or_null (DatabaseManager.subject email)
      /\ DatabaseManager.fromAddress stored = DatabaseManager.fromAddress email
      /\ DatabaseManager.bodyText stored = or_null (DatabaseManager.bodyText email)
      /\ DatabaseManager.isRead stored = DatabaseManager.isRead email
      /\ DatabaseManager.isStarred stored = DatabaseManager.isStarred email
      /\ DatabaseManager.isImportant stored = DatabaseManager.isImportant email
      /\ DatabaseManager.isDraft stored = DatabaseManager.isDraft email
      /\ DatabaseManager.isSent stored = DatabaseManager.isSent email
      /\ DatabaseManager.isTrash stored = DatabaseManager.isTrash email
      /\ DatabaseManager.isSpam stored = DatabaseManager.isSpam email
      /\ DatabaseManager.folder stored
         = (if truthy_string (DatabaseManager.folder email)
            then DatabaseManager.folder email else "INBOX")
      /\ DatabaseManager.labels stored = Some (Contract.current_labels email)
      /\ DatabaseManager.hasAttachments stored = (0 <? Z.of_nat (List.length files))
      /\ DatabaseManager.attachmentCount stored = Z.of_nat (List.length files)
      /\ DatabaseManager.imapUid stored = None.
Proof.
  intros rt clk email files db.
  unfold DatabaseManager.getEmailByMessageId.
  rewrite upsertEmail_selects, upsertEmail_key.
  eexists. split; [reflexivity|].
  unfold Props.upserted_row, DatabaseManager.upsert_statement.
  destruct (Store.select_by_message_id (DatabaseManager.messageId email) db)
    as [old|] eqn:Hsel; cbn; rewrite ?Boolean_bit.
  - pose proof (find_some _ _ Hsel) as [_ Hhit]. cbn in Hhit.
    apply String.eqb_eq in Hhit.
    unfold Contract.current_labels.
    destruct (DatabaseManager.labels email); repeat split; auto.
  - unfold Contract.current_labels.
    destruct (DatabaseManager.labels email); repeat split; auto.
Qed.

Lemma filter_map_others :
  forall (A : Type) (hit : A -> bool) (g : A -> A) (l : list A),
    (forall a, hit (g a) = hit a) ->
    (forall a, hit a = false -> g a = a) ->
    filter (fun a => negb (hit a)) (map g l) = filter (fun a => negb (hit a)) l.
Proof.
  intros A hit g l Hsame Hfix. induction l as [|a l IH]; cbn; [reflexivity|].
  rewrite Hsame. destruct (hit a) eqn:Hh; cbn; [exact IH|].
  rewrite (Hfix a Hh), IH. reflexivity.
Qed.

(** What the loop over the attachments of [upsertEmail] adds. *)
Lemma fold_insertAttachment_rows :
  forall emailId files db,
    exists rows,
      Store.attachments
        (fold_left (DatabaseManager.insertAttachment emailId) files db)
      = Store.attachments db ++ rows
      /\ Forall (fun a => Store.a_email_id a = emailId) rows
      /\ map Store.a_filename rows = map DatabaseManager.filename files.
Proof.
  intros emailId files. induction files as [|f files IH]; intro db; cbn [fold_left].
  - exists []. rewrite app_nil_r. repeat split. constructor.
  - destruct (IH (DatabaseManager.insertAttachment emailId db f))
      as [rows [Hrows [Hall Hnames]]].
    rewrite Hrows. cbn [Store.attachments DatabaseManager.insertAttachment].
    rewrite <- app_assoc. cbn [app].
    eexists. split; [reflexivity|]. split.
    + constructor; [reflexivity|exact Hall].
    + cbn. rewrite Hnames. reflexivity.
Qed.

Lemma filter_all :
  forall (A : Type) (p : A -> bool) (l : list A),
    Forall (fun a => p a = true) l -> filter p l = l.
Proof.
  intros A p l H. induction H as [|a l Ha _ IH]; cbn; [reflexivity|].
  rewrite Ha, IH. reflexivity.
Qed.

Lemma filter_none :
  forall (A : Type) (p : A -> bool) (l : list A),
    Forall (fun a => p a = false) l -> filter p l = [].
Proof.
  intros A p l H. induction H as [|a l Ha _ IH]; cbn; [reflexivity|].
  rewrite Ha. exact IH.
Qed.

Lemma filter_filter :
  forall (A : Type) (p q : A -> bool) (l : list A),
    filter p (filter q l) = filter (fun a => p a && q a) l.
Proof.
  intros A p q l. induction l as [|a l IH]; cbn; [reflexivity|].
  destruct (q a); cbn; [destruct (p a); cbn; rewrite IH; reflexivity|].
  rewrite andb_false_r. exact IH.
Qed.

(** The attachments table after [upsertEmail], for a non-empty list:
    the rows of the other emails, then one row per file. *)
Lemma upsertEmail_attachments :
  forall rt clk email files db,
    files <> [] ->
    exists rows,
      Store.attachments (fst (DatabaseManager.upsertEmail rt clk email files db))
      = filter
          (fun a =>
             negb (Store.a_email_id a
                   =? snd (DatabaseManager.upsertEmail rt clk email files db)))
          (Store.attachments db)
        ++ rows
      /\ Forall
           (fun a =>
              Store.a_email_id a
              = snd (DatabaseManager.upsertEmail rt clk email files db))
           rows
      /\ map Store.a_filename rows = map DatabaseManager.filename files.
Proof.
  intros rt clk email files db Hne.
  rewrite upsertEmail_key.
  pose proof (upsert_statement_attachments rt clk email files db) as Hatt.
  unfold DatabaseManager.upsertEmail.
  destruct (DatabaseManager.upsert_statement rt clk email files db) as [db1 k].
  cbn [fst snd] in *.
  destruct files as [|f files]; [contradiction|].
  replace (0 <? Z.of_nat (List.length (f :: files))) with true
    by (symmetry; apply Z.ltb_lt; cbn [List.length]; lia).
  cbn [fst Store.attachments DatabaseManager.set_attachment_names].
  destruct (fold_insertAttachment_rows k (f :: files)
              (DatabaseManager.deleteAttachments k db1))
    as [rows [Hrows [Hall Hnames]]].
  rewrite Hrows. cbn [Store.attachments DatabaseManager.deleteAttachments].
  rewrite Hatt. exists rows. repeat split; assumption.
Qed.

Lemma fold_insertAttachment_recipients :
  forall emailId files db,
    Store.recipients
      (fold_left (DatabaseManager.insertAttachment emailId) files db)
    = Store.recipients db.
Proof.
  intros emailId files. induction files as [|f files IH]; intro db; cbn [fold_left];
    [reflexivity|].
  rewrite IH. reflexivity.
Qed.

Lemma upsertEmail_recipients :
  forall rt clk email files db,
    Store.recipients (fst (DatabaseManager.upsertEmail rt clk email files db))
    = Store.recipients db.
Proof.
  intros rt clk email files db.
  assert (H1 : Store.recipients
                 (fst (DatabaseManager.upsert_statement rt clk email files db))
               = Store.recipients db).
  { unfold DatabaseManager.upsert_statement.
    destruct (Store.select_by_message_id (DatabaseManager.messageId email) db);
      reflexivity. }
  unfold DatabaseManager.upsertEmail.
  destruct (DatabaseManager.upsert_statement rt clk email files db) as [db1 k].
  cbn [fst] in H1.
  destruct (0 <? Z.of_nat (List.length files)); cbn [fst]; [|exact H1].
  cbn [Store.recipients DatabaseManager.set_attachment_names].
  rewrite fold_insertAttachment_recipients. exact H1.
Qed.

(** X3: an upsert touches one message.  The rows of [emails] with
    another message-id are as before and in the same order, the
    recipients are as before, and so are the attachments of every email
    but the one whose key the call returns. *)
Theorem upsertEmail_frame :
  forall (rt : DateApi) (clk : Store.Clock)
         (email : DatabaseManager.EmailRecord)
         (files : list DatabaseManager.Attachment) (db : Store.Database),
    filter
      (fun r => negb (String.eqb (Store.message_id r)
                        (DatabaseManager.messageId email)))
      (Store.emails (fst (DatabaseManager.upsertEmail rt clk email files db)))
    = filter
        (fun r => negb (String.eqb (Store.message_id r)
                          (DatabaseManager.messageId email)))
        (Store.emails db)
    /\ Store.recipients (fst (DatabaseManager.upsertEmail rt clk email files db))
       = Store.recipients db
    /\ filter
         (fun a =>
            negb (Store.a_email_id a
                  =? snd (DatabaseManager.upsertEmail rt clk email files db)))
         (Store.attachments
            (fst (DatabaseManager.upsertEmail rt clk email files db)))
       = filter
           (fun a =>
              negb (Store.a_email_id a
                    =? snd (DatabaseManager.upsertEmail rt clk email files db)))
           (Store.attachments db).
Proof.
  intros rt clk email files db. split; [|split].
  - rewrite upsertEmail_emails. unfold DatabaseManager.upsert_statement.
    destruct (Store.select_by_message_id (DatabaseManager.messageId email) db)
      as [old|] eqn:Hsel;
      cbn [fst Store.emails DatabaseManager.update_emails_where
           DatabaseManager.consume_rowid].
    + apply (filter_map_others _
               (fun r => String.eqb (Store.message_id r)
                           (DatabaseManager.messageId email))).
      * intro r. apply on_conflict_update_hit.
      * intros r Hr. rewrite Hr. reflexivity.
    + rewrite filter_app. cbn [filter Store.message_id DatabaseManager.excluded_row].
      rewrite String.eqb_refl. cbn. apply app_nil_r.
  - apply upsertEmail_recipients.
  - destruct files as [|f files].
    + rewrite upsertEmail_no_attachments. reflexivity.
    + destruct (upsertEmail_attachments rt clk email (f :: files) db)
        as [rows [Hrows [Hall _]]]; [discriminate|].
      rewrite Hrows, filter_app, filter_filter.
      rewrite (filter_none _ _ rows).
      * rewrite app_nil_r. apply filter_ext. intro a.
        apply andb_diag.
      * eapply Forall_impl; [|exact Hall]. cbn. intros a Ha.
        rewrite Ha, Z.eqb_refl. reflexivity.
Qed.

(** X4: with a non-empty list, [upsertEmail] replaces the attachments
    of the email: afterwards [getAttachments], asked for the key that the
    call returned, yields one row per file, in the order of the list and
    with its file names, and the [attachment_count] of the email's row is
    the number of these rows. *)
Theorem upsertEmail_replaces_attachments :
  forall (rt : DateApi) (clk : Store.Clock)
         (email : DatabaseManager.EmailRecord)
         (files : list DatabaseManager.Attachment) (db : Store.Database),
    files <> [] ->
    map Store.a_filename
        (DatabaseManager.getAttachments
           (snd (DatabaseManager.upsertEmail rt clk email files db))
           (fst (DatabaseManager.upsertEmail rt clk email files db)))
    = map DatabaseManager.filename files
    /\ exists row,
         Store.select_by_message_id (DatabaseManager.messageId email)
           (fst (DatabaseManager.upsertEmail rt clk email files db)) = Some row
         /\ Store.attachment_count row
            = Z.of_nat
                (List.length
                   (DatabaseManager.getAttachments
                      (snd (DatabaseManager.upsertEmail rt clk email files db))
                      (fst (DatabaseManager.upsertEmail rt clk email files db)))).
Proof.
  intros rt clk email files db Hne.
  destruct (upsertEmail_attachments rt clk email files db Hne)
    as [rows [Hrows [Hall Hnames]]].
  assert (Hget : DatabaseManager.getAttachments
                   (snd (DatabaseManager.upsertEmail rt clk email files db))
                   (fst (DatabaseManager.upsertEmail rt clk email files db))
                 = rows).
  { unfold DatabaseManager.getAttachments, Store.attachments_of.
    rewrite Hrows, filter_app, filter_filter.
    rewrite (filter_none _ _ (Store.attachments db)).
    - cbn [app]. apply filter_all.
      eapply Forall_impl; [|exact Hall]. cbn. intros a Ha.
      rewrite Ha. apply Z.eqb_refl.
    - apply Forall_forall. intros a _. cbn.
      destruct (Store.a_email_id a
                =? snd (DatabaseManager.upsertEmail rt clk email files db));
        reflexivity. }
  rewrite Hget. split; [exact Hnames|].
  rewrite upsertEmail_selects. eexists. split; [reflexivity|].
  assert (Hlen : List.length rows = List.length files).
  { rewrite <- (length_map Store.a_filename), Hnames, length_map. reflexivity. }
  rewrite Hlen. unfold Props.upserted_row.
  destruct (Store.select_by_message_id (DatabaseManager.messageId email) db);
    reflexivity.
Qed.

Lemma upsertEmail_replaces_attachments_witness :
  [Sample.pdf] <> []
  /\ map Store.a_filename
       (DatabaseManager.getAttachments
          (snd (DatabaseManager.upsertEmail Sample.rt Sample.later
                  (Sample.record "<a@x>" None (Some "body") None) [Sample.pdf]
                  Sample.with_attachment))
          (fst (DatabaseManager.upsertEmail Sample.rt Sample.later
                  (Sample.record "<a@x>" None (Some "body") None) [Sample.pdf]
                  Sample.with_attachment)))
     = ["report.pdf"].
Proof.
  assert (Hne : [Sample.pdf] <> []) by discriminate.
  split; [exact Hne|].
  exact (proj1 (upsertEmail_replaces_attachments Sample.rt Sample.later
                  (Sample.record "<a@x>" None (Some "body") None) [Sample.pdf]
                  Sample.with_attachment Hne)).
Defined.

(** ** The mail store: reading back after [updateEmailFlags] *)

Lemma find_none_filter :
  forall (A : Type) (p : A -> bool) (l : list A),
    find p l = None -> filter p l = [].
Proof.
  intros A p l. induction l as [|a l IH]; cbn; [reflexivity|].
  destruct (p a); [discriminate|exact IH].
Qed.

Lemma find_none_map :
  forall (A : Type) (p : A -> bool) (f : A -> A) (l : list A),
    find p l = None -> map (fun a => if p a then f a else a) l = l.
Proof.
  intros A p f l. induction l as [|a l IH]; cbn; [reflexivity|].
  destruct (p a); [discriminate|]. intro H. rewrite (IH H). reflexivity.
Qed.

Lemma update_emails_where_unknown :
  forall m set db,
    Store.select_by_message_id m db = None ->
    DatabaseManager.update_emails_where m set db = db.
Proof.
  intros m set db H. unfold Store.select_by_message_id in H.
  unfold DatabaseManager.update_emails_where.
  rewrite (find_none_filter _ _ _ H), (find_none_map _ _ set _ H).
  destruct db; reflexivity.
Qed.

Lemma mapRowToEmailRecord_set_flags :
  forall rt clk updates row,
    DatabaseManager.mapRowToEmailRecord rt
      (DatabaseManager.set_flags clk updates row)
    = Sample.apply_updates updates (DatabaseManager.mapRowToEmailRecord rt row).
Proof.
  intros rt clk updates row.
  unfold DatabaseManager.mapRowToEmailRecord, Sample.apply_updates,
    DatabaseManager.set_flags.
  cbn.
  destruct (DatabaseManager.u_isRead updates),
    (DatabaseManager.u_isStarred updates),
    (DatabaseManager.u_isImportant updates),
    (DatabaseManager.u_labels updates),
    (DatabaseManager.u_folder updates);
    rewrite ?Boolean_bit; reflexivity.
Qed.

Lemma apply_no_updates :
  forall updates e,
    DatabaseManager.provided updates = 0%nat ->
    Sample.apply_updates updates e = e.
Proof.
  intros updates e H. unfold DatabaseManager.provided in H.
  unfold Sample.apply_updates.
  destruct (DatabaseManager.u_isRead updates); [discriminate H|].
  destruct (DatabaseManager.u_isStarred updates); [discriminate H|].
  destruct (DatabaseManager.u_isImportant updates); [discriminate H|].
  destruct (DatabaseManager.u_labels updates); [discriminate H|].
  destruct (DatabaseManager.u_folder updates); [discriminate H|].
  destruct e; reflexivity.
Qed.

Lemma set_flags_hit :
  forall clk updates m r,
    String.eqb
      (Store.message_id
         (if String.eqb (Store.message_id r) m
          then DatabaseManager.set_flags clk updates r else r)) m
    = String.eqb (Store.message_id r) m.
Proof.
  intros clk updates m r.
  destruct (String.eqb (Store.message_id r) m) eqn:E; cbn; rewrite E; reflexivity.
Qed.

(** X5: an update of the flags can be read back.  After
    [updateEmailFlags messageId updates], [getEmailByMessageId] returns
    for [messageId] the record it returned before with exactly the
    provided properties replaced, and for every other message-id the
    record it returned before; an unknown message-id stays unknown. *)
Theorem updateEmailFlags_then_getEmailByMessageId :
  forall (rt : DateApi) (clk : Store.Clock) (messageId : string)
         (updates : DatabaseManager.FlagUpdates) (db : Store.Database)
         (m : string),
    DatabaseManager.getEmailByMessageId rt m
      (DatabaseManager.updateEmailFlags clk messageId updates db)
    = if String.eqb m messageId
      then option_map (Sample.apply_updates updates)
             (DatabaseManager.getEmailByMessageId rt m db)
      else DatabaseManager.getEmailByMessageId rt m db.
Proof.
  intros rt clk messageId updates db m.
  destruct (Nat.eq_dec (DatabaseManager.provided updates) 0) as [Hp|Hp].
  - rewrite (updateEmailFlags_nothing_provided _ _ _ _ Hp).
    destruct (String.eqb m messageId); [|reflexivity].
    destruct (DatabaseManager.getEmailByMessageId rt m db); cbn; [|reflexivity].
    rewrite (apply_no_updates _ _ Hp). reflexivity.
  - rewrite (updateEmailFlags_something_provided _ _ _ _ Hp).
    unfold DatabaseManager.getEmailByMessageId, Store.select_by_message_id.
    cbn [Store.emails DatabaseManager.update_emails_where].
    destruct (String.eqb m messageId) eqn:Hm.
    + apply String.eqb_eq in Hm. subst m.
      rewrite find_map_same_test by (intro r; apply set_flags_hit).
      destruct (find (fun r => String.eqb (Store.message_id r) messageId)
                  (Store.emails db)) as [row|] eqn:Hfind; cbn; [|reflexivity].
      pose proof (find_some _ _ Hfind) as [_ Hhit]. cbn in Hhit. rewrite Hhit.
      rewrite mapRowToEmailRecord_set_flags. reflexivity.
    + rewrite find_map_fixed; [reflexivity| |].
      * intros r Hr. apply String.eqb_eq in Hr.
        destruct (String.eqb (Store.message_id r) messageId) eqn:E; [|reflexivity].
        rewrite Hr, Hm in E. discriminate E.
      * intro r.
        destruct (String.eqb (Store.message_id r) messageId); reflexivity.
Qed.

(** X6: [updateEmailFlags] for a message-id that is not stored changes
    nothing: no row, no table and no counter. *)
Theorem updateEmailFlags_unknown_message :
  forall (clk : Store.Clock) (messageId : string)
         (updates : DatabaseManager.FlagUpdates) (db : Store.Database),
    Store.select_by_message_id messageId db = None ->
    DatabaseManager.updateEmailFlags clk messageId updates db = db.
Proof.
  intros clk messageId updates db H. unfold DatabaseManager.updateEmailFlags.
  destruct (Nat.eqb (DatabaseManager.provided updates + 1) 1); [reflexivity|].
  apply update_emails_where_unknown. exact H.
Qed.

Lemma updateEmailFlags_unknown_message_witness :
  Store.select_by_message_id "<b@x>" Sample.one_message = None
  /\ DatabaseManager.updateEmailFlags Sample.later "<b@x>"
       (Contract.starred_update true) Sample.one_message
     = Sample.one_message.
Proof.
  assert (H : Store.select_by_message_id "<b@x>" Sample.one_message = None)
    by (vm_compute; reflexivity).
  split; [exact H|].
  exact (updateEmailFlags_unknown_message Sample.later "<b@x>"
           (Contract.starred_update true) Sample.one_message H).
Defined.

(** ** The mail store: the constraints of the [emails] table *)

Lemma find_none_not_in :
  forall (l : list Store.EmailRow) (m : string),
    find (fun r => String.eqb (Store.message_id r) m) l = None ->
    ~ In m (map Store.message_id l).
Proof.
  intros l m. induction l as [|r l IH]; cbn; [intros _ []|].
  destruct (String.eqb (Store.message_id r) m) eqn:E; [discriminate|].
  intros H [Hin|Hin].
  - apply String.eqb_neq in E. contradiction.
  - exact (IH H Hin).
Qed.

Lemma NoDup_snoc_any :
  forall (A : Type) (l : list A) (a : A),
    NoDup l -> ~ In a l -> NoDup (l ++ [a]).
Proof.
  intros A l a Hnd Hnot. induction Hnd as [|x l Hx Hnd IH]; cbn.
  - constructor; [intros []|constructor].
  - constructor.
    + intro Hin. apply in_app_or in Hin. destruct Hin as [Hin|[Hin|[]]].
      * contradiction.
      * apply Hnot. left. symmetry. exact Hin.
    + apply IH. intro Hin. apply Hnot. right. exact Hin.
Qed.

Lemma consistent_append :
  forall (db db' : Store.Database) (new : Store.EmailRow),
    Props.consistent db ->
    Store.select_by_message_id (Store.message_id new) db = None ->
    Store.id new = Store.seq_emails db + 1 ->
    Store.emails db' = Store.emails db ++ [new] ->
    Store.seq_emails db' = Store.seq_emails db + 1 ->
    Props.consistent db'.
Proof.
  intros db db' new [Hm [Hi Hle]] Hsel Hid Hemails Hseq.
  unfold Props.consistent. rewrite Hemails, Hseq, !map_app. cbn [map].
  split; [|split].
  - apply NoDup_snoc_any; [exact Hm|].
    apply find_none_not_in. exact Hsel.
  - apply NoDup_snoc_any; [exact Hi|].
    intro Hin. apply in_map_iff in Hin. destruct Hin as [r [Hr Hin]].
    rewrite Forall_forall in Hle. specialize (Hle r Hin). lia.
  - apply Forall_app. split.
    + eapply Forall_impl; [|exact Hle]. cbn. intros r Hr. lia.
    + constructor; [lia|constructor].
Qed.

Lemma consistent_rewrite :
  forall (db db' : Store.Database) (g : Store.EmailRow -> Store.EmailRow),
    Props.consistent db ->
    (forall r, Store.message_id (g r) = Store.message_id r) ->
    (forall r, Store.id (g r) = Store.id r) ->
    Store.emails db' = map g (Store.emails db) ->
    Store.seq_emails db <= Store.seq_emails db' ->
    Props.consistent db'.
Proof.
  intros db db' g [Hm [Hi Hle]] Hgm Hgi Hemails Hseq.
  unfold Props.consistent. rewrite Hemails, !map_map.
  rewrite (map_ext _ _ Hgm), (map_ext _ _ Hgi).
  split; [exact Hm|]. split; [exact Hi|].
  apply Forall_map. eapply Forall_impl; [|exact Hle].
  cbn. intros r Hr. rewrite Hgi. lia.
Qed.

Lemma fold_insertAttachment_seq_emails :
  forall emailId files db,
    Store.seq_emails
      (fold_left (DatabaseManager.insertAttachment emailId) files db)
    = Store.seq_emails db.
Proof.
  intros emailId files. induction files as [|f files IH]; intro db; cbn [fold_left];
    [reflexivity|].
  rewrite IH. reflexivity.
Qed.

Lemma upsertEmail_seq_emails :
  forall rt clk email files db,
    Store.seq_emails (fst (DatabaseManager.upsertEmail rt clk email files db))
    = Store.seq_emails
        (fst (DatabaseManager.upsert_statement rt clk email files db)).
Proof.
  intros rt clk email files db. unfold DatabaseManager.upsertEmail.
  destruct (DatabaseManager.upsert_statement rt clk email files db) as [db1 k].
  destruct (0 <? Z.of_nat (List.length files)); cbn [fst]; [|reflexivity].
  cbn [Store.seq_emails DatabaseManager.set_attachment_names].
  rewrite fold_insertAttachment_seq_emails. reflexivity.
Qed.

Lemma upsertEmail_consistent :
  forall rt clk email files db,
    Props.consistent db ->
    Props.consistent (fst (DatabaseManager.upsertEmail rt clk email files db)).
Proof.
  intros rt clk email files db Hc.
  pose proof (upsertEmail_emails rt clk email files db) as He.
  pose proof (upsertEmail_seq_emails rt clk email files db) as Hs.
  unfold DatabaseManager.upsert_statement in He, Hs.
  destruct (Store.select_by_message_id (DatabaseManager.messageId email) db)
    as [old|] eqn:Hsel; cbn [fst] in He, Hs.
  - apply (consistent_rewrite db _
             (fun r =>
                if String.eqb (Store.message_id r) (DatabaseManager.messageId email)
                then DatabaseManager.on_conflict_update
                       (DatabaseManager.excluded_row rt clk email files (Store.id old)) r
                else r)); auto.
    + intro r. destruct (String.eqb (Store.message_id r)
                           (DatabaseManager.messageId email)); reflexivity.
    + intro r. destruct (String.eqb (Store.message_id r)
                           (DatabaseManager.messageId email)); reflexivity.
    + rewrite Hs. cbn. lia.
  - apply (consistent_append db _
             (DatabaseManager.excluded_row rt clk email files
                (Store.seq_emails db + 1))); auto.
Qed.

Lemma insertEmail_consistent :
  forall rt clk email recipients attachments db,
    Props.consistent db ->
    Props.consistent
      (snd (EmailDatabase.insertEmail rt clk email recipients attachments db)).
Proof.
  intros rt clk email recipients attachments db Hc.
  unfold EmailDatabase.insertEmail.
  destruct (Store.select_by_message_id (EmailDatabase.message_id email) db)
    eqn:Hsel; cbn [snd]; [exact Hc|].
  apply (consistent_append db _
           (EmailDatabase.inserted_row rt clk email attachments
              (Store.seq_emails db + 1))); auto.
Qed.

Lemma updateEmailFlags_consistent :
  forall clk messageId updates db,
    Props.consistent db ->
    Props.consistent (DatabaseManager.updateEmailFlags clk messageId updates db).
Proof.
  intros clk messageId updates db Hc. unfold DatabaseManager.updateEmailFlags.
  destruct (Nat.eqb (DatabaseManager.provided updates + 1) 1); [exact Hc|].
  apply (consistent_rewrite db _
           (fun r =>
              if String.eqb (Store.message_id r) messageId
              then DatabaseManager.set_flags clk updates r else r)); auto.
  - intro r. destruct (String.eqb (Store.message_id r) messageId); reflexivity.
  - intro r. destruct (String.eqb (Store.message_id r) messageId); reflexivity.
  - apply Z.le_refl.
Qed.

Lemma batchUpsertEmails_consistent :
  forall rt clk batch db,
    Props.consistent db ->
    Props.consistent (DatabaseManager.batchUpsertEmails rt clk batch db).
Proof.
  intros rt clk batch. unfold DatabaseManager.batchUpsertEmails.
  induction batch as [|ea batch IH]; intros db Hc; cbn [fold_left]; [exact Hc|].
  apply IH. apply upsertEmail_consistent. exact Hc.
Qed.

(** An upsert uses up one key, whether it inserts or updates. *)
Lemma upsertEmail_draws_key :
  forall rt clk email files db,
    Store.seq_emails (fst (DatabaseManager.upsertEmail rt clk email files db))
    = Store.seq_emails db + 1.
Proof.
  intros rt clk email files db. rewrite upsertEmail_seq_emails.
  unfold DatabaseManager.upsert_statement.
  destruct (Store.select_by_message_id (DatabaseManager.messageId email) db);
    reflexivity.
Qed.

(** X7: the writers of the store keep the constraints of the [emails]
    table.  From a store in which message-ids and keys are unique and no
    key is above the counter, [upsertEmail], [batchUpsertEmails],
    [insertEmail] (whether it returns or throws) and [updateEmailFlags]
    lead to such a store: none of them ever stores a second row for a
    message-id or reuses a key.  An upsert moves the counter on by one
    whether it inserts or updates, so the key that an update draws is
    never given out. *)
Theorem writers_keep_store_consistent :
  forall (rt : DateApi) (clk : Store.Clock) (db : Store.Database),
    Props.consistent db ->
    (forall email files,
        Props.consistent
          (fst (DatabaseManager.upsertEmail rt clk email files db))
        /\ Store.seq_emails
             (fst (DatabaseManager.upsertEmail rt clk email files db))
           = Store.seq_emails db + 1)
    /\ (forall batch,
          Props.consistent (DatabaseManager.batchUpsertEmails rt clk batch db))
    /\ (forall email recipients attachments,
          Props.consistent
            (snd (EmailDatabase.insertEmail rt clk email recipients attachments db)))
    /\ (forall messageId updates,
          Props.consistent
            (DatabaseManager.updateEmailFlags clk messageId updates db)).
Proof.
  intros rt clk db Hc. split; [|split; [|split]].
  - intros. split; [apply upsertEmail_consistent; exact Hc|].
    apply upsertEmail_draws_key.
  - intros. apply batchUpsertEmails_consistent. exact Hc.
  - intros. apply insertEmail_consistent. exact Hc.
  - intros. apply updateEmailFlags_consistent. exact Hc.
Qed.

Lemma writers_keep_store_consistent_witness :
  Props.consistent Store.empty
  /\ Props.consistent
       (DatabaseManager.batchUpsertEmails Sample.rt Sample.later
          [(Sample.record "<a@x>" None (Some "first") None, Some [Sample.pdf]);
           (Sample.record "<a@x>" None (Some "second") None, None);
           (Sample.record "<b@x>" None (Some "other") None, None)]
          Store.empty)
  /\ map Store.id
       (Store.emails
          (DatabaseManager.batchUpsertEmails Sample.rt Sample.later
             [(Sample.record "<a@x>" None (Some "first") None, Some [Sample.pdf]);
              (Sample.record "<a@x>" None (Some "second") None, None);
              (Sample.record "<b@x>" None (Some "other") None, None)]
             Store.empty))
     = [1; 3]
  /\ Store.seq_emails
       (DatabaseManager.batchUpsertEmails Sample.rt Sample.later
          [(Sample.record "<a@x>" None (Some "first") None, Some [Sample.pdf]);
           (Sample.record "<a@x>" None (Some "second") None, None);
           (Sample.record "<b@x>" None (Some "other") None, None)]
          Store.empty)
     = 3.
Proof.
  assert (H : Props.consistent Store.empty).
  { unfold Props.consistent. cbn. repeat split; constructor. }
  split; [exact H|].
  split.
  - exact (proj1 (proj2
                    (writers_keep_store_consistent Sample.rt Sample.later
                       Store.empty H))
             [(Sample.record "<a@x>" None (Some "first") None, Some [Sample.pdf]);
              (Sample.record "<a@x>" None (Some "second") None, None);
              (Sample.record "<b@x>" None (Some "other") None, None)]).
  - split; vm_compute; reflexivity.
Defined.

(** ** The mail store: [batchUpsertEmails] *)

Lemma upsertEmail_select_other :
  forall rt clk email files db m,
    m <> DatabaseManager.messageId email ->
    Store.select_by_message_id m
      (fst (DatabaseManager.upsertEmail rt clk email files db))
    = Store.select_by_message_id m db.
Proof.
  intros rt clk email files db m Hm.
  unfold Store.select_by_message_id. rewrite upsertEmail_emails.
  unfold DatabaseManager.upsert_statement.
  destruct (Store.select_by_message_id (DatabaseManager.messageId email) db)
    as [old|] eqn:Hsel;
    cbn [fst Store.emails DatabaseManager.update_emails_where
         DatabaseManager.consume_rowid].
  - apply find_map_fixed.
    + intros r Hr. apply String.eqb_eq in Hr.
      destruct (String.eqb (Store.message_id r) (DatabaseManager.messageId email))
        eqn:E; [|reflexivity].
      apply String.eqb_eq in E. congruence.
    + intro r.
      destruct (String.eqb (Store.message_id r) (DatabaseManager.messageId email));
        reflexivity.
  - destruct (find (fun r => String.eqb (Store.message_id r) m) (Store.emails db))
      as [row|] eqn:Hfind.
    + apply find_app_found. exact Hfind.
    + rewrite (find_app_none _ _ _ _ Hfind). cbn.
      destruct (String.eqb (DatabaseManager.messageId email) m) eqn:E;
        [|reflexivity].
      apply String.eqb_eq in E. congruence.
Qed.

Lemma batchUpsertEmails_select_other :
  forall rt clk batch db m,
    Forall (fun ea => DatabaseManager.messageId (fst ea) <> m) batch ->
    Store.select_by_message_id m (DatabaseManager.batchUpsertEmails rt clk batch db)
    = Store.select_by_message_id m db.
Proof.
  intros rt clk batch. unfold DatabaseManager.batchUpsertEmails.
  induction batch as [|ea batch IH]; intros db m H; cbn [fold_left]; [reflexivity|].
  inversion H as [|? ? Hea Hrest]; subst.
  rewrite (IH _ m Hrest). apply upsertEmail_select_other.
  intro E. apply Hea. symmetry. exact E.
Qed.

(** Every record of a batch uses up one key. *)
Lemma batchUpsertEmails_draws_keys :
  forall rt clk batch db,
    Store.seq_emails (DatabaseManager.batchUpsertEmails rt clk batch db)
    = Store.seq_emails db + Z.of_nat (List.length batch).
Proof.
  intros rt clk batch. unfold DatabaseManager.batchUpsertEmails.
  induction batch as [|ea batch IH]; intro db; cbn [fold_left List.length].
  - lia.
  - rewrite IH, upsertEmail_draws_key. lia.
Qed.

(** X8: in a batch the last record for a message-id wins.  When no
    record after [email] in the batch has its message-id, the row found
    under that message-id after [batchUpsertEmails] is the row that the
    upsert of [email] left, built from [email] and its attachments over
    the store as the records before it made it: the later records do not
    touch it.  Its key is the key of the row that was there, or else the
    next key of a counter that every record before it has moved on by
    one, whether it was inserted or updated a row. *)
Theorem batchUpsertEmails_last_record_wins :
  forall (rt : DateApi) (clk : Store.Clock)
         (before after : list (DatabaseManager.EmailRecord
                               * option (list DatabaseManager.Attachment)))
         (email : DatabaseManager.EmailRecord)
         (files : option (list DatabaseManager.Attachment))
         (db : Store.Database),
    Forall
      (fun ea =>
         DatabaseManager.messageId (fst ea) <> DatabaseManager.messageId email)
      after ->
    Store.select_by_message_id (DatabaseManager.messageId email)
      (DatabaseManager.batchUpsertEmails rt clk
         (before ++ (email, files) :: after) db)
    = Some (Props.upserted_row rt clk email (Props.or_empty files)
              (DatabaseManager.batchUpsertEmails rt clk before db))
    /\ Store.seq_emails (DatabaseManager.batchUpsertEmails rt clk before db)
       = Store.seq_emails db + Z.of_nat (List.length before).
Proof.
  intros rt clk before after email files db Hafter.
  split; [|apply batchUpsertEmails_draws_keys].
  unfold DatabaseManager.batchUpsertEmails at 1.
  rewrite fold_left_app. cbn [fold_left fst snd].
  fold (DatabaseManager.batchUpsertEmails rt clk before db).
  fold (DatabaseManager.batchUpsertEmails rt clk after
          (fst (DatabaseManager.upsertEmail rt clk email
                  match files with Some l => l | None => [] end
                  (DatabaseManager.batchUpsertEmails rt clk before db)))).
  rewrite (batchUpsertEmails_select_other _ _ _ _ _ Hafter).
  apply upsertEmail_selects.
Qed.

Lemma batchUpsertEmails_last_record_wins_witness :
  Forall
    (fun ea : DatabaseManager.EmailRecord
              * option (list DatabaseManager.Attachment) =>
       DatabaseManager.messageId (fst ea) <> "<b@x>")
    [(Sample.record "<c@x>" None (Some "last") None, None)]
  /\ option_map (fun r => (Store.id r, Store.body_text r))
       (Store.select_by_message_id "<b@x>"
          (DatabaseManager.batchUpsertEmails Sample.rt Sample.clk
             ([(Sample.record "<a@x>" None (Some "first") None, None);
               (Sample.record "<b@x>" None (Some "draft") None, None);
               (Sample.record "<a@x>" None (Some "second") None, None)]
              ++ (Sample.record "<b@x>" None (Some "final") None, None)
                 :: [(Sample.record "<c@x>" None (Some "last") None, None)])
             Store.empty))
     = Some (2, Some "final")
  /\ option_map Store.id
       (Store.select_by_message_id "<c@x>"
          (DatabaseManager.batchUpsertEmails Sample.rt Sample.clk
             ([(Sample.record "<a@x>" None (Some "first") None, None);
               (Sample.record "<b@x>" None (Some "draft") None, None);
               (Sample.record "<a@x>" None (Some "second") None, None);
               (Sample.record "<b@x>" None (Some "final") None, None)]
              ++ (Sample.record "<c@x>" None (Some "last") None, None) :: [])
             Store.empty))
     = Some 5.
Proof.
  assert (H : Forall
                (fun ea : DatabaseManager.EmailRecord
                          * option (list DatabaseManager.Attachment) =>
                   DatabaseManager.messageId (fst ea) <> "<b@x>")
                [(Sample.record "<c@x>" None (Some "last") None, None)]).
  { constructor; [cbn; discriminate|constructor]. }
  split; [exact H|]. split.
  - exact (f_equal (option_map (fun r => (Store.id r, Store.body_text r)))
             (proj1 (batchUpsertEmails_last_record_wins Sample.rt Sample.clk
                [(Sample.record "<a@x>" None (Some "first") None, None);
                 (Sample.record "<b@x>" None (Some "draft") None, None);
                 (Sample.record "<a@x>" None (Some "second") None, None)]
                [(Sample.record "<c@x>" None (Some "last") None, None)]
                (Sample.record "<b@x>" None (Some "final") None) None
                Store.empty H))).
  - exact (f_equal (option_map Store.id)
             (proj1 (batchUpsertEmails_last_record_wins Sample.rt Sample.clk
                [(Sample.record "<a@x>" None (Some "first") None, None);
                 (Sample.record "<b@x>" None (Some "draft") None, None);
                 (Sample.record "<a@x>" None (Some "second") None, None);
                 (Sample.record "<b@x>" None (Some "final") None, None)]
                []
                (Sample.record "<c@x>" None (Some "last") None) None
                Store.empty (Forall_nil _)))).
Defined.

(** ** The sync service: what a run stores and dispatches *)

Lemma In_firstn :
  forall (A : Type) (n : nat) (l : list A) (a : A),
    In a (firstn n l) -> In a l.
Proof.
  intros A n. induction n as [|n IH]; intros [|x l] a H; cbn in H; try contradiction.
  destruct H as [H|H]; [left; exact H|right; exact (IH l a H)].
Qed.

Lemma In_skipn :
  forall (A : Type) (n : nat) (l : list A) (a : A),
    In a (skipn n l) -> In a l.
Proof.
  intros A n. induction n as [|n IH]; intros [|x l] a H; cbn in H;
    try contradiction; try exact H.
  right. exact (IH l a H).
Qed.

Lemma synced_shape_more :
  forall options uids uids' r,
    (forall uid, In uid uids -> In uid uids') ->
    Props.synced_shape options uids r -> Props.synced_shape options uids' r.
Proof.
  intros options uids uids' r Hsub [Hf [Hr [uid [Hin Hu]]]].
  split; [exact Hf|]. split; [exact Hr|].
  exists uid. split; [apply Hsub; exact Hin|exact Hu].
Qed.

(** One turn of the loop without a listeners manager: it appends at
    most one row, and counts it as synced when it does. *)
Lemma process_appends :
  forall rt clk lower parse mailbox options stats st uid,
    exists new,
      Store.emails
        (EmailSyncService.database
           (snd (EmailSyncService.process rt clk lower parse mailbox None
                   options (stats, st) uid)))
      = Store.emails (EmailSyncService.database st) ++ new
      /\ EmailSyncService.synced
           (fst (EmailSyncService.process rt clk lower parse mailbox None
                   options (stats, st) uid))
         = EmailSyncService.synced stats + Z.of_nat (List.length new)
      /\ Forall (Props.synced_shape options [uid]) new
      /\ EmailSyncService.dispatched
           (snd (EmailSyncService.process rt clk lower parse mailbox None
                   options (stats, st) uid))
         = EmailSyncService.dispatched st
      /\ (List.length new <= 1)%nat.
Proof.
  intros rt clk lower parse mailbox options stats st uid.
  unfold EmailSyncService.process.
  destruct (EmailSyncService.fetchEmail mailbox uid) as [rawEmail|e].
  2: { exists []. cbn. rewrite app_nil_r, Z.add_0_r.
       repeat split; [constructor|lia]. }
  destruct (EmailSyncService.existing rawEmail (EmailSyncService.database st)).
  { exists []. cbn. rewrite app_nil_r, Z.add_0_r.
    repeat split; [constructor|lia]. }
  destruct (EmailSyncService.filtered_out options rawEmail).
  { exists []. cbn. rewrite app_nil_r, Z.add_0_r.
    repeat split; [constructor|lia]. }
  unfold EmailDatabase.insertEmail.
  destruct (Store.select_by_message_id _ (EmailSyncService.database st)).
  { exists []. cbn. rewrite app_nil_r, Z.add_0_r.
    repeat split; [constructor|lia]. }
  eexists. cbn [fst snd EmailSyncService.database Store.emails
                EmailSyncService.synced EmailSyncService.count_synced
                EmailSyncService.dispatched].
  split; [reflexivity|]. split; [reflexivity|].
  split; [|split; [reflexivity|cbn; lia]].
  constructor; [|constructor].
  split; [|split].
  - cbn. destruct (EmailSyncService.folder options) as [f|]; [|reflexivity].
    cbn. destruct (truthy_string f) eqn:Hf; [rewrite Hf|]; reflexivity.
  - cbn. destruct (EmailSyncService.markAsRead options) as [[|]|]; reflexivity.
  - exists uid. split; [left; reflexivity|]. reflexivity.
Qed.

Lemma fold_process_appends :
  forall rt clk lower parse mailbox options uids stats st,
    exists new,
      Store.emails
        (EmailSyncService.database
           (snd (fold_left
                   (EmailSyncService.process rt clk lower parse mailbox None options)
                   uids (stats, st))))
      = Store.emails (EmailSyncService.database st) ++ new
      /\ EmailSyncService.synced
           (fst (fold_left
                   (EmailSyncService.process rt clk lower parse mailbox None options)
                   uids (stats, st)))
         = EmailSyncService.synced stats + Z.of_nat (List.length new)
      /\ Forall (Props.synced_shape options uids) new
      /\ EmailSyncService.dispatched
           (snd (fold_left
                   (EmailSyncService.process rt clk lower parse mailbox None options)
                   uids (stats, st)))
         = EmailSyncService.dispatched st
      /\ (List.length new <= List.length uids)%nat.
Proof.
  intros rt clk lower parse mailbox options uids.
  induction uids as [|uid uids IH]; intros stats st; cbn [fold_left].
  - exists []. cbn. rewrite app_nil_r, Z.add_0_r.
    repeat split; [constructor|lia].
  - destruct (process_appends rt clk lower parse mailbox options stats st uid)
      as [new1 [He1 [Hs1 [Hshape1 [Hd1 Hn1]]]]].
    destruct (EmailSyncService.process rt clk lower parse mailbox None options
                (stats, st) uid) as [stats1 st1].
    cbn [fst snd] in He1, Hs1, Hd1.
    destruct (IH stats1 st1) as [new2 [He2 [Hs2 [Hshape2 [Hd2 Hn2]]]]].
    exists (new1 ++ new2). rewrite He2, He1, Hs2, Hs1, Hd2, Hd1, length_app.
    split; [symmetry; apply app_assoc|]. split; [lia|].
    split; [|split; [reflexivity|cbn [List.length]; lia]].
    apply Forall_app. split.
    + eapply Forall_impl; [|exact Hshape1]. intro r.
      apply synced_shape_more. intros u [Hu|[]]. left. exact Hu.
    + eapply Forall_impl; [|exact Hshape2]. intro r.
      apply synced_shape_more. intros u Hu. right. exact Hu.
Qed.

(** A run without a listeners manager, as a whole. *)
Lemma syncEmails_run_appends :
  forall rt clk lower parse thirty mailbox options st,
    match EmailSyncService.syncEmails rt clk lower parse thirty mailbox None
            options st with
    | (Thrown _, st') => st' = st
    | (Returned stats, st') =>
        exists (uids : list Z) (new : list Store.EmailRow),
          EmailSyncService.searchEmails mailbox
            (EmailSyncService.build_criteria clk thirty options) = Returned uids
          /\ Store.emails (EmailSyncService.database st')
             = Store.emails (EmailSyncService.database st) ++ new
          /\ Z.of_nat (List.length new) = EmailSyncService.synced stats
          /\ Forall (Props.synced_shape options uids) new
          /\ EmailSyncService.dispatched st' = EmailSyncService.dispatched st
          /\ (List.length new
              <= List.length (EmailSyncService.uidsToProcess options uids))%nat
    end.
Proof.
  intros rt clk lower parse thirty mailbox options st.
  unfold EmailSyncService.syncEmails.
  destruct (EmailSyncService.connect mailbox); [reflexivity|].
  destruct (match EmailSyncService.folder options with
            | Some f =>
                if truthy_string f && negb (String.eqb f "INBOX")
                then EmailSyncService.openFolder mailbox f
                else EmailSyncService.openInbox mailbox
            | None => EmailSyncService.openInbox mailbox
            end); [reflexivity|].
  destruct (EmailSyncService.searchEmails mailbox
              (EmailSyncService.build_criteria clk thirty options))
    as [uids|e]; [|reflexivity].
  destruct (fold_process_appends rt clk lower parse mailbox options
              (EmailSyncService.uidsToProcess options uids)
              {| EmailSyncService.synced := 0; EmailSyncService.skipped := 0;
                 EmailSyncService.errors := 0 |} st)
    as [new [He [Hs [Hshape [Hd Hn]]]]].
  destruct (fold_left
              (EmailSyncService.process rt clk lower parse mailbox None options)
              (EmailSyncService.uidsToProcess options uids) _) as [stats' st'].
  cbn [fst snd] in He, Hs, Hd.
  exists uids, new. split; [reflexivity|]. split; [exact He|].
  split; [rewrite Hs; cbn; lia|]. split; [|split; [exact Hd|exact Hn]].
  eapply Forall_impl; [|exact Hshape]. intro r.
  apply synced_shape_more. intros u Hu.
  unfold EmailSyncService.uidsToProcess, slice0 in Hu.
  destruct (_ <? 0) in Hu; exact (In_firstn _ _ _ _ Hu).
Qed.

(** X9: without a listeners manager a sync run only appends.  When
    [syncEmails] throws, store and state are as before.  When it returns,
    the [emails] table is the table as it was followed by new rows; their
    number is the counter [synced]; each of them sits in the folder of the
    run, carries the read flag of the run and the UID of one of the UIDs
    that the search found. *)
Theorem syncEmails_appends_what_it_counts :
  forall (rt : DateApi) (clk : Store.Clock) (lower : string -> string)
         (parse : string -> list EmailSyncService.ParsedAddress)
         (thirty : Date -> Date) (mailbox : EmailSyncService.EmailSearcher)
         (options : EmailSyncService.SyncOptions) (st : EmailSyncService.State),
    match EmailSyncService.syncEmails rt clk lower parse thirty mailbox None
            options st with
    | (Thrown _, st') => st' = st
    | (Returned stats, st') =>
        exists (uids : list Z) (new : list Store.EmailRow),
          EmailSyncService.searchEmails mailbox
            (EmailSyncService.build_criteria clk thirty options) = Returned uids
          /\ Store.emails (EmailSyncService.database st')
             = Store.emails (EmailSyncService.database st) ++ new
          /\ Z.of_nat (List.length new) = EmailSyncService.synced stats
          /\ Forall (Props.synced_shape options uids) new
          /\ EmailSyncService.dispatched st' = EmailSyncService.dispatched st
    end.
Proof.
  intros rt clk lower parse thirty mailbox options st.
  pose proof (syncEmails_run_appends rt clk lower parse thirty mailbox options st)
    as H.
  destruct (EmailSyncService.syncEmails rt clk lower parse thirty mailbox None
              options st) as [[stats|e] st']; [|exact H].
  destruct H as [uids [new [H1 [H2 [H3 [H4 [H5 _]]]]]]].
  exists uids, new. repeat split; assumption.
Qed.

Lemma dispatched_shape_more :
  forall options uids uids' email,
    (forall uid, In uid uids -> In uid uids') ->
    Props.dispatched_shape options uids email ->
    Props.dispatched_shape options uids' email.
Proof.
  intros options uids uids' email Hsub [Hm [Hr [Hl [uid [Hin Hu]]]]].
  split; [exact Hm|]. split; [exact Hr|]. split; [exact Hl|].
  exists uid. split; [apply Hsub; exact Hin|exact Hu].
Qed.

Lemma show_int_truthy :
  forall n : Z, truthy_string (show_int n) = true.
Proof.
  intro n. unfold show_int, NilZero.string_of_int.
  destruct (Z.to_int n) as [d|d]; cbn.
  - unfold NilZero.string_of_uint. destruct d; reflexivity.
  - reflexivity.
Qed.

Lemma or_else_truthy :
  forall (o : option string) (d : string),
    truthy_string d = true -> truthy_string (or_else o d) = true.
Proof.
  intros [s|] d Hd; cbn; [|exact Hd].
  destruct (truthy_string s) eqn:Hs; [exact Hs|exact Hd].
Qed.

Lemma append_truthy :
  forall a b : string, truthy_string a = true -> truthy_string (a ++ b) = true.
Proof.
  intros [|c a] b H; [discriminate H|reflexivity].
Qed.

(** One turn of the loop with a listeners manager: it hands over at
    most one event, and counts a message as synced when it does. *)
Lemma process_dispatches :
  forall rt clk lower parse mailbox checkEvent options stats st uid,
    exists events,
      EmailSyncService.dispatched
        (snd (EmailSyncService.process rt clk lower parse mailbox
                (Some checkEvent) options (stats, st) uid))
      = EmailSyncService.dispatched st ++ events
      /\ EmailSyncService.synced
           (fst (EmailSyncService.process rt clk lower parse mailbox
                   (Some checkEvent) options (stats, st) uid))
         = EmailSyncService.synced stats + Z.of_nat (List.length events)
      /\ Forall (Props.dispatched_shape options [uid]) events.
Proof.
  intros rt clk lower parse mailbox checkEvent options stats st uid.
  unfold EmailSyncService.process.
  destruct (EmailSyncService.fetchEmail mailbox uid) as [rawEmail|e].
  2: { exists []. cbn. rewrite app_nil_r, Z.add_0_r. repeat split. constructor. }
  destruct (EmailSyncService.existing rawEmail (EmailSyncService.database st)).
  { exists []. cbn. rewrite app_nil_r, Z.add_0_r. repeat split. constructor. }
  destruct (EmailSyncService.filtered_out options rawEmail).
  { exists []. cbn. rewrite app_nil_r, Z.add_0_r. repeat split. constructor. }
  unfold EmailDatabase.insertEmail.
  destruct (Store.select_by_message_id _ (EmailSyncService.database st)).
  { exists []. cbn. rewrite app_nil_r, Z.add_0_r. repeat split. constructor. }
  eexists. cbn [fst snd EmailSyncService.synced EmailSyncService.count_synced
                EmailSyncService.dispatched].
  split; [reflexivity|]. split; [reflexivity|].
  constructor; [|constructor].
  split; [|split; [|split]].
  - cbn. apply or_else_truthy. apply append_truthy. apply show_int_truthy.
  - reflexivity.
  - reflexivity.
  - exists uid. split; [left; reflexivity|reflexivity].
Qed.

Lemma fold_process_dispatches :
  forall rt clk lower parse mailbox checkEvent options uids stats st,
    exists events,
      EmailSyncService.dispatched
        (snd (fold_left
                (EmailSyncService.process rt clk lower parse mailbox
                   (Some checkEvent) options)
                uids (stats, st)))
      = EmailSyncService.dispatched st ++ events
      /\ EmailSyncService.synced
           (fst (fold_left
                   (EmailSyncService.process rt clk lower parse mailbox
                      (Some checkEvent) options)
                   uids (stats, st)))
         = EmailSyncService.synced stats + Z.of_nat (List.length events)
      /\ Forall (Props.dispatched_shape options uids) events.
Proof.
  intros rt clk lower parse mailbox checkEvent options uids.
  induction uids as [|uid uids IH]; intros stats st; cbn [fold_left].
  - exists []. cbn. rewrite app_nil_r, Z.add_0_r. repeat split. constructor.
  - destruct (process_dispatches rt clk lower parse mailbox checkEvent options
                stats st uid) as [ev1 [Hd1 [Hs1 Hshape1]]].
    destruct (EmailSyncService.process rt clk lower parse mailbox
                (Some checkEvent) options (stats, st) uid) as [stats1 st1].
    cbn [fst snd] in Hd1, Hs1.
    destruct (IH stats1 st1) as [ev2 [Hd2 [Hs2 Hshape2]]].
    exists (ev1 ++ ev2). rewrite Hd2, Hd1, Hs2, Hs1, length_app.
    split; [symmetry; apply app_assoc|]. split; [lia|].
    apply Forall_app. split.
    + eapply Forall_impl; [|exact Hshape1]. intro r.
      apply dispatched_shape_more. intros u [Hu|[]]. left. exact Hu.
    + eapply Forall_impl; [|exact Hshape2]. intro r.
      apply dispatched_shape_more. intros u Hu. right. exact Hu.
Qed.

(** X10: with a listeners manager a sync run hands over one
    [email_received] event per message it stores.  When [syncEmails]
    returns, the events handed over during the run are as many as the
    counter [synced] says; each carries the UID of one of the UIDs that
    the search found, a message-id that is not empty, the read flag of
    the run and no labels.  When it throws, nothing was handed over and
    the state is as before. *)
Theorem syncEmails_dispatches_what_it_counts :
  forall (rt : DateApi) (clk : Store.Clock) (lower : string -> string)
         (parse : string -> list EmailSyncService.ParsedAddress)
         (thirty : Date -> Date) (mailbox : EmailSyncService.EmailSearcher)
         (checkEvent : Types.Email -> Store.Database -> Store.Database)
         (options : EmailSyncService.SyncOptions) (st : EmailSyncService.State),
    match EmailSyncService.syncEmails rt clk lower parse thirty mailbox
            (Some checkEvent) options st with
    | (Thrown _, st') => st' = st
    | (Returned stats, st') =>
        exists (uids : list Z) (events : list Types.Email),
          EmailSyncService.searchEmails mailbox
            (EmailSyncService.build_criteria clk thirty options) = Returned uids
          /\ EmailSyncService.dispatched st'
             = EmailSyncService.dispatched st ++ events
          /\ Z.of_nat (List.length events) = EmailSyncService.synced stats
          /\ Forall (Props.dispatched_shape options uids) events
    end.
Proof.
  intros rt clk lower parse thirty mailbox checkEvent options st.
  unfold EmailSyncService.syncEmails.
  destruct (EmailSyncService.connect mailbox); [reflexivity|].
  destruct (match EmailSyncService.folder options with
            | Some f =>
                if truthy_string f && negb (String.eqb f "INBOX")
                then EmailSyncService.openFolder mailbox f
                else EmailSyncService.openInbox mailbox
            | None => EmailSyncService.openInbox mailbox
            end); [reflexivity|].
  destruct (EmailSyncService.searchEmails mailbox
              (EmailSyncService.build_criteria clk thirty options))
    as [uids|e]; [|reflexivity].
  destruct (fold_process_dispatches rt clk lower parse mailbox checkEvent options
              (EmailSyncService.uidsToProcess options uids)
              {| EmailSyncService.synced := 0; EmailSyncService.skipped := 0;
                 EmailSyncService.errors := 0 |} st)
    as [events [Hd [Hs Hshape]]].
  destruct (fold_left
              (EmailSyncService.process rt clk lower parse mailbox
                 (Some checkEvent) options)
              (EmailSyncService.uidsToProcess options uids) _) as [stats' st'].
  cbn [fst snd] in Hd, Hs.
  exists uids, events. split; [reflexivity|]. split; [exact Hd|].
  split; [rewrite Hs; cbn; lia|].
  eapply Forall_impl; [|exact Hshape]. intro r.
  apply dispatched_shape_more. intros u Hu.
  unfold EmailSyncService.uidsToProcess, slice0 in Hu.
  destruct (_ <? 0) in Hu; exact (In_firstn _ _ _ _ Hu).
Qed.

(** ** The sync service: a positive limit, and the IDLE entry point *)

Lemma slice0_positive_length :
  forall (A : Type) (n : Z) (xs : list A),
    0 <= n ->
    Z.of_nat (List.length (slice0 n xs)) = Z.min n (Z.of_nat (List.length xs)).
Proof.
  intros A n xs Hn. unfold slice0.
  replace (n <? 0) with false by (symmetry; apply Z.ltb_ge; exact Hn).
  rewrite length_firstn. lia.
Qed.

(** X11: a positive limit bounds a run.  With [limit = n] for a positive
    [n], a run that returns has counted, as synced, skipped or failed,
    exactly the first [n] of the UIDs that the search found, or all of
    them when there are fewer. *)
Theorem syncEmails_positive_limit :
  forall (rt : DateApi) (clk : Store.Clock) (lower : string -> string)
         (parse : string -> list EmailSyncService.ParsedAddress)
         (thirty : Date -> Date) (mailbox : EmailSyncService.EmailSearcher)
         (listeners : option (Types.Email -> Store.Database -> Store.Database))
         (options : EmailSyncService.SyncOptions) (n : Z)
         (st : EmailSyncService.State),
    EmailSyncService.limit options = Some n ->
    0 < n ->
    match fst (EmailSyncService.syncEmails rt clk lower parse thirty mailbox
                 listeners options st) with
    | Returned stats =>
        exists uids,
          EmailSyncService.searchEmails mailbox
            (EmailSyncService.build_criteria clk thirty options) = Returned uids
          /\ EmailSyncService.uidsToProcess options uids
             = firstn (Z.to_nat n) uids
          /\ Spec.total stats = Z.min n (Z.of_nat (List.length uids))
    | Thrown _ => True
    end.
Proof.
  intros rt clk lower parse thirty mailbox listeners options n st Hlimit Hn.
  destruct (EmailSyncService.syncEmails rt clk lower parse thirty mailbox
              listeners options st) as [[stats|e] st'] eqn:Hrun; cbn [fst];
    [|exact I].
  destruct (syncEmails_counts _ _ _ _ _ _ _ _ _ _ _ Hrun) as [uids [Hsearch Htotal]].
  exists uids. split; [exact Hsearch|].
  assert (Hslice : EmailSyncService.uidsToProcess options uids
                   = slice0 n uids).
  { unfold EmailSyncService.uidsToProcess. rewrite Hlimit. cbn.
    unfold truthy_num.
    replace (n =? 0) with false by (symmetry; apply Z.eqb_neq; lia).
    reflexivity. }
  split.
  - rewrite Hslice. unfold slice0.
    replace (n <? 0) with false by (symmetry; apply Z.ltb_ge; lia).
    reflexivity.
  - rewrite Htotal, Hslice. apply slice0_positive_length. lia.
Qed.

Lemma syncEmails_positive_limit_witness :
  EmailSyncService.limit (Sample.with_limit (Some 1)) = Some 1
  /\ 0 < 1
  /\ exists uids,
       EmailSyncService.searchEmails Sample.one_with_id
         (EmailSyncService.build_criteria Sample.clk Sample.thirty_days_before
            (Sample.with_limit (Some 1))) = Returned uids
       /\ EmailSyncService.uidsToProcess (Sample.with_limit (Some 1)) uids
          = firstn (Z.to_nat 1) uids
       /\ Spec.total
            {| EmailSyncService.synced := 1; EmailSyncService.skipped := 0;
               EmailSyncService.errors := 0 |}
          = Z.min 1 (Z.of_nat (List.length uids)).
Proof.
  assert (H1 : EmailSyncService.limit (Sample.with_limit (Some 1)) = Some 1)
    by reflexivity.
  assert (H2 : 0 < 1) by lia.
  split; [exact H1|]. split; [exact H2|].
  exact (syncEmails_positive_limit Sample.rt Sample.clk Sample.lower Sample.parse
           Sample.thirty_days_before Sample.one_with_id None
           (Sample.with_limit (Some 1)) 1 Sample.fresh H1 H2).
Defined.

(** ** The order of texts *)









(** ** The sync service: [syncNewEmails] and [handleIdleNewEmails] *)




(** X13: an IDLE notification for [count] new messages stores no more
    than [count + 5].  With [count + 5] positive and no listeners
    manager, [handleIdleNewEmails] leaves the [emails] table as it was
    followed by at most [count + 5] new rows, each in the folder of the
    notification; of its own it prints two lines, the second of which
    tells the number of rows stored or, when the run threw, the error,
    in which case nothing was stored. *)
Theorem handleIdleNewEmails_bounded :
  forall (rt : DateApi) (clk : Store.Clock) (lower : string -> string)
         (parse : string -> list EmailSyncService.ParsedAddress)
         (thirty : Date -> Date) (mailbox : EmailSyncService.EmailSearcher)
         (count : Z) (folder : option string) (st : EmailSyncService.State),
    0 < count + 5 ->
    exists (new : list Store.EmailRow) (first second : ListenersManager.LogLine),
      Store.emails
        (EmailSyncService.database
           (snd (SyncEntryPoints.handleIdleNewEmails rt clk lower parse thirty
                   mailbox None count folder st)))
      = Store.emails (EmailSyncService.database st) ++ new
      /\ Z.of_nat (List.length new) <= count + 5
      /\ Forall (fun r => Store.folder r = or_else folder "INBOX") new
      /\ fst (SyncEntryPoints.handleIdleNewEmails rt clk lower parse thirty
                mailbox None count folder st) = [first; second]
      /\ (second
          = ListenersManager.Log
              ("IDLE sync complete: " ++ show_int (Z.of_nat (List.length new))
               ++ " new email(s) synced")
          \/ exists error,
               new = []
               /\ second
                  = ListenersManager.LogError "Error syncing emails from IDLE:"
                      (Some error)).
Proof.
  intros rt clk lower parse thirty mailbox count folder st Hcount.
  unfold SyncEntryPoints.handleIdleNewEmails.
  pose proof (syncEmails_run_appends rt clk lower parse thirty mailbox
                (SyncEntryPoints.idle_options clk count
                   match folder with Some f => f | None => "INBOX" end) st) as H.
  destruct (EmailSyncService.syncEmails rt clk lower parse thirty mailbox None
              _ st) as [[stats|e] st'].
  - destruct H as [uids [new [_ [He [Hs [Hshape [_ Hn]]]]]]].
    exists new. eexists. eexists. cbn [fst snd].
    split; [exact He|]. split; [|split; [|split; [reflexivity|]]].
    + assert (Hlen : Z.of_nat
                       (List.length
                          (EmailSyncService.uidsToProcess
                             (SyncEntryPoints.idle_options clk count
                                match folder with
                                | Some f => f
                                | None => "INBOX"
                                end) uids))
                     = Z.min (count + 5) (Z.of_nat (List.length uids))).
      { unfold EmailSyncService.uidsToProcess. cbn. unfold truthy_num.
        replace (count + 5 =? 0) with false by (symmetry; apply Z.eqb_neq; lia).
        cbn. apply slice0_positive_length. lia. }
      lia.
    + eapply Forall_impl; [|exact Hshape]. cbn. intros r [Hf _].
      rewrite Hf. destruct folder as [f|]; reflexivity.
    + left. rewrite Hs. reflexivity.
  - subst st'. exists []. eexists. eexists. cbn [fst snd].
    split; [symmetry; apply app_nil_r|]. split; [cbn; lia|].
    split; [constructor|]. split; [reflexivity|].
    right. exists e. split; reflexivity.
Qed.

Lemma handleIdleNewEmails_bounded_witness :
  0 < 1 + 5
  /\ exists (new : list Store.EmailRow) (first second : ListenersManager.LogLine),
       Store.emails
         (EmailSyncService.database
            (snd (SyncEntryPoints.handleIdleNewEmails Sample.rt Sample.clk
                    Sample.lower Sample.parse Sample.thirty_days_before
                    Sample.one_with_id None 1 None Sample.fresh)))
       = Store.emails (EmailSyncService.database Sample.fresh) ++ new
       /\ Z.of_nat (List.length new) <= 1 + 5
       /\ Forall (fun r => Store.folder r = or_else None "INBOX") new
       /\ fst (SyncEntryPoints.handleIdleNewEmails Sample.rt Sample.clk
                 Sample.lower Sample.parse Sample.thirty_days_before
                 Sample.one_with_id None 1 None Sample.fresh) = [first; second]
       /\ (second
           = ListenersManager.Log
               ("IDLE sync complete: " ++ show_int (Z.of_nat (List.length new))
                ++ " new email(s) synced")
           \/ exists error,
                new = []
                /\ second
                   = ListenersManager.LogError "Error syncing emails from IDLE:"
                       (Some error)).
Proof.
  assert (H : 0 < 1 + 5) by lia.
  split; [exact H|].
  exact (handleIdleNewEmails_bounded Sample.rt Sample.clk Sample.lower
           Sample.parse Sample.thirty_days_before Sample.one_with_id 1 None
           Sample.fresh H).
Defined.

(** ** The listener registry: lookup, reload and statistics *)

Section RegistryLookup.

Import ListenersManager.

Context {DB Remote : Type} (Data : Type).

Local Abbreviation Module_ := (ListenerModule DB Remote Data).

Local Abbreviation register :=
  (fun (m : Registry DB Remote Data) (l : Module_) =>
     map_set (Types.id (config l)) l m).

Lemma map_get_set_same :
  forall (key : string) (value : Module_) (m : Registry DB Remote Data),
    map_get key (map_set key value m) = Some value.
Proof.
  intros key value m. unfold map_get.
  induction m as [|[k v] rest IH]; cbn.
  - rewrite String.eqb_refl. reflexivity.
  - destruct (String.eqb k key) eqn:E; cbn; rewrite E; [reflexivity|exact IH].
Qed.

Lemma map_get_set_other :
  forall (key key' : string) (value : Module_) (m : Registry DB Remote Data),
    String.eqb key key' = false ->
    map_get key' (map_set key value m) = map_get key' m.
Proof.
  intros key key' value m Hne. unfold map_get.
  induction m as [|[k v] rest IH]; cbn.
  - rewrite Hne. reflexivity.
  - destruct (String.eqb k key) eqn:E; cbn.
    + apply String.eqb_eq in E. subst k. rewrite Hne. reflexivity.
    + destruct (String.eqb k key'); [reflexivity|exact IH].
Qed.

Lemma map_set_keys :
  forall (key : string) (value : Module_) (m : Registry DB Remote Data),
    map fst (map_set key value m)
    = if existsb (String.eqb key) (map fst m) then map fst m
      else map fst m ++ [key].
Proof.
  intros key value m. induction m as [|[k v] rest IH]; cbn; [reflexivity|].
  rewrite (String.eqb_sym key k).
  destruct (String.eqb k key) eqn:E; cbn; [reflexivity|].
  rewrite IH. destruct (existsb (String.eqb key) (map fst rest)); reflexivity.
Qed.

Lemma map_set_well_keyed :
  forall (l : Module_) (m : Registry DB Remote Data),
    Types.enabled (config l) = true ->
    Props.well_keyed m -> Props.well_keyed (map_set (Types.id (config l)) l m).
Proof.
  intros l m Hen [Hnd Hall]. split.
  - rewrite map_set_keys.
    destruct (existsb (String.eqb (Types.id (config l))) (map fst m)) eqn:E;
      [exact Hnd|].
    apply NoDup_snoc_any; [exact Hnd|].
    intro Hin. assert (Hex : existsb (String.eqb (Types.id (config l)))
                               (map fst m) = true).
    { apply existsb_exists. exists (Types.id (config l)).
      split; [exact Hin|apply String.eqb_refl]. }
    rewrite Hex in E. discriminate E.
  - clear Hnd. induction m as [|[k v] rest IH]; cbn.
    + constructor; [split; [reflexivity|exact Hen]|constructor].
    + inversion Hall as [|? ? Hkv Hrest]; subst.
      destruct (String.eqb k (Types.id (config l))) eqn:E.
      * constructor; [|exact Hrest]. cbn. split; [|exact Hen].
        apply String.eqb_eq. exact E.
      * constructor; [exact Hkv|exact (IH Hrest)].
Qed.

Lemma register_all_well_keyed :
  forall (ms : list Module_) (m : Registry DB Remote Data),
    Forall (fun l => Types.enabled (config l) = true) ms ->
    Props.well_keyed m -> Props.well_keyed (fold_left register ms m).
Proof.
  induction ms as [|l ms IH]; intros m Hen Hm; cbn [fold_left]; [exact Hm|].
  inversion Hen as [|? ? Hl Hrest]; subst.
  apply IH; [exact Hrest|]. apply map_set_well_keyed; assumption.
Qed.

Lemma register_all_get :
  forall (ms : list Module_) (m : Registry DB Remote Data) (key : string),
    map_get key (fold_left register ms m)
    = match find (fun l => String.eqb (Types.id (config l)) key) (rev ms) with
      | Some l => Some l
      | None => map_get key m
      end.
Proof.
  induction ms as [|l ms IH]; intros m key; cbn [fold_left rev]; [reflexivity|].
  rewrite IH.
  destruct (find (fun l0 => String.eqb (Types.id (config l0)) key) (rev ms))
    as [found|] eqn:Hfind.
  - rewrite (find_app_found _ _ _ _ _ Hfind). reflexivity.
  - rewrite (find_app_none _ _ _ _ Hfind). cbn [find].
    destruct (String.eqb (Types.id (config l)) key) eqn:E.
    + apply String.eqb_eq in E. subst key. apply map_get_set_same.
    + apply map_get_set_other. exact E.
Qed.

Lemma qualifying_enabled :
  forall (dir : Directory DB Remote Data) (files : list string),
    Forall (fun l => Types.enabled (config l) = true)
           (Contract.qualifying Data dir files).
Proof.
  intros dir files. unfold Contract.qualifying.
  induction files as [|file files IH]; cbn [flat_map]; [constructor|].
  apply Forall_app. split; [|exact IH].
  destruct (is_listener_file file); [|constructor].
  destruct (import_file dir file) as [module|e]; [|constructor].
  destruct (exp_config module) as [cfg|]; [|constructor].
  destruct (exp_handler module) as [h|]; [|constructor].
  destruct (Types.enabled cfg) eqn:E; [|constructor].
  constructor; [exact E|constructor].
Qed.

(** The registry that a load leaves depends on the directory alone. *)
Lemma loadAllListeners_from_directory :
  forall (dir : Directory DB Remote Data)
         (st : Manager DB Remote Data * list LogLine),
    listeners (fst (snd (loadAllListeners dir st)))
    = match readdir dir with
      | Returned files =>
          fold_left register (Contract.qualifying Data dir files) []
      | Thrown _ => []
      end
    /\ fst (loadAllListeners dir st)
       = map config (map_values (listeners (fst (snd (loadAllListeners dir st))))).
Proof.
  intros dir st. destruct (readdir dir) as [files|e] eqn:Hread.
  - exact (loadAllListeners_registry Data dir st files Hread).
  - destruct st as [this out]. unfold loadAllListeners. rewrite Hread.
    split; reflexivity.
Qed.

End RegistryLookup.

(** X14: after a load, [getListener] answers with the last file of the
    listing that qualifies under the id asked for.  For a readable
    directory it returns the module of the last qualifying file whose
    config has that id, and nothing when no qualifying file has it; for
    an unreadable directory it returns nothing. *)
Theorem getListener_after_load :
  forall (DB Remote Data : Type)
         (dir : ListenersManager.Directory DB Remote Data)
         (st : ListenersManager.Manager DB Remote Data
               * list ListenersManager.LogLine)
         (id : string),
    ListenersManager.getListener
      (fst (snd (ListenersManager.loadAllListeners dir st))) id
    = match ListenersManager.readdir dir with
      | Returned files =>
          find (fun l => String.eqb (Types.id (ListenersManager.config l)) id)
               (rev (Contract.qualifying Data dir files))
      | Thrown _ => None
      end.
Proof.
  intros DB Remote Data dir st id. unfold ListenersManager.getListener.
  rewrite (proj1 (loadAllListeners_from_directory Data dir st)).
  destruct (ListenersManager.readdir dir) as [files|e]; [|reflexivity].
  rewrite register_all_get. cbn.
  destruct (find _ (rev (Contract.qualifying Data dir files))); reflexivity.
Qed.

(** X15: a load replaces the registry.  After [loadAllListeners],
    whatever was registered before, the registry holds each id once,
    every entry is keyed by the id of its own config and is enabled, and
    the registry and the configs returned are those that the same
    directory yields from any other state of the manager: nothing of an
    earlier load survives. *)
Theorem loadAllListeners_replaces_registry :
  forall (DB Remote Data : Type)
         (dir : ListenersManager.Directory DB Remote Data)
         (st st' : ListenersManager.Manager DB Remote Data
                   * list ListenersManager.LogLine),
    Props.well_keyed
      (ListenersManager.listeners
         (fst (snd (ListenersManager.loadAllListeners dir st))))
    /\ ListenersManager.listeners
         (fst (snd (ListenersManager.loadAllListeners dir st)))
       = ListenersManager.listeners
           (fst (snd (ListenersManager.loadAllListeners dir st')))
    /\ fst (ListenersManager.loadAllListeners dir st)
       = fst (ListenersManager.loadAllListeners dir st')
    /\ fst (ListenersManager.loadAllListeners dir st)
       = ListenersManager.getAllListeners
           (fst (snd (ListenersManager.loadAllListeners dir st))).
Proof.
  intros DB Remote Data dir st st'.
  destruct (loadAllListeners_from_directory Data dir st) as [H1 H2].
  destruct (loadAllListeners_from_directory Data dir st') as [H1' H2'].
  split; [|split; [|split]].
  - rewrite H1. destruct (ListenersManager.readdir dir) as [files|e].
    + apply register_all_well_keyed; [apply qualifying_enabled|].
      split; constructor.
    + split; constructor.
  - rewrite H1, H1'. reflexivity.
  - rewrite H2, H2', H1, H1'. reflexivity.
  - exact H2.
Qed.

Lemma event_eqb_eq :
  forall a b : Types.EventType, Types.event_eqb a b = true <-> a = b.
Proof.
  intros a b. split.
  - destruct a, b; cbn; intro H; try discriminate H; reflexivity.
  - intro H. subst b. destruct a; reflexivity.
Qed.

Lemma event_eqb_trans :
  forall a b c : Types.EventType,
    Types.event_eqb a b = true -> Types.event_eqb a c = Types.event_eqb b c.
Proof.
  intros a b c H. apply event_eqb_eq in H. subst b. reflexivity.
Qed.

Lemma count_of_bump :
  forall (event event' : Types.EventType) (acc : ListenersWatch.Counts),
    ListenersWatch.count_of event (ListenersWatch.bump event' acc)
    = if Types.event_eqb event' event
      then Some (match ListenersWatch.count_of event acc with
                 | Some n => n + 1
                 | None => 1
                 end)
      else ListenersWatch.count_of event acc.
Proof.
  intros event event' acc. unfold ListenersWatch.count_of.
  induction acc as [|[k n] rest IH]; cbn.
  - destruct (Types.event_eqb event' event); reflexivity.
  - destruct (Types.event_eqb k event') eqn:Hk; cbn.
    + rewrite (event_eqb_trans _ _ event Hk).
      destruct (Types.event_eqb event' event); cbn; [|reflexivity].
      unfold truthy_num. destruct (n =? 0) eqn:E; cbn; [|reflexivity].
      apply Z.eqb_eq in E. subst n. reflexivity.
    + destruct (Types.event_eqb k event) eqn:Hke; cbn.
      * destruct (Types.event_eqb event' event) eqn:He; [|reflexivity].
        apply event_eqb_eq in Hke, He. subst.
        assert (Hrefl : Types.event_eqb event event = true)
          by (apply event_eqb_eq; reflexivity).
        rewrite Hrefl in Hk. discriminate Hk.
      * exact IH.
Qed.

Lemma count_of_fold_bump :
  forall (DB Remote Data : Type)
         (ls : list (ListenersManager.ListenerModule DB Remote Data))
         (event : Types.EventType) (acc : ListenersWatch.Counts),
    ListenersWatch.count_of event
      (fold_left
         (fun acc l => ListenersWatch.bump
                         (Types.event (ListenersManager.config l)) acc)
         ls acc)
    = match
        ListenersWatch.count_of event acc,
        filter (fun l => Types.event_eqb
                           (Types.event (ListenersManager.config l)) event) ls
      with
      | None, [] => None
      | None, matching => Some (Z.of_nat (List.length matching))
      | Some n, matching => Some (n + Z.of_nat (List.length matching))
      end.
Proof.
  intros DB Remote Data ls event.
  induction ls as [|l ls IH]; intro acc; cbn [fold_left filter].
  - destruct (ListenersWatch.count_of event acc) as [n|]; [|reflexivity].
    cbn. rewrite Z.add_0_r. reflexivity.
  - rewrite IH, count_of_bump.
    destruct (Types.event_eqb (Types.event (ListenersManager.config l)) event).
    + destruct (ListenersWatch.count_of event acc) as [n|];
        cbn [List.length]; f_equal; lia.
    + reflexivity.
Qed.

(** X16: the statistics agree with the dispatcher and with the loader.
    For every manager and event kind, [getStats().byEvent] has an entry
    for the event exactly when [checkEvent] would run some listener for
    it, and the entry is the number of listeners it would run; [total]
    is the size of the registry.  After a load, [enabled] equals
    [total]: a disabled listener is never registered. *)
Theorem getStats_counts :
  forall (DB Remote Data : Type)
         (this : ListenersManager.Manager DB Remote Data)
         (event : Types.EventType)
         (dir : ListenersManager.Directory DB Remote Data)
         (st : ListenersManager.Manager DB Remote Data
               * list ListenersManager.LogLine),
    ListenersWatch.count_of event
      (ListenersWatch.byEvent (ListenersWatch.getStats this))
    = match ListenersManager.matchingListeners this event with
      | [] => None
      | matching => Some (Z.of_nat (List.length matching))
      end
    /\ ListenersWatch.total (ListenersWatch.getStats this)
       = Z.of_nat (List.length (ListenersManager.getAllListeners this))
    /\ ListenersWatch.enabled
         (ListenersWatch.getStats
            (fst (snd (ListenersManager.loadAllListeners dir st))))
       = ListenersWatch.total
           (ListenersWatch.getStats
              (fst (snd (ListenersManager.loadAllListeners dir st)))).
Proof.
  intros DB Remote Data this event dir st. split; [|split].
  - unfold ListenersWatch.getStats. cbn [ListenersWatch.byEvent].
    rewrite count_of_fold_bump. reflexivity.
  - unfold ListenersWatch.getStats, ListenersManager.getAllListeners,
      ListenersManager.map_values.
    cbn [ListenersWatch.total]. rewrite !length_map. reflexivity.
  - unfold ListenersWatch.getStats.
    cbn [ListenersWatch.total ListenersWatch.enabled]. f_equal.
    unfold ListenersManager.map_values.
    pose proof (loadAllListeners_from_directory Data dir st) as [H _].
    assert (Hwk : Props.well_keyed
                    (ListenersManager.listeners
                       (fst (snd (ListenersManager.loadAllListeners dir st))))).
    { rewrite H. destruct (ListenersManager.readdir dir) as [files|e].
      - apply register_all_well_keyed; [apply qualifying_enabled|].
        split; constructor.
      - split; constructor. }
    destruct Hwk as [_ Hall].
    rewrite filter_all; [apply length_map|].
    apply Forall_map. eapply Forall_impl; [|exact Hall].
    cbn. intros kv [_ Hen]. exact Hen.
Qed.

(** ** The listener registry: the file watcher *)

Section WatcherFacts.

Import ListenersManager.

Context {DB Remote Data : Type}.

Lemma loadListener_flags :
  forall (dir : Directory DB Remote Data) (file : string)
         (st : Manager DB Remote Data * list LogLine),
    notificationCallback (fst (loadListener dir file st))
    = notificationCallback (fst st)
    /\ watcherActive (fst (loadListener dir file st)) = watcherActive (fst st).
Proof.
  intros dir file [this out]. unfold loadListener.
  destruct (import_file dir file) as [module|e]; [|split; reflexivity].
  destruct (exp_config module) as [cfg|]; [|split; reflexivity].
  destruct (exp_handler module) as [h|]; [|split; reflexivity].
  destruct (Types.enabled cfg); split; reflexivity.
Qed.

Lemma loadAllListeners_flags :
  forall (dir : Directory DB Remote Data)
         (st : Manager DB Remote Data * list LogLine),
    notificationCallback (fst (snd (loadAllListeners dir st)))
    = notificationCallback (fst st)
    /\ watcherActive (fst (snd (loadAllListeners dir st)))
       = watcherActive (fst st).
Proof.
  intros dir [this out]. unfold loadAllListeners.
  destruct (readdir dir) as [files|e]; [|split; reflexivity].
  assert (H : forall files (st : Manager DB Remote Data * list LogLine),
             notificationCallback
               (fst (fold_left
                       (fun st file =>
                          if is_listener_file file
                          then loadListener dir file st else st) files st))
             = notificationCallback (fst st)
             /\ watcherActive
                  (fst (fold_left
                          (fun st file =>
                             if is_listener_file file
                             then loadListener dir file st else st) files st))
                = watcherActive (fst st)).
  { clear. induction files as [|file files IH]; intro st; cbn [fold_left];
      [split; reflexivity|].
    destruct (IH (if is_listener_file file then loadListener dir file st else st))
      as [H1 H2].
    rewrite H1, H2.
    destruct (is_listener_file file); [apply loadListener_flags|split; reflexivity]. }
  specialize (H files (with_listeners [] this, out)).
  destruct (fold_left _ files _) as [this' out']. exact H.
Qed.

Lemma hd_error_snoc :
  forall (A : Type) (l : list A) (a : A),
    hd_error (l ++ [a]) = match hd_error l with Some x => Some x | None => Some a end.
Proof. intros A [|x l] a; reflexivity. Qed.

(** The loop of the watcher over a list of changes. *)
Lemma watch_loop :
  forall (changes : list (ListenersWatch.FileChange * Directory DB Remote Data))
         (this0 this : Manager DB Remote Data) (out : list LogLine)
         (calls : list (list Types.ListenerConfig)),
    match
      fold_left
        (fun st change => ListenersWatch.on_change (snd change) (fst change) st)
        changes (this, out, calls)
    with
    | (this', _, calls') =>
        listeners this'
        = match hd_error (rev (Props.reloading changes)) with
          | Some change =>
              listeners (fst (snd (loadAllListeners (snd change) (this0, []))))
          | None => listeners this
          end
        /\ calls'
           = calls
             ++ map (fun change => fst (loadAllListeners (snd change) (this0, [])))
                    (Props.reloading changes)
        /\ watcherActive this' = watcherActive this
        /\ notificationCallback this' = notificationCallback this
    end.
Proof.
  induction changes as [|[change dir] changes IH]; intros this0 this out calls;
    cbn [fold_left].
  - cbn. rewrite app_nil_r. repeat split.
  - unfold ListenersWatch.on_change at 2. cbn [fst snd].
    unfold Props.reloading. cbn [filter fst].
    fold (Props.reloading changes).
    destruct (ListenersWatch.filename change) as [name|].
    2: { exact (IH this0 this _ calls). }
    destruct (endsWith name ".ts").
    2: { exact (IH this0 this _ calls). }
    pose proof (loadAllListeners_from_directory Data dir
                  (this, say (say out
                     (Log ("[ListenersManager] File "
                           ++ ListenersWatch.eventType change ++ ": " ++ name)))
                     (Log "[ListenersManager] Reloading listeners..."))) as [Hl Hc].
    pose proof (loadAllListeners_from_directory Data dir (this0, [])) as [Hl0 Hc0].
    pose proof (loadAllListeners_flags dir
                  (this, say (say out
                     (Log ("[ListenersManager] File "
                           ++ ListenersWatch.eventType change ++ ": " ++ name)))
                     (Log "[ListenersManager] Reloading listeners..."))) as [Hn Hw].
    destruct (loadAllListeners dir (this, _)) as [configs [this1 out1]].
    cbn [fst snd] in *.
    specialize (IH this0 this1 out1 (calls ++ [configs])).
    destruct (fold_left _ changes _) as [[this' out'] calls'].
    destruct IH as [IH1 [IH2 [IH3 IH4]]].
    cbn [rev map]. rewrite hd_error_snoc.
    split; [|split; [|split]].
    + rewrite IH1. destruct (hd_error (rev (Props.reloading changes)));
        [reflexivity|]. cbn [snd]. rewrite Hl, Hl0. reflexivity.
    + rewrite IH2, <- app_assoc. cbn [app snd]. do 3 f_equal.
      rewrite Hc, Hc0, Hl, Hl0. reflexivity.
    + rewrite IH3. exact Hw.
    + rewrite IH4. exact Hn.
Qed.

End WatcherFacts.

(** X17: what a watcher run leaves.  Started while a watcher is active,
    [watchListeners] prints one line and changes nothing.  Otherwise,
    after any changes that the watcher reports, the registry is the one
    that [loadAllListeners] yields for the directory as the last change
    to a [.ts] file found it (the registry as it was when there was no
    such change), [onChange] has been called once per change to a [.ts]
    file, in order, with the configs of that reload, and the watcher
    counts as active unless it failed. *)
Theorem watchListeners_reloads :
  forall (DB Remote Data : Type) (listenersDir : string)
         (changes : list (ListenersWatch.FileChange
                          * ListenersManager.Directory DB Remote Data))
         (failure : option Error)
         (this : ListenersManager.Manager DB Remote Data)
         (out : list ListenersManager.LogLine)
         (calls : list (list Types.ListenerConfig)),
    if ListenersManager.watcherActive this
    then
      ListenersWatch.watchListeners listenersDir changes failure (this, out, calls)
      = (this,
         out ++ [ListenersManager.Log "[ListenersManager] File watcher already active"],
         calls)
    else
      match
        ListenersWatch.watchListeners listenersDir changes failure (this, out, calls)
      with
      | (this', _, calls') =>
          ListenersManager.listeners this'
          = match hd_error (rev (Props.reloading changes)) with
            | Some change =>
                ListenersManager.listeners
                  (fst (snd (ListenersManager.loadAllListeners (snd change)
                               (this, []))))
            | None => ListenersManager.listeners this
            end
          /\ calls'
             = calls
               ++ map (fun change =>
                         fst (ListenersManager.loadAllListeners (snd change)
                                (this, [])))
                      (Props.reloading changes)
          /\ ListenersManager.watcherActive this'
             = match failure with None => true | Some _ => false end
          /\ ListenersManager.notificationCallback this'
             = ListenersManager.notificationCallback this
      end.
Proof.
  intros DB Remote Data listenersDir changes failure this out calls.
  unfold ListenersWatch.watchListeners.
  destruct (ListenersManager.watcherActive this) eqn:Hactive; [reflexivity|].
  pose proof (watch_loop changes this (ListenersWatch.with_watcher true this)
                (ListenersManager.say out
                   (ListenersManager.Log
                      ("[ListenersManager] Watching " ++ listenersDir
                       ++ " for changes...")))
                calls) as H.
  destruct (fold_left _ changes _) as [[this' out'] calls'].
  destruct H as [H1 [H2 [H3 H4]]].
  destruct failure as [error|]; cbn [ListenersManager.listeners
    ListenersManager.watcherActive ListenersManager.notificationCallback
    ListenersWatch.with_watcher];
    (split; [exact H1|split; [exact H2|split; [|exact H4]]]).
  - reflexivity.
  - exact H3.
Qed.

(** ** The shipped listeners *)

Section Preserving.

Import ListenersManager.

Context {DB Remote : Type}.
Variable R : World DB Remote -> World DB Remote -> Prop.
Hypothesis R_refl : forall w, R w w.
Hypothesis R_trans : forall w1 w2 w3, R w1 w2 -> R w2 w3 -> R w1 w3.
Hypothesis R_console :
  forall w out,
    R w {| db := db w; remote := remote w; notifications := notifications w;
           console := out |}.

Lemma preserves_ret :
  forall (A : Type) (a : A), Props.preserves R (ret a).
Proof. intros A a w. apply R_refl. Qed.

Lemma preserves_throw :
  forall (A : Type) (e : Error), Props.preserves R (@throw DB Remote A e).
Proof. intros A e w. apply R_refl. Qed.

Lemma preserves_console_log :
  forall text : string, Props.preserves R (console_log text).
Proof. intros text w. apply R_console. Qed.

Lemma preserves_console_error :
  forall (text : string) (error : option Error),
    Props.preserves R (console_error text error).
Proof. intros text error w. apply R_console. Qed.

Lemma preserves_bind :
  forall (A B : Type) (m : M DB Remote A) (k : A -> M DB Remote B),
    Props.preserves R m -> (forall a, Props.preserves R (k a)) ->
    Props.preserves R (bind m k).
Proof.
  intros A B m k Hm Hk w. unfold bind. specialize (Hm w).
  destruct (m w) as [[a|e] w']; cbn [snd] in *.
  - exact (R_trans _ _ _ Hm (Hk a w')).
  - exact Hm.
Qed.

Lemma preserves_try_catch :
  forall (A : Type) (m : M DB Remote A) (h : Error -> M DB Remote A),
    Props.preserves R m -> (forall e, Props.preserves R (h e)) ->
    Props.preserves R (try_catch m h).
Proof.
  intros A m h Hm Hh w. unfold try_catch. specialize (Hm w).
  destruct (m w) as [[a|e] w']; cbn [snd] in *.
  - exact Hm.
  - exact (R_trans _ _ _ Hm (Hh e w')).
Qed.

Lemma preserves_for_of :
  forall (A : Type) (xs : list A) (body : A -> M DB Remote unit),
    (forall x, In x xs -> Props.preserves R (body x)) ->
    Props.preserves R (for_of xs body).
Proof.
  intros A xs body. induction xs as [|x xs IH]; intro H; cbn [for_of].
  - apply preserves_ret.
  - apply preserves_bind; [apply H; left; reflexivity|].
    intros _. apply IH. intros y Hy. apply H. right. exact Hy.
Qed.

Lemma preserves_callAgent :
  forall (listenerConfig : Types.ListenerConfig) (T : Type)
         (options : Types.SubagentOptions),
    Props.preserves R (callAgent listenerConfig T options).
Proof.
  intros listenerConfig T options. unfold callAgent.
  apply preserves_bind; [apply preserves_console_log|].
  intros _. apply preserves_throw.
Qed.

(** The shipped handlers reach the world through the context only. *)
Lemma example_handler_preserves :
  forall (lower : string -> string) (email : Types.Email)
         (context : ListenerContext DB Remote),
    Props.context_preserves R context ->
    Props.preserves R (Listeners.ExampleListener.handler lower email context).
Proof.
  intros lower email context [Hn [Ha [Hs [_ [Hr _]]]]].
  unfold Listeners.ExampleListener.handler.
  destruct (negb _); [apply preserves_ret|].
  apply preserves_bind.
  - destruct (_ || _); [|apply preserves_ret].
    apply preserves_bind; [apply Hn|]. intros _. apply Hs.
  - intros _. destruct (Listeners.includes _ _); [|apply preserves_ret].
    apply preserves_bind; [apply Ha|]. intros _. apply Hr.
Qed.

Lemma auto_archive_handler_preserves :
  forall (lower : string -> string) (email : Types.Email)
         (context : ListenerContext DB Remote),
    Props.context_preserves R context ->
    Props.preserves R
      (Listeners.AutoArchiveNewsletters.handler lower email context).
Proof.
  intros lower email context [Hn [Ha [_ [_ [Hr _]]]]].
  unfold Listeners.AutoArchiveNewsletters.handler.
  destruct (negb _); [apply preserves_ret|].
  apply preserves_try_catch.
  - apply preserves_bind; [apply Ha|]. intros _.
    apply preserves_bind; [apply Hr|]. intros _. apply Hn.
  - intro e. apply preserves_console_error.
Qed.

Lemma boss_handler_preserves :
  forall (email : Types.Email) (context : ListenerContext DB Remote),
    Props.context_preserves R context ->
    Props.preserves R (Listeners.BossUrgentWatcher.handler email context).
Proof.
  intros email context [Hn [_ [Hs [_ [_ [_ [_ [_ Hc]]]]]]]].
  unfold Listeners.BossUrgentWatcher.handler.
  destruct (negb _); [apply preserves_ret|].
  apply preserves_bind; [apply Hc|]. intro analysis.
  destruct (negb _); [apply preserves_ret|].
  apply preserves_bind; [apply Hn|]. intros _.
  destruct (Listeners.BossUrgentWatcher.requiresImmediateAction analysis);
    [apply Hs|apply preserves_ret].
Qed.

Lemma classifier_handler_preserves :
  forall (email : Types.Email) (context : ListenerContext DB Remote),
    Props.context_preserves R context ->
    Props.preserves R (Listeners.SmartClassifier.handler email context).
Proof.
  intros email context [Hn [Ha [Hs [_ [_ [_ [Hl [_ Hc]]]]]]]].
  unfold Listeners.SmartClassifier.handler.
  apply preserves_bind; [apply Hc|]. intro c.
  assert (Hrest :
            Props.preserves R
              ((match Listeners.SmartClassifier.suggestedAction c with
                | Listeners.SmartClassifier.star =>
                    ctx_starEmail context (Types.messageId email)
                | _ => ret tt
                end) ;;;
               (match Listeners.SmartClassifier.suggestedAction c with
                | Listeners.SmartClassifier.archive =>
                    ctx_archiveEmail context (Types.messageId email)
                | _ => ret tt
                end) ;;;
               (match Listeners.SmartClassifier.suggestedLabels c with
                | Some labels =>
                    for_of labels
                      (fun label =>
                         ctx_addLabel context (Types.messageId email) label)
                | None => ret tt
                end) ;;;
               (match Listeners.SmartClassifier.priority c with
                | Types.high =>
                    ctx_notify context
                      (Listeners.SmartClassifier.category_upper
                         (Listeners.SmartClassifier.category c)
                       ++ ": " ++ Types.subject email ++ Listeners.nl
                       ++ Listeners.SmartClassifier.reasoning c)%string
                      (Listeners.with_priority Types.high)
                | _ => ret tt
                end))).
  { apply preserves_bind.
    { destruct (Listeners.SmartClassifier.suggestedAction c);
        try apply preserves_ret. apply Hs. }
    intros _. apply preserves_bind.
    { destruct (Listeners.SmartClassifier.suggestedAction c);
        try apply preserves_ret. apply Ha. }
    intros _. apply preserves_bind.
    { destruct (Listeners.SmartClassifier.suggestedLabels c) as [labels|];
        [|apply preserves_ret].
      apply preserves_for_of. intros label _. apply Hl. }
    intros _. destruct (Listeners.SmartClassifier.priority c);
      try apply preserves_ret. apply Hn. }
  destruct (Listeners.SmartClassifier.category c); try exact Hrest.
  apply preserves_bind; [apply Ha|]. intros _. apply Hl.
Qed.

Lemma shipped_handler_preserves :
  forall (lower : string -> string) (l : ListenerModule DB Remote Types.Email)
         (email : Types.Email) (context : ListenerContext DB Remote),
    In l (Listeners.shipped lower) ->
    Props.context_preserves R context ->
    Props.preserves R (handler l email context).
Proof.
  intros lower l email context Hin Hctx.
  destruct Hin as [H|[H|[H|[H|[]]]]]; subst l; cbn [handler].
  - apply example_handler_preserves. exact Hctx.
  - apply auto_archive_handler_preserves. exact Hctx.
  - apply boss_handler_preserves. exact Hctx.
  - apply classifier_handler_preserves. exact Hctx.
Qed.

End Preserving.

Lemma same_mail_refl :
  forall (DB Remote : Type) (w : ListenersManager.World DB Remote),
    Props.same_mail w w.
Proof. intros. split; reflexivity. Qed.

Lemma same_mail_trans :
  forall (DB Remote : Type) (w1 w2 w3 : ListenersManager.World DB Remote),
    Props.same_mail w1 w2 -> Props.same_mail w2 w3 -> Props.same_mail w1 w3.
Proof.
  intros DB Remote w1 w2 w3 [H1 H2] [H3 H4]. split; congruence.
Qed.

Lemma same_mail_console :
  forall (DB Remote : Type) (w : ListenersManager.World DB Remote)
         (out : list ListenersManager.LogLine),
    Props.same_mail w
      {| ListenersManager.db := ListenersManager.db w;
         ListenersManager.remote := ListenersManager.remote w;
         ListenersManager.notifications := ListenersManager.notifications w;
         ListenersManager.console := out |}.
Proof. intros. split; reflexivity. Qed.

Lemma notify_same_mail :
  forall (DB Remote : Type) (rt : DateApi) (clk : Store.Clock) (Data : Type)
         (this : ListenersManager.Manager DB Remote Data)
         (listenerConfig : Types.ListenerConfig) (message : string)
         (options : option Types.NotifyOptions),
    Props.preserves Props.same_mail
      (ListenersManager.notify rt clk this listenerConfig message options).
Proof.
  intros DB Remote rt clk Data this listenerConfig message options w.
  unfold ListenersManager.notify, ListenersManager.bind,
    ListenersManager.console_log.
  destruct (ListenersManager.notificationCallback this); split; reflexivity.
Qed.

(** Over the shipped database manager an email operation of the context
    leaves store and mailbox as they are. *)
Lemma shipped_operation_same_mail :
  forall (rt : DateApi) (clk : Store.Clock) (Remote : Type)
         (imap : ListenersManager.ImapManagerApi Remote)
         (op : Contract.Operation) (emailId : string),
    Props.preserves Props.same_mail
      (Contract.perform (dbm := Wiring.databaseManager rt clk) op emailId).
Proof.
  intros rt clk Remote imap op emailId w.
  pose proof (perform_cases (dbm := Wiring.databaseManager rt clk) op emailId w) as H.
  cbn [ListenersManager.db_getEmailByMessageId Wiring.databaseManager] in H.
  destruct (DatabaseManager.getEmailByMessageId rt emailId (ListenersManager.db w))
    as [email|] eqn:Hget.
  - rewrite (getEmailByMessageId_returns_no_uid rt emailId _ email Hget) in H.
    exact (proj2 H).
  - exact (proj2 H).
Qed.

Lemma shipped_context_same_mail :
  forall (rt : DateApi) (clk : Store.Clock) (Remote : Type)
         (imap : ListenersManager.ImapManagerApi Remote) (Data : Type)
         (this : ListenersManager.Manager Store.Database Remote Data)
         (listenerConfig : Types.ListenerConfig),
    Props.context_preserves Props.same_mail
      (ListenersManager.createContext (dbm := Wiring.databaseManager rt clk)
         rt clk this listenerConfig).
Proof.
  intros rt clk Remote imap Data this listenerConfig.
  unfold Props.context_preserves. cbn.
  split; [intros; apply notify_same_mail|].
  split; [intro emailId;
          exact (shipped_operation_same_mail rt clk Remote imap
                   Contract.Archive emailId)|].
  split; [intro emailId;
          exact (shipped_operation_same_mail rt clk Remote imap
                   Contract.Star emailId)|].
  split; [intro emailId;
          exact (shipped_operation_same_mail rt clk Remote imap
                   Contract.Unstar emailId)|].
  split; [intro emailId;
          exact (shipped_operation_same_mail rt clk Remote imap
                   Contract.MarkRead emailId)|].
  split; [intro emailId;
          exact (shipped_operation_same_mail rt clk Remote imap
                   Contract.MarkUnread emailId)|].
  split; [intros emailId label;
          exact (shipped_operation_same_mail rt clk Remote imap
                   (Contract.AddLabel label) emailId)|].
  split; [intros emailId label;
          exact (shipped_operation_same_mail rt clk Remote imap
                   (Contract.RemoveLabel label) emailId)|].
  intros T options.
  apply preserves_callAgent;
    [apply same_mail_refl|apply same_mail_trans|apply same_mail_console].
Qed.

(** X18: the Auto-Archive template contains its own failures.  Whatever
    the context does, its handler returns and never throws; for an email
    that its filter does not take for a newsletter it does nothing at
    all. *)
Theorem auto_archive_handler_never_throws :
  forall (DB Remote : Type) (lower : string -> string) (email : Types.Email)
         (context : ListenersManager.ListenerContext DB Remote)
         (w : ListenersManager.World DB Remote),
    fst (Listeners.AutoArchiveNewsletters.handler lower email context w)
    = Returned tt
    /\ (if Listeners.AutoArchiveNewsletters.isNewsletter lower email
        then True
        else Listeners.AutoArchiveNewsletters.handler lower email context w
             = (Returned tt, w)).
Proof.
  intros DB Remote lower email context w.
  unfold Listeners.AutoArchiveNewsletters.handler.
  destruct (Listeners.AutoArchiveNewsletters.isNewsletter lower email);
    cbn [negb]; [|split; reflexivity].
  split; [|exact I].
  unfold ListenersManager.try_catch.
  destruct (ListenersManager.bind _ _ w) as [[[]|e] w']; reflexivity.
Qed.

(** X19: the two AI templates cannot act while [callAgent] is a stub.
    Run with a context that [createContext] made, whatever the managers
    behind it, the classifier throws the stub's error for every email,
    and so does the urgency watcher for every email whose sender
    contains its address, while for any other it returns; in every case
    store, mailbox and notifications are as before. *)
Theorem ai_templates_cannot_act :
  forall (DB Remote : Type)
         (dbm : ListenersManager.DatabaseManagerApi DB)
         (imap : ListenersManager.ImapManagerApi Remote)
         (rt : DateApi) (clk : Store.Clock) (Data : Type)
         (this : ListenersManager.Manager DB Remote Data)
         (listenerConfig : Types.ListenerConfig) (email : Types.Email)
         (w : ListenersManager.World DB Remote),
    fst (Listeners.SmartClassifier.handler email
           (ListenersManager.createContext rt clk this listenerConfig) w)
    = Thrown (mkError "callAgent() not yet implemented")
    /\ Props.same_mail_and_notifications w
         (snd (Listeners.SmartClassifier.handler email
                 (ListenersManager.createContext rt clk this listenerConfig) w))
    /\ fst (Listeners.BossUrgentWatcher.handler email
              (ListenersManager.createContext rt clk this listenerConfig) w)
       = (if Listeners.includes (Types.from email) "boss@company.com"
          then Thrown (mkError "callAgent() not yet implemented")
          else Returned tt)
    /\ Props.same_mail_and_notifications w
         (snd (Listeners.BossUrgentWatcher.handler email
                 (ListenersManager.createContext rt clk this listenerConfig) w)).
Proof.
  intros DB Remote dbm imap rt clk Data this listenerConfig email w.
  unfold Listeners.SmartClassifier.handler, Listeners.BossUrgentWatcher.handler.
  cbn [ListenersManager.ctx_callAgent ListenersManager.createContext].
  unfold ListenersManager.callAgent, ListenersManager.bind,
    ListenersManager.console_log, ListenersManager.throw, ListenersManager.ret.
  cbn [fst snd].
  split; [reflexivity|]. split; [repeat split|].
  destruct (Listeners.includes (Types.from email) "boss@company.com");
    cbn [negb fst snd]; split; try reflexivity; repeat split.
Qed.

(** X20: over the shipped database manager the shipped listeners never
    change a message.  For a manager whose registry holds none but
    listeners that ship with the agent, a dispatch of any event with any
    email returns and leaves the local store and the remote mailbox as
    they were: every email operation of a handler stops at the missing
    UID, every call of the agent at the stub. *)
Theorem shipped_listeners_leave_mail_untouched :
  forall (rt : DateApi) (clk : Store.Clock) (Remote : Type)
         (imap : ListenersManager.ImapManagerApi Remote)
         (lower : string -> string)
         (this : ListenersManager.Manager Store.Database Remote Types.Email)
         (event : Types.EventType) (email : Types.Email)
         (w : ListenersManager.World Store.Database Remote),
    Forall (fun l => In l (Listeners.shipped lower))
           (ListenersManager.map_values (ListenersManager.listeners this)) ->
    fst (ListenersManager.checkEvent (dbm := Wiring.databaseManager rt clk)
           rt clk this event email w) = Returned tt
    /\ Props.same_mail w
         (snd (ListenersManager.checkEvent (dbm := Wiring.databaseManager rt clk)
                 rt clk this event email w)).
Proof.
  intros rt clk Remote imap lower this event email w Hshipped.
  assert (Hmatching : forall l, In l (ListenersManager.matchingListeners this event) ->
                                In l (Listeners.shipped lower)).
  { intros l Hl. unfold ListenersManager.matchingListeners in Hl.
    apply filter_In in Hl. destruct Hl as [Hl _].
    rewrite Forall_forall in Hshipped. exact (Hshipped l Hl). }
  assert (Hinvoke : forall l, In l (ListenersManager.matchingListeners this event) ->
                              Props.preserves Props.same_mail
                                (ListenersManager.invoke
                                   (dbm := Wiring.databaseManager rt clk)
                                   rt clk this email l)).
  { intros l Hl. unfold ListenersManager.invoke.
    apply preserves_try_catch; try apply same_mail_trans.
    - apply preserves_bind; try apply same_mail_trans.
      + apply (shipped_handler_preserves Props.same_mail
                 (same_mail_refl _ _) (same_mail_trans _ _)
                 (same_mail_console _ _) lower).
        * exact (Hmatching l Hl).
        * apply shipped_context_same_mail.
      + intros _. apply preserves_console_log. apply same_mail_console.
    - intro e. apply preserves_console_error. apply same_mail_console. }
  unfold ListenersManager.checkEvent.
  destruct (ListenersManager.matchingListeners this event) as [|l0 ls] eqn:Hm.
  - split; [reflexivity|apply same_mail_refl].
  - split.
    + unfold ListenersManager.bind at 1, ListenersManager.console_log at 1.
      cbv beta iota. rewrite for_of_invoke. reflexivity.
    + apply preserves_bind; try apply same_mail_trans.
      * apply preserves_console_log. apply same_mail_console.
      * intros _. apply preserves_for_of;
          [apply same_mail_refl|apply same_mail_trans|exact Hinvoke].
Qed.

Lemma shipped_listeners_leave_mail_untouched_witness :
  Forall (fun l => In l (Listeners.shipped Sample.lower))
         (ListenersManager.map_values
            (ListenersManager.listeners (Props.shipped_manager Sample.lower)))
  /\ Props.same_mail (Sample.world (Sample.labelled ["work"]))
       (snd (ListenersManager.checkEvent
               (dbm := Wiring.databaseManager Sample.rt Sample.later)
               (imap := Sample.accepting)
               Sample.rt Sample.later (Props.shipped_manager Sample.lower)
               Types.email_received Sample.message
               (Sample.world (Sample.labelled ["work"])))).
Proof.
  assert (H : Forall (fun l => In l (Listeners.shipped Sample.lower))
                (ListenersManager.map_values
                   (ListenersManager.listeners
                      (Props.shipped_manager Sample.lower)))).
  { apply Forall_forall. intros l Hl. exact Hl. }
  split; [exact H|].
  exact (proj2 (shipped_listeners_leave_mail_untouched Sample.rt Sample.later
                  unit Sample.accepting Sample.lower
                  (Props.shipped_manager Sample.lower) Types.email_received
                  Sample.message (Sample.world (Sample.labelled ["work"])) H)).
Defined.

(** ** The listener details endpoint *)

Lemma substring_whole :
  forall s : string, substring 0 (String.length s) s = s.
Proof.
  induction s as [|c s IH]; cbn; [reflexivity|]. rewrite IH. reflexivity.
Qed.

Lemma substring_suffix :
  forall a b : string,
    substring (String.length a) (String.length b) (a ++ b) = b.
Proof.
  induction a as [|c a IH]; intro b; cbn.
  - apply substring_whole.
  - apply IH.
Qed.

Lemma append_length :
  forall a b : string,
    String.length (a ++ b) = (String.length a + String.length b)%nat.
Proof.
  induction a as [|c a IH]; intro b; cbn; [reflexivity|].
  rewrite IH. reflexivity.
Qed.

Lemma endsWith_append :
  forall a b : string, ListenersManager.endsWith (a ++ b) b = true.
Proof.
  intros a b. unfold ListenersManager.endsWith.
  rewrite append_length.
  replace (String.length b <=? String.length a + String.length b)%nat with true
    by (symmetry; apply Nat.leb_le; lia).
  replace (String.length a + String.length b - String.length b)%nat
    with (String.length a) by lia.
  rewrite substring_suffix. apply String.eqb_refl.
Qed.

Lemma with_extension_ends :
  forall filename : string,
    ListenersManager.endsWith (ListenersEndpoint.with_extension filename) ".ts"
    = true.
Proof.
  intro filename. unfold ListenersEndpoint.with_extension.
  destruct (ListenersManager.endsWith filename ".ts") eqn:E; [exact E|].
  apply endsWith_append.
Qed.

(** X21: the details endpoint stays inside the listeners directory.
    Whatever name the request carries and whatever the file system
    holds, every path that [handleListenerDetailsEndpoint] reads or
    imports names a [.ts] file of the listeners directory itself: the
    directory, a separator, and a name without a slash, a backslash or
    two dots in a row.  The requests that touch no file are those
    refused for their name (empty, or with a slash, a backslash or two
    dots in a row); an answer with the listener's data has status 200
    and carries the text that was read from that path, under the name
    with its extension; an answer with an error has another status. *)
Theorem endpoint_stays_in_directory :
  forall (Handler : Type) (files : ListenersEndpoint.Files Handler)
         (listenersDir filename : string),
    Forall (Props.inside listenersDir)
           (snd (ListenersEndpoint.handleListenerDetailsEndpoint files
                   listenersDir filename))
    /\ (truthy_string filename
        && negb (ListenersEndpoint.traverses
                   (ListenersEndpoint.with_extension filename)) = false <->
        snd (ListenersEndpoint.handleListenerDetailsEndpoint files
               listenersDir filename) = [])
    /\ match
         ListenersEndpoint.body
           (fst (ListenersEndpoint.handleListenerDetailsEndpoint files
                   listenersDir filename))
       with
       | ListenersEndpoint.ListenerData _ name code =>
           name = ListenersEndpoint.with_extension filename
           /\ ListenersEndpoint.readFile files
                (ListenersEndpoint.join_path listenersDir name)
              = ListenersEndpoint.Resolved code
           /\ ListenersEndpoint.status
                (fst (ListenersEndpoint.handleListenerDetailsEndpoint files
                        listenersDir filename)) = 200
       | ListenersEndpoint.ErrorBody _ _ _ =>
           ListenersEndpoint.status
             (fst (ListenersEndpoint.handleListenerDetailsEndpoint files
                     listenersDir filename)) <> 200
       end.
Proof.
  intros Handler files listenersDir filename.
  unfold ListenersEndpoint.handleListenerDetailsEndpoint.
  destruct (truthy_string filename); cbn [negb andb].
  2: { split; [constructor|]. split; [split; reflexivity|]. cbn. discriminate. }
  destruct (ListenersEndpoint.traverses (ListenersEndpoint.with_extension filename))
    eqn:Htr; cbn [negb].
  { split; [constructor|]. split; [split; reflexivity|]. cbn. discriminate. }
  assert (Hin : Props.inside listenersDir
                  (ListenersEndpoint.join_path listenersDir
                     (ListenersEndpoint.with_extension filename))).
  { exists (ListenersEndpoint.with_extension filename).
    split; [reflexivity|]. split; [apply with_extension_ends|].
    unfold ListenersEndpoint.traverses in Htr.
    apply orb_false_elim in Htr. destruct Htr as [Htr Hb].
    apply orb_false_elim in Htr. destruct Htr as [Hd Hs].
    repeat split; assumption. }
  assert (Hfailed : forall failure name,
             ListenersEndpoint.status (ListenersEndpoint.failed failure name)
             <> 200
             /\ exists e f d,
                  ListenersEndpoint.body (ListenersEndpoint.failed failure name)
                  = ListenersEndpoint.ErrorBody e f d).
  { intros failure name. unfold ListenersEndpoint.failed.
    destruct (match ListenersEndpoint.code failure with
              | Some c => String.eqb c "ENOENT"
              | None => false
              end); cbn; (split; [discriminate|]); do 3 eexists; reflexivity. }
  destruct (ListenersEndpoint.readFile files _) as [code|failure] eqn:Hread.
  2: { cbn [fst snd]. split; [constructor; [exact Hin|constructor]|].
       split; [split; discriminate|].
       destruct (Hfailed failure (ListenersEndpoint.with_extension filename))
         as [Hs [e [f [d Hb]]]].
       rewrite Hb. exact Hs. }
  destruct (ListenersEndpoint.import_path files _) as [module|failure].
  2: { cbn [fst snd].
       split; [constructor; [exact Hin|constructor; [exact Hin|constructor]]|].
       split; [split; discriminate|].
       destruct (Hfailed failure (ListenersEndpoint.with_extension filename))
         as [Hs [e [f [d Hb]]]].
       rewrite Hb. exact Hs. }
  destruct (ListenersEndpoint.config module) as [cfg|];
    [destruct (ListenersEndpoint.handler module) as [h|]|]; cbn [fst snd].
  - split; [constructor; [exact Hin|constructor; [exact Hin|constructor]]|].
    split; [split; discriminate|].
    cbn. split; [reflexivity|]. split; [exact Hread|reflexivity].
  - split; [constructor; [exact Hin|constructor; [exact Hin|constructor]]|].
    split; [split; discriminate|]. cbn. discriminate.
  - split; [constructor; [exact Hin|constructor; [exact Hin|constructor]]|].
    split; [split; discriminate|]. cbn. discriminate.
Qed.

(** ** The IMAP manager: fetching in batches *)

Lemma uid_get_set_same :
  forall (key : Z) (value : ImapSearch.ParsedMail) (m : ImapSearch.UidMap),
    ImapSearch.uid_get key (ImapSearch.uid_set key value m) = Some value.
Proof.
  intros key value m. unfold ImapSearch.uid_get.
  induction m as [|[k v] rest IH]; cbn.
  - rewrite Z.eqb_refl. reflexivity.
  - destruct (k =? key) eqn:E; cbn; rewrite E; [reflexivity|exact IH].
Qed.

Lemma uid_get_set_other :
  forall (key key' : Z) (value : ImapSearch.ParsedMail) (m : ImapSearch.UidMap),
    (key =? key') = false ->
    ImapSearch.uid_get key' (ImapSearch.uid_set key value m)
    = ImapSearch.uid_get key' m.
Proof.
  intros key key' value m Hne. unfold ImapSearch.uid_get.
  induction m as [|[k v] rest IH]; cbn.
  - rewrite Hne. reflexivity.
  - destruct (k =? key) eqn:E; cbn.
    + apply Z.eqb_eq in E. subst k. rewrite Hne. reflexivity.
    + destruct (k =? key'); [reflexivity|exact IH].
Qed.

(** The map after collecting the fetches of a list of UIDs. *)
Lemma uid_get_collected :
  forall server folder headersOnly uids results uid,
    ImapSearch.uid_get uid
      (fold_left ImapSearch.collect
         (map (ImapSearch.fetch_one server folder headersOnly) uids) results)
    = match
        existsb (Z.eqb uid) uids,
        ImapSearch.fetchEmail server folder uid headersOnly
      with
      | true, Returned parsed => Some parsed
      | _, _ => ImapSearch.uid_get uid results
      end.
Proof.
  intros server folder headersOnly uids.
  induction uids as [|u uids IH]; intros results uid; cbn [map fold_left existsb].
  - reflexivity.
  - rewrite IH. unfold ImapSearch.collect, ImapSearch.fetch_one.
    destruct (uid =? u) eqn:E; cbn [orb].
    + apply Z.eqb_eq in E. subst u.
      destruct (existsb (Z.eqb uid) uids);
        destruct (ImapSearch.fetchEmail server folder uid headersOnly);
        cbn [fst snd]; try reflexivity.
      apply uid_get_set_same.
    + destruct (existsb (Z.eqb uid) uids);
        destruct (ImapSearch.fetchEmail server folder uid headersOnly);
        try reflexivity;
        destruct (ImapSearch.fetchEmail server folder u headersOnly);
        cbn [fst snd]; try reflexivity;
        apply uid_get_set_other; rewrite Z.eqb_sym; exact E.
Qed.

(** With a positive batch size the batches cover the list: the loop
    collects the fetches of all UIDs from its index on, in order. *)
Lemma batch_loop_collects :
  forall server folder headersOnly size uids,
    (0 < size)%nat ->
    forall fuel i results,
      (List.length uids - i <= fuel)%nat ->
      ImapSearch.batch_loop server fuel folder headersOnly size i uids results
      = fold_left ImapSearch.collect
          (map (ImapSearch.fetch_one server folder headersOnly) (skipn i uids))
          results.
Proof.
  intros server folder headersOnly size uids Hsize.
  induction fuel as [|fuel IH]; intros i results Hfuel; cbn [ImapSearch.batch_loop].
  - rewrite skipn_all2 by lia. reflexivity.
  - destruct (i <? List.length uids)%nat eqn:Hi.
    + apply Nat.ltb_lt in Hi. rewrite IH by lia.
      rewrite <- fold_left_app, <- map_app. do 2 f_equal.
      replace (i + size)%nat with (size + i)%nat by lia.
      rewrite <- skipn_skipn. apply firstn_skipn.
    + apply Nat.ltb_ge in Hi. rewrite skipn_all2 by lia. reflexivity.
Qed.

(** X22: batching does not change what is fetched.  For a positive
    batch size, the map that [fetchEmailsBatch] returns holds, for a UID
    of the list whose fetch succeeded, the message that was fetched, and
    nothing for a UID whose fetch failed or that is not in the list;
    this is so whatever the batch size. *)
Theorem fetchEmailsBatch_lookup :
  forall (server : ImapSearch.Server) (folder : string) (uids : list Z)
         (headersOnly : bool) (batchSize : nat) (uid : Z),
    (0 < batchSize)%nat ->
    ImapSearch.uid_get uid
      (ImapSearch.fetchEmailsBatch server folder uids headersOnly batchSize)
    = match
        existsb (Z.eqb uid) uids,
        ImapSearch.fetchEmail server folder uid headersOnly
      with
      | true, Returned parsed => Some parsed
      | _, _ => None
      end.
Proof.
  intros server folder uids headersOnly batchSize uid Hsize.
  unfold ImapSearch.fetchEmailsBatch.
  rewrite batch_loop_collects.
  - cbn [skipn]. rewrite uid_get_collected. reflexivity.
  - destruct headersOnly; lia.
  - lia.
Qed.

Lemma fetchEmailsBatch_lookup_witness :
  (0 < 2)%nat
  /\ ImapSearch.uid_get 7
       (ImapSearch.fetchEmailsBatch Props.server_sample "INBOX" [5; 6; 7] false 2)
     = Some (Props.parsed_sample (Some "body"))
  /\ ImapSearch.uid_get 6
       (ImapSearch.fetchEmailsBatch Props.server_sample "INBOX" [5; 6; 7] false 2)
     = None.
Proof.
  assert (H : (0 < 2)%nat) by lia.
  split; [exact H|]. split.
  - exact (fetchEmailsBatch_lookup Props.server_sample "INBOX" [5; 6; 7] false
             2 7 H).
  - exact (fetchEmailsBatch_lookup Props.server_sample "INBOX" [5; 6; 7] false
             2 6 H).
Defined.

(** ** The IMAP manager: the limit and the records of a search *)

Lemma process_uids_bound :
  forall clk folder headersOnly limit parsedEmails uids
         (allEmails : list ImapSearch.Found),
    Z.of_nat (List.length allEmails) < Z.max 1 limit ->
    Z.of_nat
      (List.length
         (ImapSearch.process_uids clk folder headersOnly limit parsedEmails uids
            allEmails))
    <= Z.max 1 limit.
Proof.
  intros clk folder headersOnly limit parsedEmails uids.
  induction uids as [|uid uids IH]; intros allEmails Hall;
    cbn [ImapSearch.process_uids]; [lia|].
  destruct (ImapSearch.uid_get uid parsedEmails) as [parsed|]; [|exact (IH _ Hall)].
  match goal with
  | |- context [limit <=? ?n] => destruct (limit <=? n) eqn:Hstop
  end.
  - rewrite length_app. cbn [List.length]. lia.
  - apply IH. apply Z.leb_gt in Hstop. lia.
Qed.

Lemma search_folders_bound :
  forall clk server criteria headersOnly limit folders
         (allEmails : list ImapSearch.Found),
    Z.of_nat (List.length allEmails) < Z.max 1 limit ->
    Z.of_nat
      (List.length
         (ImapSearch.search_folders clk server criteria headersOnly limit
            folders allEmails))
    <= Z.max 1 limit.
Proof.
  intros clk server criteria headersOnly limit folders.
  induction folders as [|folder folders IH]; intros allEmails Hall;
    cbn [ImapSearch.search_folders]; [lia|].
  destruct (ImapSearch.openMailbox server folder); [exact (IH _ Hall)|].
  destruct (ImapSearch.searchMailbox server folder _) as [[|u uids]|e];
    try exact (IH _ Hall).
  match goal with
  | |- context [ImapSearch.process_uids ?c ?f ?h ?l ?p ?us ?a] =>
      pose proof (process_uids_bound c f h l p us a Hall) as Hb;
      destruct (l <=? Z.of_nat (List.length (ImapSearch.process_uids c f h l p us a)))
        eqn:Hstop
  end.
  - exact Hb.
  - apply IH. apply Z.leb_gt in Hstop. lia.
Qed.

(** X23: an IMAP search never returns more than its limit.  When
    [searchEmails] returns, over however many folders, the emails are
    at most [limit], at most 30 when [limit] is absent or 0, and at most
    one when it is negative; [syncEmails] returns at most 1000. *)
Theorem searchEmails_at_most_limit :
  forall (clk : Store.Clock) (server : ImapSearch.Server)
         (criteria : ImapManager.SearchCriteria) (headersOnly : bool)
         (dateRange : ImapManager.DateRange) (folders : option (list string)),
    match ImapSearch.searchEmails clk server criteria headersOnly with
    | Returned found =>
        Z.of_nat (List.length found)
        <= Z.max 1 (num_or (ImapManager.limit criteria) 30)
    | Thrown error => ImapSearch.ensureConnection server = Some error
    end
    /\ match ImapSearch.syncEmails clk server dateRange folders with
       | Returned found => Z.of_nat (List.length found) <= 1000
       | Thrown error => ImapSearch.ensureConnection server = Some error
       end.
Proof.
  intros clk server criteria headersOnly dateRange folders.
  unfold ImapSearch.syncEmails, ImapSearch.searchEmails.
  destruct (ImapSearch.ensureConnection server); [split; reflexivity|].
  split.
  - apply search_folders_bound. cbn. lia.
  - match goal with
    | |- Z.of_nat (List.length (ImapSearch.search_folders ?c ?s ?cr ?h ?l ?fs ?a))
         <= _ =>
        pose proof (search_folders_bound c s cr h l fs a) as H
    end.
    cbn in H. apply H. lia.
Qed.

Lemma parseEmailToRecord_shape :
  forall clk parsed uid folder,
    truthy_string
      (DatabaseManager.messageId (ImapSearch.parseEmailToRecord clk parsed uid folder))
    = true
    /\ (Spec.snippet_length
          (DatabaseManager.snippet
             (ImapSearch.parseEmailToRecord clk parsed uid folder)) <= 200)%nat
    /\ DatabaseManager.folder (ImapSearch.parseEmailToRecord clk parsed uid folder)
       = folder
    /\ DatabaseManager.imapUid (ImapSearch.parseEmailToRecord clk parsed uid folder)
       = None
    /\ DatabaseManager.attachmentCount
         (ImapSearch.parseEmailToRecord clk parsed uid folder)
       = Z.of_nat (List.length (ImapSearch.attachments_of parsed)).
Proof.
  intros clk parsed uid folder. cbn.
  split; [apply or_else_truthy; apply append_truthy; apply show_int_truthy|].
  split; [apply substring0_length|]. repeat split.
Qed.

Lemma process_uids_shape :
  forall clk folders folder headersOnly limit parsedEmails uids
         (allEmails : list ImapSearch.Found),
    In folder folders ->
    Forall (Props.found_shape folders headersOnly) allEmails ->
    Forall (Props.found_shape folders headersOnly)
      (ImapSearch.process_uids clk folder headersOnly limit parsedEmails uids
         allEmails).
Proof.
  intros clk folders folder headersOnly limit parsedEmails uids.
  induction uids as [|uid uids IH]; intros allEmails Hin Hall;
    cbn [ImapSearch.process_uids]; [exact Hall|].
  destruct (ImapSearch.uid_get uid parsedEmails) as [parsed|];
    [|exact (IH _ Hin Hall)].
  assert (Hnew : Forall (Props.found_shape folders headersOnly)
                   (allEmails
                    ++ [(ImapSearch.parseEmailToRecord clk parsed uid folder,
                         if headersOnly then []
                         else ImapSearch.attachments_of parsed)])).
  { apply Forall_app. split; [exact Hall|]. constructor; [|constructor].
    destruct (parseEmailToRecord_shape clk parsed uid folder)
      as [H1 [H2 [H3 [H4 H5]]]].
    unfold Props.found_shape. cbn [fst snd].
    split; [exact H1|]. split; [exact H2|]. split; [rewrite H3; exact Hin|].
    split; [exact H4|]. destruct headersOnly; [reflexivity|exact H5]. }
  match goal with
  | |- context [limit <=? ?n] => destruct (limit <=? n)
  end.
  - exact Hnew.
  - exact (IH _ Hin Hnew).
Qed.

Lemma search_folders_shape :
  forall clk server criteria headersOnly limit all_folders folders
         (allEmails : list ImapSearch.Found),
    (forall folder, In folder folders -> In folder all_folders) ->
    Forall (Props.found_shape all_folders headersOnly) allEmails ->
    Forall (Props.found_shape all_folders headersOnly)
      (ImapSearch.search_folders clk server criteria headersOnly limit folders
         allEmails).
Proof.
  intros clk server criteria headersOnly limit all_folders folders.
  induction folders as [|folder folders IH]; intros allEmails Hsub Hall;
    cbn [ImapSearch.search_folders]; [exact Hall|].
  assert (Hrest : forall f, In f folders -> In f all_folders)
    by (intros f Hf; apply Hsub; right; exact Hf).
  destruct (ImapSearch.openMailbox server folder); [exact (IH _ Hrest Hall)|].
  destruct (ImapSearch.searchMailbox server folder _) as [[|u uids]|e];
    try exact (IH _ Hrest Hall).
  match goal with
  | |- context [ImapSearch.process_uids ?c ?f ?h ?l ?p ?us ?a] =>
      pose proof (process_uids_shape c all_folders f h l p us a
                    (Hsub f (or_introl eq_refl)) Hall) as Hb;
      destruct (l <=? Z.of_nat (List.length (ImapSearch.process_uids c f h l p us a)))
  end.
  - exact Hb.
  - exact (IH _ Hrest Hb).
Qed.

(** X24: what an IMAP search hands on can be stored as it is.  Every
    element of the result of [searchEmails] has a message-id that is not
    empty, a snippet of at most 200 characters, one of the folders that
    were searched and no UID; its attachments agree with its attachment
    count, except that a search for headers only hands on none.  Stored
    with [upsertEmail], such an element leaves a row whose snippet has at
    most 200 characters. *)
Theorem searchEmails_records_are_storable :
  forall (clk : Store.Clock) (server : ImapSearch.Server)
         (criteria : ImapManager.SearchCriteria) (headersOnly : bool),
    match ImapSearch.searchEmails clk server criteria headersOnly with
    | Returned found =>
        Forall
          (Props.found_shape (ImapSearch.folders_of criteria) headersOnly) found
        /\ forall (rt : DateApi) (now : Store.Clock) (db : Store.Database)
                  (email : DatabaseManager.EmailRecord)
                  (files : list DatabaseManager.Attachment) (r : Store.EmailRow),
             In (email, files) found ->
             In r (Store.emails
                     (fst (DatabaseManager.upsertEmail rt now email files db))) ->
             Store.message_id r = DatabaseManager.messageId email ->
             (Spec.snippet_length (Store.snippet r) <= 200)%nat
    | Thrown error => ImapSearch.ensureConnection server = Some error
    end.
Proof.
  intros clk server criteria headersOnly. unfold ImapSearch.searchEmails.
  destruct (ImapSearch.ensureConnection server); [reflexivity|].
  assert (Hshape :
            Forall
              (Props.found_shape (ImapSearch.folders_of criteria) headersOnly)
              (ImapSearch.search_folders clk server criteria headersOnly
                 (num_or (ImapManager.limit criteria) 30)
                 (ImapSearch.folders_of criteria) [])).
  { apply search_folders_shape; [intros f Hf; exact Hf|constructor]. }
  split; [exact Hshape|].
  intros rt now db email files r Hin Hr Hm.
  rewrite Forall_forall in Hshape.
  destruct (Hshape _ Hin) as [_ [Hsnippet _]]. cbn [fst] in Hsnippet.
  rewrite upsertEmail_emails in Hr.
  destruct (upsert_statement_rows rt now email files db r Hr Hm) as [rowid Hrow].
  rewrite Hrow. cbn [Store.snippet DatabaseManager.excluded_row].
  apply snippet_param_length. exact Hsnippet.
Qed.

(** ** The queries by key, by folder and by thread *)

Section OrderBy.

Variable le : Store.EmailRow -> Store.EmailRow -> bool.
Hypothesis le_total : forall a b, le a b = true \/ le b a = true.






End OrderBy.









(** ** The mail store: [insertEmail] *)

Lemma recipient_rows_shape :
  forall emailId recipients seq,
    Forall (fun r => Store.r_email_id r = emailId)
           (EmailDatabase.recipient_rows emailId seq recipients)
    /\ map Store.r_address (EmailDatabase.recipient_rows emailId seq recipients)
       = map EmailDatabase.address recipients
    /\ map Store.r_type (EmailDatabase.recipient_rows emailId seq recipients)
       = map (fun r => EmailDatabase.type_text (EmailDatabase.type r)) recipients.
Proof.
  intros emailId recipients.
  induction recipients as [|r rs IH]; intro seq; cbn.
  - repeat split. constructor.
  - destruct (IH (seq + 1)) as [H1 [H2 H3]].
    split; [constructor; [reflexivity|exact H1]|].
    rewrite H2, H3. split; reflexivity.
Qed.

Lemma attachment_rows_shape :
  forall emailId attachments seq,
    Forall (fun a => Store.a_email_id a = emailId)
           (EmailDatabase.attachment_rows emailId seq attachments)
    /\ map Store.a_filename (EmailDatabase.attachment_rows emailId seq attachments)
       = map EmailDatabase.filename attachments.
Proof.
  intros emailId attachments.
  induction attachments as [|a rest IH]; intro seq; cbn.
  - split; [constructor|reflexivity].
  - destruct (IH (seq + 1)) as [H1 H2].
    split; [constructor; [reflexivity|exact H1]|].
    rewrite H2. reflexivity.
Qed.

(** X28: [insertEmail] stores a new message whole and rejects a stored
    one untouched.  For a message-id that is stored the call throws and
    every table is as before.  For a new one it returns the next key;
    afterwards the message-id is found in a row with that key, which is
    the one row added to [emails] and carries the UID of the record (the
    UID 0 as NULL) and the number of attachments; [recipients] and
    [attachments] have grown by one row per recipient and attachment, in
    order, each pointing at that key. *)
Theorem insertEmail_stores_or_rejects :
  forall (rt : DateApi) (clk : Store.Clock) (email : EmailDatabase.EmailRecord)
         (recipients : list EmailDatabase.Recipient)
         (attachments : list EmailDatabase.Attachment) (db : Store.Database),
    match Store.select_by_message_id (EmailDatabase.message_id email) db with
    | Some _ =>
        EmailDatabase.insertEmail rt clk email recipients attachments db
        = (Thrown (mkError "UNIQUE constraint failed: emails.message_id"), db)
    | None =>
        fst (EmailDatabase.insertEmail rt clk email recipients attachments db)
        = Returned (Store.seq_emails db + 1)
        /\ (exists row,
              Store.select_by_message_id (EmailDatabase.message_id email)
                (snd (EmailDatabase.insertEmail rt clk email recipients
                        attachments db)) = Some row
              /\ Store.emails
                   (snd (EmailDatabase.insertEmail rt clk email recipients
                           attachments db))
                 = Store.emails db ++ [row]
              /\ Store.id row = Store.seq_emails db + 1
              /\ Store.imap_uid row
                 = match EmailDatabase.imap_uid email with
                   | Some uid => if truthy_num uid then Some uid else None
                   | None => None
                   end
              /\ Store.attachment_count row = Z.of_nat (List.length attachments))
        /\ (exists rows,
              Store.recipients
                (snd (EmailDatabase.insertEmail rt clk email recipients
                        attachments db))
              = Store.recipients db ++ rows
              /\ Forall (fun r => Store.r_email_id r = Store.seq_emails db + 1) rows
              /\ map Store.r_address rows = map EmailDatabase.address recipients
              /\ map Store.r_type rows
                 = map (fun r => EmailDatabase.type_text (EmailDatabase.type r))
                       recipients)
        /\ (exists rows,
              Store.attachments
                (snd (EmailDatabase.insertEmail rt clk email recipients
                        attachments db))
              = Store.attachments db ++ rows
              /\ Forall (fun a => Store.a_email_id a = Store.seq_emails db + 1) rows
              /\ map Store.a_filename rows
                 = map EmailDatabase.filename attachments)
    end.
Proof.
  intros rt clk email recipients attachments db.
  unfold EmailDatabase.insertEmail.
  destruct (Store.select_by_message_id (EmailDatabase.message_id email) db)
    eqn:Hsel; [reflexivity|].
  cbn [fst snd Store.emails Store.recipients Store.attachments].
  split; [reflexivity|]. split; [|split].
  - eexists. split; [|split; [reflexivity|repeat split]].
    unfold Store.select_by_message_id in *. cbn [Store.emails].
    rewrite (find_app_none _ _ _ _ Hsel). cbn.
    rewrite String.eqb_refl. reflexivity.
  - eexists. split; [reflexivity|]. apply recipient_rows_shape.
  - eexists. split; [reflexivity|]. apply attachment_rows_shape.
Qed.

(** ** The context: [removeLabel] *)

(** X29: [removeLabel] leaves no occurrence of the label.  Over a
    database manager that returns the labels it was given, for a stored
    email with a usable UID and a mailbox that accepts the command, the
    call returns and the email read back afterwards has the labels it
    had, in order, without any occurrence of the label; the mailbox is
    as the command left it. *)
Theorem removeLabel_removes_every_occurrence :
  forall (DB Remote : Type)
         (dbm : ListenersManager.DatabaseManagerApi DB)
         (imap : ListenersManager.ImapManagerApi Remote),
    (forall emailId l db email,
        ListenersManager.db_getEmailByMessageId emailId db = Some email ->
        exists email',
          ListenersManager.db_getEmailByMessageId emailId
            (ListenersManager.db_updateEmailFlags emailId
               (ListenersManager.labels_update l) db) = Some email'
          /\ Contract.current_labels email' = l) ->
    forall (emailId label : string) (w : ListenersManager.World DB Remote)
           (email : DatabaseManager.EmailRecord) (uid : Z) (remote' : Remote),
      ListenersManager.db_getEmailByMessageId emailId (ListenersManager.db w)
      = Some email ->
      Contract.usable_uid email = Some uid ->
      ListenersManager.imap_removeLabel uid label (DatabaseManager.folder email)
        (ListenersManager.remote w) = (None, remote') ->
      fst (ListenersManager.removeLabel emailId label w) = Returned tt
      /\ ListenersManager.remote (snd (ListenersManager.removeLabel emailId label w))
         = remote'
      /\ exists email',
           ListenersManager.db_getEmailByMessageId emailId
             (ListenersManager.db
                (snd (ListenersManager.removeLabel emailId label w)))
           = Some email'
           /\ Contract.current_labels email'
              = ListenersManager.without (Contract.current_labels email) label
           /\ ~ In label (Contract.current_labels email').
Proof.
  intros DB Remote dbm imap Hlawful emailId label w email uid remote'
    Hget Huid Hremote.
  pose proof (perform_cases (Contract.RemoveLabel label) emailId w) as H.
  rewrite Hget, Huid in H. cbn [Contract.remote_action] in H.
  rewrite Hremote in H. cbn [Contract.perform Contract.local_mutation] in H.
  destruct H as [H1 [H2 H3]].
  split; [exact H1|]. split; [exact H3|].
  rewrite H2.
  destruct (Hlawful emailId
              (ListenersManager.without (Contract.current_labels email) label)
              (ListenersManager.db w) email Hget) as [email' [Hget' Hlabels]].
  exists email'. split; [exact Hget'|]. split; [exact Hlabels|].
  rewrite Hlabels. unfold ListenersManager.without. intro Hin.
  apply filter_In in Hin. destruct Hin as [_ Hne].
  rewrite String.eqb_refl in Hne. discriminate Hne.
Qed.

Lemma removeLabel_removes_every_occurrence_witness :
  option_map Contract.usable_uid
    (ListenersManager.db_getEmailByMessageId
       (DatabaseManagerApi := Sample.in_memory) "<a@x>"
       (ListenersManager.db (Sample.memory_world ["work"; "x"; "work"])))
  = Some (Some 7)
  /\ exists email',
       ListenersManager.db_getEmailByMessageId
         (DatabaseManagerApi := Sample.in_memory) "<a@x>"
         (ListenersManager.db
            (snd (ListenersManager.removeLabel (dbm := Sample.in_memory)
                    (imap := Sample.accepting) "<a@x>" "work"
                    (Sample.memory_world ["work"; "x"; "work"]))))
       = Some email'
       /\ Contract.current_labels email' = ["x"]
       /\ ~ In "work" (Contract.current_labels email').
Proof.
  split; [reflexivity|].
  destruct (removeLabel_removes_every_occurrence
              (list DatabaseManager.EmailRecord) unit Sample.in_memory
              Sample.accepting in_memory_returns_written_labels
              "<a@x>" "work" (Sample.memory_world ["work"; "x"; "work"])
              (Sample.with_uid 7
                 (Sample.apply_updates
                    (ListenersManager.labels_update ["work"; "x"; "work"])
                    (DatabaseManager.mapRowToEmailRecord Sample.rt
                       (EmailDatabase.inserted_row Sample.rt Sample.clk
                          (Sample.synced_record "<a@x>" None) [] 1))))
              7 tt eq_refl eq_refl eq_refl)
    as [_ [_ [email' [H1 [H2 H3]]]]].
  exists email'. split; [exact H1|]. split; [exact H2|exact H3].
Defined.
